(** * The OCI metrics datasource for Grafana: a model of [datasource.go]

    The backend plugin receives a batch of queries from Grafana, routes it by
    query type, calls the OCI monitoring and identity services through the Go
    SDK, and reshapes the answers into tables and time series.

    The Go code is embedded shallowly.  Every method of [OCIDatasource] becomes
    a computation in a small state-and-error monad [M]: the state is the
    datasource object together with the trace of SDK calls issued so far, the
    wall clock, and a counter of [range] statements over Go maps.  The SDK is a
    record of functions ([Cloud]); the order in which Go's [range] visits a
    map is a parameter ([rangeOrder]) about which only "it is a permutation of
    the entries" may be assumed. *)

From stdpp Require Import gmap strings list fin_maps sorting.
From Stdlib Require Import ZArith Lia Ascii.


(** ** Go values *)

(** [error]: what the code builds with [errors.New] and [errors.Wrap], and
    the errors that come back from the SDK.  The text that [spew.Sdump]
    contributes to some messages is left out of [msg]. *)
Inductive error : Type :=
| sdk_failure (text : string)
| errors_New (msg : string)
| errors_Wrap (cause : error) (msg : string).

(** [err.Error()] *)
Fixpoint Error (e : error) : string :=
  match e with
  | sdk_failure text => text
  | errors_New msg => msg
  | errors_Wrap cause msg => msg +:+ ": " +:+ Error cause
  end.

(** How a call ends: a normal return, a returned [error], a run-time panic
    (nil dereference, index out of range, explicit [panic]), or not at all:
    [Spinning] is what is left of a loop whose step budget ran out. *)
Inductive outcome (A : Type) : Type :=
| Ok (a : A)
| Failed (e : error)
| Panicked
| Spinning.
Arguments Ok {A} a.
Arguments Failed {A} e.
Arguments Panicked {A}.
Arguments Spinning {A}.

(** [time.Time] as nanoseconds since the zero time (January 1, year 1 UTC);
    [time.Duration] as nanoseconds (an int64). *)
Definition Time := Z.
Definition Duration := Z.

Definition minDuration : Duration := (- 2 ^ 63)%Z.
Definition maxDuration : Duration := (2 ^ 63 - 1)%Z.
Definition Millisecond : Duration := 1000000%Z.
Definition Second : Duration := 1000000000%Z.
Definition Minute : Duration := (60 * Second)%Z.

(** Seconds from the zero time to the Unix epoch. *)
Definition unixToInternal : Z := 62135596800%Z.

Definition wrap64 (z : Z) : Z := ((z + 2 ^ 63) mod 2 ^ 64 - 2 ^ 63)%Z.

Definition IsZero (t : Time) : bool := (t =? 0)%Z.

(** [t.Sub(u)]: the difference, saturated to the int64 range. *)
Definition Sub (t u : Time) : Duration :=
  let d := (t - u)%Z in
  if (d <? minDuration)%Z then minDuration
  else if (maxDuration <? d)%Z then maxDuration
  else d.

(** [time.Unix(sec, nsec)] *)
Definition Unix (sec nsec : Z) : Time := ((unixToInternal + sec) * Second + nsec)%Z.

(** [t.Truncate(d)]: round down to a multiple of [d] since the zero time. *)
Definition Truncate (t : Time) (d : Duration) : Time :=
  if (d <=? 0)%Z then t else (t - t mod d)%Z.

(** [t.UnixNano()] *)
Definition UnixNano (t : Time) : Z := wrap64 (t - unixToInternal * Second).

(** A [float64] is carried as its IEEE-754 bit pattern; the code only copies it. *)
Definition float64 := N.

(** [fmt.Sprintf("%s, {%s}", a, b)] *)
Definition Sprintf_name (a b : string) : string := a +:+ ", {" +:+ b +:+ "}".

(** [fmt.Sprintf("%s=%s", a, b)] *)
Definition Sprintf_eq (a b : string) : string := a +:+ "=" +:+ b.

(** ** The SDK's data: package [monitoring] *)

Record Metric := {
  Metric_Name : option string;
  Metric_Namespace : option string;
  Metric_ResourceGroup : option string;
  Metric_CompartmentId : option string;
  Metric_Dimensions : gmap string string
}.

Record ListMetricsDetails := {
  LMD_Name : option string;
  LMD_Namespace : option string;
  LMD_ResourceGroup : option string;
  LMD_GroupBy : list string
}.

Record ListMetricsRequest := {
  LMR_CompartmentId : option string;
  LMR_ListMetricsDetails : ListMetricsDetails;
  LMR_Page : option string
}.

(** [RawResponse] is kept as the HTTP status code when there is a response. *)
Record ListMetricsResponse := {
  LMRes_RawResponse : option Z;
  LMRes_Items : list Metric;
  LMRes_OpcNextPage : option string
}.

Record AggregatedDatapoint := {
  ADP_Timestamp : option Time;
  ADP_Value : option float64
}.

Record MetricData := {
  MD_Name : option string;
  MD_Dimensions : gmap string string;
  MD_AggregatedDatapoints : list AggregatedDatapoint
}.

Record SummarizeMetricsDataDetails := {
  SMD_Query : option string;
  SMD_Namespace : option string;
  SMD_Resolution : option string;
  SMD_StartTime : option Time;
  SMD_EndTime : option Time;
  SMD_ResourceGroup : option string
}.

Record SummarizeMetricsDataRequest := {
  SMR_CompartmentId : option string;
  SMR_SummarizeMetricsDataDetails : SummarizeMetricsDataDetails
}.

Record SummarizeMetricsDataResponse := {
  SMRes_Items : list MetricData
}.

(** ** The SDK's data: package [identity] *)

Inductive CompartmentLifecycleState :=
| CompartmentLifecycleStateCreating
| CompartmentLifecycleStateActive
| CompartmentLifecycleStateInactive
| CompartmentLifecycleStateDeleting
| CompartmentLifecycleStateDeleted.

Record Compartment := {
  Cmpt_Id : option string;
  Cmpt_CompartmentId : option string;
  Cmpt_Name : option string;
  Cmpt_LifecycleState : CompartmentLifecycleState
}.

Inductive ListCompartmentsAccessLevel :=
| ListCompartmentsAccessLevelAny
| ListCompartmentsAccessLevelAccessible.

Record ListCompartmentsRequest := {
  LCR_CompartmentId : option string;
  LCR_Page : option string;
  LCR_AccessLevel : ListCompartmentsAccessLevel;
  LCR_CompartmentIdInSubtree : option bool
}.

Record ListCompartmentsResponse := {
  LCRes_Items : list Compartment;
  LCRes_OpcNextPage : option string
}.

Record GetTenancyResponse := {
  GTRes_Name : option string
}.

Record Region := {
  Region_Name : option string
}.

Record ListRegionsResponse := {
  LRRes_Items : list Region
}.

(** The two credential sources of [getConfigProvider]. *)
Inductive ConfigurationProvider :=
| DefaultConfigProvider
| InstancePrincipalConfigurationProvider.

(** A service client: the provider it was built from (none for Go's zero
    value) and the region last set on it. *)
Record MonitoringClient := {
  mc_provider : option ConfigurationProvider;
  mc_region : string
}.

Record IdentityClient := {
  ic_provider : option ConfigurationProvider;
  ic_region : string
}.

(** ** The host's data: package [datasource] of the Grafana plugin model *)

(** [ModelJson] is the JSON text of one query.  The code only ever decodes it
    with [json.Unmarshal] (whose error it drops) into structs of string
    fields, so the model keeps the text as the string members those structs
    read; a member that is absent or not a string is the empty string. *)
Record ModelJson := {
  json_Compartment : string;
  json_Environment : string;
  json_QueryType : string;
  json_Region : string;
  json_tenancyOCID : string;
  json_Query : string;
  json_Resolution : string;
  json_Namespace : string;
  json_ResourceGroup : string;
  json_metric : string
}.

Record Query_ := {
  Q_RefId : string;
  Q_ModelJson : ModelJson
}.

Record TimeRange := {
  FromEpochMs : Z;
  ToEpochMs : Z
}.

Record DatasourceRequest := {
  Req_TimeRange : TimeRange;
  Req_Queries : list Query_
}.

Inductive RowValue_Kind := RowValue_TYPE_STRING.

Record RowValue := {
  RV_Kind : RowValue_Kind;
  RV_StringValue : string
}.

Record TableRow := { Row_Values : list RowValue }.

Record TableColumn := { Col_Name : string }.

Record Table := {
  Table_Columns : list TableColumn;
  Table_Rows : list TableRow
}.

Record Point := {
  Point_Timestamp : Z;
  Point_Value : float64
}.

Record TimeSeries := {
  TS_Name : string;
  TS_Points : list Point
}.

Record QueryResult := {
  QR_Error : string;
  QR_RefId : string;
  QR_Series : list TimeSeries;
  QR_Tables : list Table
}.

Record DatasourceResponse := { Results : list QueryResult }.

(** ** The request structs of [datasource.go] *)

Record GrafanaCommonRequest := {
  Compartment_ : string;
  Environment : string;
  QueryType : string;
  Region_ : string;
  TenancyOCID : string
}.

Record GrafanaOCIRequest := {
  OCI_Common : GrafanaCommonRequest;
  OCI_Query : string;
  OCI_Resolution : string;
  OCI_Namespace : string;
  OCI_ResourceGroup : string
}.

Record GrafanaSearchRequest := {
  Search_Common : GrafanaCommonRequest;
  Search_Metric : string;
  Search_Namespace : string;
  Search_ResourceGroup : string
}.

(** [json.Unmarshal([]byte(q.ModelJson), &ts)] for each of the three targets. *)
Definition Unmarshal_Common (j : ModelJson) : GrafanaCommonRequest :=
  {| Compartment_ := json_Compartment j;
     Environment := json_Environment j;
     QueryType := json_QueryType j;
     Region_ := json_Region j;
     TenancyOCID := json_tenancyOCID j |}.

Definition Unmarshal_OCI (j : ModelJson) : GrafanaOCIRequest :=
  {| OCI_Common := Unmarshal_Common j;
     OCI_Query := json_Query j;
     OCI_Resolution := json_Resolution j;
     OCI_Namespace := json_Namespace j;
     OCI_ResourceGroup := json_ResourceGroup j |}.

Definition Unmarshal_Search (j : ModelJson) : GrafanaSearchRequest :=
  {| Search_Common := Unmarshal_Common j;
     Search_Metric := json_metric j;
     Search_Namespace := json_Namespace j;
     Search_ResourceGroup := json_ResourceGroup j |}.

(** ** The outside world *)

(** The SDK and the services behind it.  A service call returns Go's pair of
    a response and an error; the answer depends on the client's region and
    on the request.  [InstancePrincipal_err] is the error that
    [auth.InstancePrincipalConfigurationProvider] returns, [ProviderRegion]
    the region a new client takes from its provider. *)
Record Cloud := {
  InstancePrincipal_err : option error;
  ProviderRegion : ConfigurationProvider -> string;
  NewMonitoringClientWithConfigurationProvider : ConfigurationProvider -> option error;
  NewIdentityClientWithConfigurationProvider : ConfigurationProvider -> option error;
  StringToRegion : string -> string;
  ListMetrics : string -> ListMetricsRequest -> ListMetricsResponse * option error;
  SummarizeMetricsData :
    string -> SummarizeMetricsDataRequest -> SummarizeMetricsDataResponse * option error;
  GetTenancy : string -> string -> GetTenancyResponse * option error;
  ListCompartments : string -> ListCompartmentsRequest -> ListCompartmentsResponse * option error;
  ListRegions : string -> ListRegionsResponse * option error
}.

(** What the plugin did to the outside, in order. *)
Inductive Call :=
| NewMonitoringClient (p : ConfigurationProvider)
| NewIdentityClient (p : ConfigurationProvider)
| CallListMetrics (region : string) (req : ListMetricsRequest)
| CallSummarizeMetricsData (region : string) (req : SummarizeMetricsDataRequest)
| CallGetTenancy (region : string) (tenancyId : string)
| CallListCompartments (region : string) (req : ListCompartmentsRequest)
| CallListRegions (region : string)
| LogError (msg : string).

(** ** The datasource object *)

Record OCIDatasource := {
  metricsClient : MonitoringClient;
  identityClient : IdentityClient;
  config : option ConfigurationProvider;
  nameToOCID : gmap string string;
  timeCacheUpdated : Time
}.

(** [NewOCIDatasource]: every field but the empty map is Go's zero value. *)
Definition NewOCIDatasource : OCIDatasource :=
  {| metricsClient := {| mc_provider := None; mc_region := "" |};
     identityClient := {| ic_provider := None; ic_region := "" |};
     config := None;
     nameToOCID := ∅;
     timeCacheUpdated := 0%Z |}.

(** The state a method runs in: the receiver [o], the trace of calls, the
    wall clock read by [time.Now()], and how many [range] loops over maps
    have been started (the index into [rangeOrder]). *)
Record World := {
  o : OCIDatasource;
  trace : list Call;
  wall : Time;
  ranges : nat
}.

Definition set_o (f : OCIDatasource -> OCIDatasource) (w : World) : World :=
  {| o := f (o w); trace := trace w; wall := wall w; ranges := ranges w |}.

Definition record (c : Call) (w : World) : World :=
  {| o := o w; trace := trace w ++ [c]; wall := wall w; ranges := ranges w |}.

Definition next_range (w : World) : World :=
  {| o := o w; trace := trace w; wall := wall w; ranges := S (ranges w) |}.

(** ** The monad of methods *)

Definition M (A : Type) : Type := World -> outcome A * World.

Definition ret {A} (a : A) : M A := fun w => (Ok a, w).

Definition bind {A B} (m : M A) (k : A -> M B) : M B :=
  fun w =>
    match m w with
    | (Ok a, w') => k a w'
    | (Failed e, w') => (Failed e, w')
    | (Panicked, w') => (Panicked, w')
    | (Spinning, w') => (Spinning, w')
    end.

Definition fail {A} (e : error) : M A := fun w => (Failed e, w).
Definition panic {A} : M A := fun w => (Panicked, w).
Definition spin {A} : M A := fun w => (Spinning, w).
Definition get : M World := fun w => (Ok w, w).
Definition modify (f : World -> World) : M unit := fun w => (Ok tt, f w).

(** [*p] for a pointer field of an SDK struct: a nil pointer panics. *)
Definition deref {A} (p : option A) : M A :=
  match p with
  | Some a => ret a
  | None => panic
  end.

Declare Scope go_scope.
Delimit Scope go_scope with go.
Notation "x <- m ;; k" := (bind m (fun x => k))
  (at level 100, m at next level, right associativity) : go_scope.
Notation "m ;; k" := (bind m (fun _ => k))
  (at level 100, right associativity) : go_scope.
Local Open Scope go_scope.

(** [for _, x := range xs { body }] over a slice, threading an accumulator. *)
Fixpoint forM {A S} (xs : list A) (acc : S) (body : S -> A -> M S) : M S :=
  match xs with
  | [] => ret acc
  | x :: xs' => acc' <- body acc x ;; forM xs' acc' body
  end.

(** [errors.Wrap(err, msg)] around the error of a callee. *)
Definition wrapErr {A} (msg : string) (m : M A) : M A :=
  fun w =>
    match m w with
    | (Failed e, w') => (Failed (errors_Wrap e msg), w')
    | r => r
    end.

(** [xs[0]]: an index out of range panics. *)
Definition index0 {A} (xs : list A) : M A :=
  match xs with
  | x :: _ => ret x
  | [] => panic
  end.

(** [common.String(s)], a pointer to [s]. *)
Definition common_String (s : string) : option string := Some s.

(** A string cell, and the row made of one such cell. *)
Definition string_value (s : string) : RowValue :=
  {| RV_Kind := RowValue_TYPE_STRING; RV_StringValue := s |}.

Definition text_row (s : string) : TableRow :=
  {| Row_Values := [string_value s] |}.

Definition text_column : TableColumn := {| Col_Name := "text" |}.

(** The response every lookup responder ends with: one result, one table. *)
Definition table_response (refId : string) (table : Table) : DatasourceResponse :=
  {| Results := [ {| QR_Error := ""; QR_RefId := refId; QR_Series := [];
                     QR_Tables := [table] |} ] |}.

Definition set_Rows (table : Table) (rows : list TableRow) : Table :=
  {| Table_Columns := Table_Columns table; Table_Rows := rows |}.

(** [const MAX_PAGES_TO_FETCH = 20] *)
Definition MAX_PAGES_TO_FETCH : Z := 20%Z.

(** [var cacheRefreshTime = time.Minute] *)
Definition cacheRefreshTime : Duration := Minute.

(** [`(?m)\w+Name`] with [MatchString]: the key has, somewhere, a word
    character ([0-9A-Za-z_]) directly followed by [Name]. *)
Definition is_word_char (c : ascii) : bool :=
  let n := nat_of_ascii c in
  ((48 <=? n) && (n <=? 57)) || ((65 <=? n) && (n <=? 90))
  || ((97 <=? n) && (n <=? 122)) || (n =? 95).

Fixpoint re_MatchString (s : string) : bool :=
  match s with
  | EmptyString => false
  | String c rest => (is_word_char c && String.prefix "Name" rest) || re_MatchString rest
  end.

(** [sort.Strings]: ascending in Go's string order, which compares bytes. *)
Fixpoint sort_insert (x : string) (l : list string) : list string :=
  match l with
  | [] => [x]
  | y :: l' => if String.leb x y then x :: y :: l' else y :: sort_insert x l'
  end.

Definition sort_Strings (l : list string) : list string :=
  foldr sort_insert [] l.

Section Model.

Variable cloud : Cloud.

(** [rangeOrder k m]: the order in which the [k]-th [range] loop of the run
    visits the entries of the map [m]. *)
Variable rangeOrder : nat -> gmap string string -> list (string * string).

Definition range (m : gmap string string) : M (list (string * string)) :=
  fun w => (Ok (rangeOrder (ranges w) m), next_range w).

(** *** Methods of the SDK clients *)

Definition metricsClient_SetRegion (region : string) : M unit :=
  modify (set_o (fun d =>
    {| metricsClient := {| mc_provider := mc_provider (metricsClient d); mc_region := region |};
       identityClient := identityClient d; config := config d;
       nameToOCID := nameToOCID d; timeCacheUpdated := timeCacheUpdated d |})).

Definition identityClient_SetRegion (region : string) : M unit :=
  modify (set_o (fun d =>
    {| metricsClient := metricsClient d;
       identityClient := {| ic_provider := ic_provider (identityClient d); ic_region := region |};
       config := config d;
       nameToOCID := nameToOCID d; timeCacheUpdated := timeCacheUpdated d |})).

Definition metricsClient_ListMetrics (req : ListMetricsRequest)
  : M (ListMetricsResponse * option error) :=
  fun w =>
    let r := mc_region (metricsClient (o w)) in
    (Ok (ListMetrics cloud r req), record (CallListMetrics r req) w).

Definition metricsClient_SummarizeMetricsData (req : SummarizeMetricsDataRequest)
  : M (SummarizeMetricsDataResponse * option error) :=
  fun w =>
    let r := mc_region (metricsClient (o w)) in
    (Ok (SummarizeMetricsData cloud r req), record (CallSummarizeMetricsData r req) w).

Definition identityClient_GetTenancy (tenancyId : string)
  : M (GetTenancyResponse * option error) :=
  fun w =>
    let r := ic_region (identityClient (o w)) in
    (Ok (GetTenancy cloud r tenancyId), record (CallGetTenancy r tenancyId) w).

Definition identityClient_ListCompartments (req : ListCompartmentsRequest)
  : M (ListCompartmentsResponse * option error) :=
  fun w =>
    let r := ic_region (identityClient (o w)) in
    (Ok (ListCompartments cloud r req), record (CallListCompartments r req) w).

Definition identityClient_ListRegions : M (ListRegionsResponse * option error) :=
  fun w =>
    let r := ic_region (identityClient (o w)) in
    (Ok (ListRegions cloud r), record (CallListRegions r) w).

(** *** [searchHelper] *)

(** The [for] loop of [searchHelper]; [items], [page] and [pageNumber] are
    its variables, [fuel] bounds the number of iterations modelled. *)
Fixpoint searchHelper_loop (fuel : nat) (region compartment : string)
    (metricDetails : ListMetricsDetails)
    (items : list Metric) (page : option string) (pageNumber : Z) : M (list Metric) :=
  match fuel with
  | O => spin
  | S fuel' =>
      let reg := StringToRegion cloud region in
      metricsClient_SetRegion reg ;;
      r <- metricsClient_ListMetrics
             {| LMR_CompartmentId := common_String compartment;
                LMR_ListMetricsDetails := metricDetails;
                LMR_Page := page |} ;;
      let res := r.1 in
      match r.2 with
      | Some err => fail (errors_Wrap err "list metrircs failed")
      | None =>
          let items := items ++ LMRes_Items res in
          if bool_decide (LMRes_OpcNextPage res = None)
             || (MAX_PAGES_TO_FETCH <=? pageNumber)%Z
          then ret items
          else searchHelper_loop fuel' region compartment metricDetails
                 items (LMRes_OpcNextPage res) (wrap64 (pageNumber + 1))
      end
  end.

Definition searchHelper (fuel : nat) (region compartment : string)
    (metricDetails : ListMetricsDetails) : M (list Metric) :=
  searchHelper_loop fuel region compartment metricDetails [] None 0%Z.

(** *** The lookup responders *)

(** Each responder runs the body of its [for _, query := range
    tsdbReq.Queries] loop once per query; the body computes the rows that
    replace [table.Rows]. *)

(** The empty one-column table each responder starts from. *)
Definition text_table : Table :=
  {| Table_Columns := [text_column]; Table_Rows := [] |}.

Definition per_query (table : Table) (queries : list Query_)
    (body : Query_ -> M (list TableRow)) : M Table :=
  forM queries table (fun table query =>
    rows <- body query ;;
    ret (set_Rows table rows)).

Definition dimension_rows (items : list Metric) : M (list TableRow) :=
  forM items [] (fun rows item =>
    entries <- range (Metric_Dimensions item) ;;
    ret (foldl (fun rows entry => rows ++ [text_row (Sprintf_eq entry.1 entry.2)])
           rows entries)).

Definition dimension_query (fuel : nat) (query : Query_) : M (list TableRow) :=
  let ts := Unmarshal_Search (Q_ModelJson query) in
  let reqDetails :=
    {| LMD_Name := common_String (Search_Metric ts);
       LMD_Namespace := common_String (Search_Namespace ts);
       LMD_ResourceGroup :=
         if bool_decide (Search_ResourceGroup ts ≠ "NoResourceGroup")
         then common_String (Search_ResourceGroup ts) else None;
       LMD_GroupBy := [] |} in
  items <- wrapErr "list metrircs failed"
             (searchHelper fuel (Region_ (Search_Common ts))
                (Compartment_ (Search_Common ts)) reqDetails) ;;
  dimension_rows items.

Definition dimensionResponse (fuel : nat) (tsdbReq : DatasourceRequest) : M DatasourceResponse :=
  table <- per_query text_table (Req_Queries tsdbReq) (dimension_query fuel) ;;
  ret (table_response "dimensions" table).

Definition namespace_query (fuel : nat) (query : Query_) : M (list TableRow) :=
  let ts := Unmarshal_Search (Q_ModelJson query) in
  let reqDetails :=
    {| LMD_Name := None; LMD_Namespace := None; LMD_ResourceGroup := None;
       LMD_GroupBy := ["namespace"] |} in
  items <- wrapErr "list metrircs failed"
             (searchHelper fuel (Region_ (Search_Common ts))
                (Compartment_ (Search_Common ts)) reqDetails) ;;
  forM items [] (fun rows item =>
    ns <- deref (Metric_Namespace item) ;;
    ret (rows ++ [text_row ns])).

Definition namespaceResponse (fuel : nat) (tsdbReq : DatasourceRequest) : M DatasourceResponse :=
  table <- per_query text_table (Req_Queries tsdbReq) (namespace_query fuel) ;;
  ret (table_response "namespaces" table).

Definition resourcegroups_query (fuel : nat) (rows_placeholder : option string)
    (query : Query_) : M (list TableRow) :=
  let ts := Unmarshal_Search (Q_ModelJson query) in
  let reqDetails :=
    {| LMD_Name := None;
       LMD_Namespace := common_String (Search_Namespace ts);
       LMD_ResourceGroup := None;
       LMD_GroupBy := ["resourceGroup"] |} in
  items <- wrapErr "list metrircs failed"
             (searchHelper fuel (Region_ (Search_Common ts))
                (Compartment_ (Search_Common ts)) reqDetails) ;;
  placeholder <- deref rows_placeholder ;;
  forM items [text_row placeholder] (fun rows item =>
    rg <- deref (Metric_ResourceGroup item) ;;
    ret (rows ++ [text_row rg])).

Definition resourcegroupsResponse (fuel : nat) (tsdbReq : DatasourceRequest)
  : M DatasourceResponse :=
  let rows_placeholder := common_String "NoResourceGroup" in
  table <- per_query text_table (Req_Queries tsdbReq)
             (resourcegroups_query fuel rows_placeholder) ;;
  ret (table_response "resourcegroups" table).

(** [getConfigProvider]: the provider and the error Go returns together. *)
Definition getConfigProvider (environment : string) : M ConfigurationProvider :=
  if bool_decide (environment = "local") then ret DefaultConfigProvider
  else if bool_decide (environment = "OCI Instance") then
    match InstancePrincipal_err cloud with
    | Some err => fail err
    | None => ret InstancePrincipalConfigurationProvider
    end
  else fail (errors_New "unknown environment type").

(** The [for] loop over [items] in [searchResponse], with its two
    variables [rows] and [metricCache]. *)
Definition search_rows (items : list Metric) : M (list TableRow * gmap string bool) :=
  forM items ([], ∅) (fun st item =>
    let rows := st.1 in
    let metricCache : gmap string bool := st.2 in
    name <- deref (Metric_Name item) ;;
    match metricCache !! name with
    | None => ret (rows ++ [text_row name], <[name := true]> metricCache)
    | Some _ => ret (rows, metricCache)
    end).

Definition search_query (fuel : nat) (query : Query_) : M (list TableRow) :=
  let ts := Unmarshal_Search (Q_ModelJson query) in
  let reqDetails :=
    {| LMD_Name := None;
       LMD_Namespace := common_String (Search_Namespace ts);
       LMD_ResourceGroup :=
         if bool_decide (Search_ResourceGroup ts ≠ "NoResourceGroup")
         then common_String (Search_ResourceGroup ts) else None;
       LMD_GroupBy := ["name"] |} in
  items <- wrapErr "list metrircs failed"
             (searchHelper fuel (Region_ (Search_Common ts))
                (Compartment_ (Search_Common ts)) reqDetails) ;;
  st <- search_rows items ;;
  ret st.1.

Definition searchResponse (fuel : nat) (tsdbReq : DatasourceRequest) : M DatasourceResponse :=
  table <- per_query text_table (Req_Queries tsdbReq) (search_query fuel) ;;
  ret (table_response "search" table).

Definition regions_query (query : Query_) : M (list TableRow) :=
  r <- identityClient_ListRegions ;;
  let res := r.1 in
  match r.2 with
  | Some err => fail (errors_Wrap err "error fetching regions")
  | None =>
      forM (LRRes_Items res) [] (fun rows item =>
        name <- deref (Region_Name item) ;;
        ret (rows ++ [text_row name]))
  end.

Definition regionsResponse (tsdbReq : DatasourceRequest) : M DatasourceResponse :=
  table <- per_query text_table (Req_Queries tsdbReq) regions_query ;;
  ret (table_response "regions" table).

(** [testResponse] returns Go's pair (nil, nil) when the call reports no
    error and yet the status is outside 2xx ([errors.Wrap] of a nil error is
    nil): the [None] below. *)
Definition testResponse (tsdbReq : DatasourceRequest) : M (option DatasourceResponse) :=
  q0 <- index0 (Req_Queries tsdbReq) ;;
  let ts := Unmarshal_Common (Q_ModelJson q0) in
  let listMetrics :=
    {| LMR_CompartmentId := common_String (TenancyOCID ts);
       LMR_ListMetricsDetails :=
         {| LMD_Name := None; LMD_Namespace := None; LMD_ResourceGroup := None;
            LMD_GroupBy := [] |};
       LMR_Page := None |} in
  let reg := StringToRegion cloud (Region_ ts) in
  metricsClient_SetRegion reg ;;
  r <- metricsClient_ListMetrics listMetrics ;;
  status <- deref (LMRes_RawResponse r.1) ;;
  if (200 <=? status)%Z && (status <? 300)%Z then ret (Some {| Results := [] |})
  else match r.2 with
       | Some err => fail (errors_Wrap err "list metrircs failed")
       | None => ret None
       end.

(** *** [getCompartments] *)

(** [m[k]] on a Go map of strings: the empty string for a missing key. *)
Definition at_key (m : gmap string string) (k : string) : string := default "" (m !! k).

(** The body of [for _, compartment := range res.Items]: the two maps are
    the loop's state. *)
Definition note_compartment (maps : gmap string string * gmap string string)
    (compartment : Compartment) : M (gmap string string * gmap string string) :=
  let mapFromIdToName := maps.1 in
  let mapFromIdToParentCmptId := maps.2 in
  match Cmpt_LifecycleState compartment with
  | CompartmentLifecycleStateActive =>
      id <- deref (Cmpt_Id compartment) ;;
      name <- deref (Cmpt_Name compartment) ;;
      parent <- deref (Cmpt_CompartmentId compartment) ;;
      ret (<[id := name]> mapFromIdToName, <[id := parent]> mapFromIdToParentCmptId)
  | _ => ret maps
  end.

(** The paging loop over [ListCompartments]; it has no page cap. *)
Fixpoint listCompartments_loop (fuel : nat) (rootCompartment : string)
    (page : option string) (maps : gmap string string * gmap string string)
  : M (gmap string string * gmap string string) :=
  match fuel with
  | O => spin
  | S fuel' =>
      r <- identityClient_ListCompartments
             {| LCR_CompartmentId := Some rootCompartment;
                LCR_Page := page;
                LCR_AccessLevel := ListCompartmentsAccessLevelAny;
                LCR_CompartmentIdInSubtree := Some true |} ;;
      let res := r.1 in
      match r.2 with
      | Some err =>
          fail (errors_Wrap err ("this is what we were trying to get " +:+ rootCompartment))
      | None =>
          maps' <- forM (LCRes_Items res) maps note_compartment ;;
          match LCRes_OpcNextPage res with
          | None => ret maps'
          | Some next => listCompartments_loop fuel' rootCompartment (Some next) maps'
          end
      end
  end.

(** The body of [for cmptId, cmptParentCmptId := range mapFromIdToParentCmptId]. *)
Definition resolve_entry (tenancyOcid : string) (mapFromIdToName : gmap string string)
    (mapFromIdToFullCmptName : gmap string string) (entry : string * string)
  : gmap string string :=
  let cmptId := entry.1 in
  let cmptParentCmptId := entry.2 in
  match mapFromIdToFullCmptName !! cmptId with
  | Some _ => mapFromIdToFullCmptName
  | None =>
      if bool_decide (cmptParentCmptId = tenancyOcid) then
        <[cmptId := "/" +:+ at_key mapFromIdToName cmptId]> mapFromIdToFullCmptName
      else
        match mapFromIdToFullCmptName !! cmptParentCmptId with
        | Some fullNameOfParentCmpt =>
            <[cmptId := fullNameOfParentCmpt +:+ "/" +:+ at_key mapFromIdToName cmptId]>
              mapFromIdToFullCmptName
        | None => mapFromIdToFullCmptName
        end
  end.

(** One full pass over the parent map. *)
Definition resolve_pass (tenancyOcid : string) (mapFromIdToName : gmap string string)
    (mapFromIdToFullCmptName : gmap string string) (entries : list (string * string))
  : gmap string string :=
  foldl (resolve_entry tenancyOcid mapFromIdToName) mapFromIdToFullCmptName entries.

(** [for len(mapFromIdToFullCmptName) < len(mapFromIdToName) { ... }] *)
Fixpoint resolve_loop (fuel : nat) (tenancyOcid : string)
    (mapFromIdToName mapFromIdToParentCmptId mapFromIdToFullCmptName : gmap string string)
  : M (gmap string string) :=
  match fuel with
  | O => spin
  | S fuel' =>
      if size mapFromIdToFullCmptName <? size mapFromIdToName then
        entries <- range mapFromIdToParentCmptId ;;
        resolve_loop fuel' tenancyOcid mapFromIdToName mapFromIdToParentCmptId
          (resolve_pass tenancyOcid mapFromIdToName mapFromIdToFullCmptName entries)
      else ret mapFromIdToFullCmptName
  end.

(** [for cmptId, fullyQualifiedCmptName := range ... { m[name] = cmptId }] *)
Definition invert (entries : list (string * string)) : gmap string string :=
  foldl (fun m entry => <[entry.2 := entry.1]> m) ∅ entries.

Definition tenancy_suffix : string := "(tenancy, shown as '/')".

Definition getCompartments (fuel : nat) (region rootCompartment : string)
  : M (gmap string string) :=
  let tenancyOcid := rootCompartment in
  r <- identityClient_GetTenancy tenancyOcid ;;
  let resp := r.1 in
  match r.2 with
  | Some err =>
      fail (errors_Wrap err "This is what we were trying to get  : fetching tenancy name")
  | None =>
      tenancyName <- deref (GTRes_Name resp) ;;
      let mapFromIdToName : gmap string string := <[tenancyOcid := tenancyName]> ∅ in
      let mapFromIdToParentCmptId : gmap string string := <[tenancyOcid := ""]> ∅ in
      let reg := StringToRegion cloud region in
      identityClient_SetRegion reg ;;
      maps <- listCompartments_loop fuel rootCompartment None
                (mapFromIdToName, mapFromIdToParentCmptId) ;;
      let mapFromIdToName := maps.1 in
      let mapFromIdToParentCmptId := maps.2 in
      let mapFromIdToFullCmptName : gmap string string :=
        <[tenancyOcid := at_key mapFromIdToName tenancyOcid +:+ tenancy_suffix]> ∅ in
      full <- resolve_loop fuel tenancyOcid mapFromIdToName mapFromIdToParentCmptId
                mapFromIdToFullCmptName ;;
      entries <- range full ;;
      ret (invert entries)
  end.

(** *** [compartmentsResponse] *)

Definition set_nameToOCID (m : gmap string string) : M unit :=
  modify (set_o (fun d =>
    {| metricsClient := metricsClient d; identityClient := identityClient d;
       config := config d; nameToOCID := m; timeCacheUpdated := timeCacheUpdated d |})).

Definition two_text_table : Table :=
  {| Table_Columns := [text_column; text_column]; Table_Rows := [] |}.

Definition compartmentsResponse (fuel : nat) (tsdbReq : DatasourceRequest)
  : M DatasourceResponse :=
  let table := two_text_table in
  w <- get ;;
  let now := wall w in
  q0 <- index0 (Req_Queries tsdbReq) ;;
  let ts := Unmarshal_Search (Q_ModelJson q0) in
  (if IsZero (timeCacheUpdated (o w))
      || (cacheRefreshTime <? Sub now (timeCacheUpdated (o w)))%Z
   then
     fun w0 =>
       match getCompartments fuel (Region_ (Search_Common ts))
               (TenancyOCID (Search_Common ts)) w0 with
       | (Failed err, w') => (Failed err, record (LogError "Unable to refresh cache") w')
       | (Ok m, w') => set_nameToOCID m w'
       | (Panicked, w') => (Panicked, w')
       | (Spinning, w') => (Spinning, w')
       end
   else ret tt) ;;
  w <- get ;;
  entries <- range (nameToOCID (o w)) ;;
  let rows :=
    foldl (fun rows entry =>
             rows ++ [ {| Row_Values := [string_value entry.1; string_value entry.2] |} ])
          [] entries in
  ret (table_response "compartments" (set_Rows table rows)).

(** *** [queryResponse] *)

Record responseAndQuery := {
  ociRes : SummarizeMetricsDataResponse;
  query : Query_;
  err : option error
}.

(** The request built for one query of the batch. *)
Definition summarize_request (tsdbReq : DatasourceRequest) (ts : GrafanaOCIRequest)
  : SummarizeMetricsDataRequest :=
  let from := FromEpochMs (Req_TimeRange tsdbReq) in
  let to := ToEpochMs (Req_TimeRange tsdbReq) in
  let start := Unix (from ÷ 1000) (wrap64 ((from `rem` 1000) * 1000000)) in
  let end_ := Unix (to ÷ 1000) (wrap64 ((to `rem` 1000) * 1000000)) in
  let start := Truncate start Millisecond in
  let end_ := Truncate end_ Millisecond in
  let req :=
    {| SMD_Query := common_String (OCI_Query ts);
       SMD_Namespace := common_String (OCI_Namespace ts);
       SMD_Resolution := common_String (OCI_Resolution ts);
       SMD_StartTime := Some start;
       SMD_EndTime := Some end_;
       SMD_ResourceGroup :=
         if bool_decide (OCI_ResourceGroup ts ≠ "NoResourceGroup")
         then common_String (OCI_ResourceGroup ts) else None |} in
  {| SMR_CompartmentId := common_String (Compartment_ (OCI_Common ts));
     SMR_SummarizeMetricsDataDetails := req |}.

(** The body of the first loop: one [SummarizeMetricsData] call. *)
Definition summarize_query (tsdbReq : DatasourceRequest) (query : Query_)
  : M responseAndQuery :=
  let ts := Unmarshal_OCI (Q_ModelJson query) in
  let reg := StringToRegion cloud (Region_ (OCI_Common ts)) in
  metricsClient_SetRegion reg ;;
  let request := summarize_request tsdbReq ts in
  r <- metricsClient_SummarizeMetricsData request ;;
  let res := r.1 in
  let err := r.2 in
  match err with
  | Some e => fail (errors_Wrap e "")
  | None => ret {| ociRes := res; query := query; err := err |}
  end.

Definition summarize_all (tsdbReq : DatasourceRequest) : M (list responseAndQuery) :=
  forM (Req_Queries tsdbReq) [] (fun results query =>
    r <- summarize_query tsdbReq query ;;
    ret (results ++ [r])).

(** [dimensionKeys[i] = key] on a slice: an index out of range panics. *)
Definition set_index (keys : list string) (i : nat) (key : string) : M (list string) :=
  if i <? length keys then ret (<[i := key]> keys) else panic.

(** The name of the series of one item. *)
Definition series_name (item : MetricData) : M string :=
  itemName <- deref (MD_Name item) ;;
  let tName := itemName in
  let dimensionKeys := replicate (size (MD_Dimensions item)) "" in
  entries <- range (MD_Dimensions item) ;;
  st <- forM entries (tName, dimensionKeys, 0) (fun st entry =>
          let '(tName, dimensionKeys, i) := st in
          let key := entry.1 in
          let dimension := entry.2 in
          let tName := if re_MatchString key then Sprintf_name tName dimension else tName in
          dimensionKeys <- set_index dimensionKeys i key ;;
          ret (tName, dimensionKeys, S i)) ;;
  let '(tName, dimensionKeys, _) := st in
  if String.eqb tName itemName then
    let preDisplayName :=
      foldl (fun preDisplayName dimensionKey =>
               if String.eqb preDisplayName ""
               then at_key (MD_Dimensions item) dimensionKey
               else preDisplayName +:+ ", " +:+ at_key (MD_Dimensions item) dimensionKey)
            "" (sort_Strings dimensionKeys) in
    ret (Sprintf_name tName preDisplayName)
  else ret tName.

Definition series_points (item : MetricData) : M (list Point) :=
  forM (MD_AggregatedDatapoints item) [] (fun p metric =>
    ts <- deref (ADP_Timestamp metric) ;;
    v <- deref (ADP_Value metric) ;;
    ret (p ++ [ {| Point_Timestamp := UnixNano ts ÷ 1000000; Point_Value := v |} ])).

(** The second loop: one [QueryResult] per entry of [results]. *)
Definition reshape (q : responseAndQuery) : M QueryResult :=
  match err q with
  | Some e =>
      ret {| QR_Error := Error e; QR_RefId := Q_RefId (query q); QR_Series := [];
             QR_Tables := [] |}
  | None =>
      series <- forM (SMRes_Items (ociRes q)) [] (fun series item =>
                  name <- series_name item ;;
                  p <- series_points item ;;
                  ret (series ++ [ {| TS_Name := name; TS_Points := p |} ])) ;;
      ret {| QR_Error := ""; QR_RefId := Q_RefId (query q); QR_Series := series;
             QR_Tables := [] |}
  end.

Definition queryResponse (tsdbReq : DatasourceRequest) : M DatasourceResponse :=
  results <- summarize_all tsdbReq ;;
  queryRes <- forM results [] (fun queryRes q =>
                res <- reshape q ;;
                ret (queryRes ++ [res])) ;;
  ret {| Results := queryRes |}.

(** *** [Query] *)

Definition set_clients (p : ConfigurationProvider) : M unit :=
  modify (set_o (fun d =>
    {| metricsClient := {| mc_provider := Some p; mc_region := ProviderRegion cloud p |};
       identityClient := {| ic_provider := Some p; ic_region := ProviderRegion cloud p |};
       config := Some p;
       nameToOCID := nameToOCID d; timeCacheUpdated := timeCacheUpdated d |})).

(** The [if o.config == nil { ... }] block. *)
Definition bootstrap (environment : string) : M unit :=
  w <- get ;;
  match config (o w) with
  | Some _ => ret tt
  | None =>
      configProvider <- wrapErr "broken environment" (getConfigProvider environment) ;;
      modify (record (NewMonitoringClient configProvider)) ;;
      match NewMonitoringClientWithConfigurationProvider cloud configProvider with
      | Some e => fail (errors_New ("error with client" +:+ Error e))
      | None =>
          modify (record (NewIdentityClient configProvider)) ;;
          match NewIdentityClientWithConfigurationProvider cloud configProvider with
          | Some e => modify (record (LogError "error with client")) ;; panic
          | None => set_clients configProvider
          end
      end
  end.

(** A handler that returns a non-nil response pointer on success. *)
Definition nonnil (m : M DatasourceResponse) : M (option DatasourceResponse) :=
  resp <- m ;; ret (Some resp).

Definition Query (fuel : nat) (tsdbReq : DatasourceRequest) : M (option DatasourceResponse) :=
  q0 <- index0 (Req_Queries tsdbReq) ;;
  let ts := Unmarshal_Common (Q_ModelJson q0) in
  let queryType := QueryType ts in
  bootstrap (Environment ts) ;;
  if bool_decide (queryType = "compartments") then
    nonnil (compartmentsResponse fuel tsdbReq)
  else if bool_decide (queryType = "dimensions") then
    nonnil (dimensionResponse fuel tsdbReq)
  else if bool_decide (queryType = "namespaces") then
    nonnil (namespaceResponse fuel tsdbReq)
  else if bool_decide (queryType = "resourcegroups") then
    nonnil (resourcegroupsResponse fuel tsdbReq)
  else if bool_decide (queryType = "regions") then
    nonnil (regionsResponse tsdbReq)
  else if bool_decide (queryType = "search") then
    nonnil (searchResponse fuel tsdbReq)
  else if bool_decide (queryType = "test") then
    testResponse tsdbReq
  else
    nonnil (queryResponse tsdbReq).

End Model.

(** * Vocabulary of the properties *)

(** ** Paging through [ListMetrics] *)

(** The request [searchHelper] sends for the cursor [page]. *)
Definition list_request (compartment : string) (metricDetails : ListMetricsDetails)
    (page : option string) : ListMetricsRequest :=
  {| LMR_CompartmentId := common_String compartment;
     LMR_ListMetricsDetails := metricDetails;
     LMR_Page := page |}.

(** [linked cloud reg c d page ps]: starting from the cursor [page], the
    service answers with the pages [ps], in this order, without error, each
    page but the last carrying the cursor that leads to the next one.  The
    last page's cursor is left open. *)
Inductive linked (cloud : Cloud) (reg compartment : string) (metricDetails : ListMetricsDetails)
  : option string -> list ListMetricsResponse -> Prop :=
| linked_last page p :
    ListMetrics cloud reg (list_request compartment metricDetails page) = (p, None) ->
    linked cloud reg compartment metricDetails page [p]
| linked_next page p next ps :
    ListMetrics cloud reg (list_request compartment metricDetails page) = (p, None) ->
    LMRes_OpcNextPage p = Some next ->
    linked cloud reg compartment metricDetails (Some next) ps ->
    linked cloud reg compartment metricDetails page (p :: ps).

(** The requests that fetch the pages [ps] from the cursor [page] on. *)
Fixpoint page_requests (compartment : string) (metricDetails : ListMetricsDetails)
    (page : option string) (ps : list ListMetricsResponse) : list ListMetricsRequest :=
  match ps with
  | [] => []
  | p :: ps' =>
      list_request compartment metricDetails page
        :: page_requests compartment metricDetails (LMRes_OpcNextPage p) ps'
  end.

(** The world after [ListMetrics] was called with [reqs] in region [reg]. *)
Definition searched (reg : string) (reqs : list ListMetricsRequest) (w : World) : World :=
  {| o := {| metricsClient :=
               {| mc_provider := mc_provider (metricsClient (o w)); mc_region := reg |};
             identityClient := identityClient (o w); config := config (o w);
             nameToOCID := nameToOCID (o w); timeCacheUpdated := timeCacheUpdated (o w) |};
     trace := trace w ++ map (CallListMetrics reg) reqs;
     wall := wall w; ranges := ranges w |}.

Definition no_page : ListMetricsResponse :=
  {| LMRes_RawResponse := None; LMRes_Items := []; LMRes_OpcNextPage := None |}.

(** The first [n] pages met when following cursors from [page]. *)
Fixpoint follow (cloud : Cloud) (reg compartment : string) (metricDetails : ListMetricsDetails)
    (n : nat) (page : option string) : list ListMetricsResponse :=
  match n with
  | O => []
  | S n' =>
      let p := (ListMetrics cloud reg (list_request compartment metricDetails page)).1 in
      p :: follow cloud reg compartment metricDetails n' (LMRes_OpcNextPage p)
  end.


(** The check behind [linked]: the first [n] answers from [page] on come
    without error and all but the last carry a cursor. *)
Fixpoint linkedb (cloud : Cloud) (reg compartment : string) (metricDetails : ListMetricsDetails)
    (n : nat) (page : option string) : bool :=
  match n with
  | O => false
  | S n' =>
      let r := ListMetrics cloud reg (list_request compartment metricDetails page) in
      bool_decide (r.2 = None)
      && match n' with
         | O => true
         | S _ =>
             bool_decide (is_Some (LMRes_OpcNextPage r.1))
             && linkedb cloud reg compartment metricDetails n' (LMRes_OpcNextPage r.1)
         end
  end.

(** ** The compartment hierarchy *)

(** [reaches n tenancyOcid parents id]: following parent links from [id]
    arrives at the tenancy within [n] steps. *)
Fixpoint reaches (n : nat) (tenancyOcid : string) (parents : gmap string string)
    (id : string) : bool :=
  bool_decide (id = tenancyOcid)
  || match n with
     | O => false
     | S n' =>
         match parents !! id with
         | Some p => reaches n' tenancyOcid parents p
         | None => false
         end
     end.

Definition rooted (tenancyOcid : string) (parents : gmap string string) (id : string) : Prop :=
  exists n, reaches n tenancyOcid parents id = true.

(** The recorded compartments form a tree under the tenancy. *)
Definition is_tree (tenancyOcid : string) (parents : gmap string string) : Prop :=
  forall id, is_Some (parents !! id) -> rooted tenancyOcid parents id.

(** The full path of a compartment, as the hierarchy defines it. *)
Inductive full_name (tenancyOcid : string) (names parents : gmap string string)
  : string -> string -> Prop :=
| full_name_tenancy :
    full_name tenancyOcid names parents tenancyOcid
      (at_key names tenancyOcid +:+ tenancy_suffix)
| full_name_child id :
    id <> tenancyOcid ->
    parents !! id = Some tenancyOcid ->
    full_name tenancyOcid names parents id ("/" +:+ at_key names id)
| full_name_deeper id p s :
    id <> tenancyOcid ->
    parents !! id = Some p ->
    p <> tenancyOcid ->
    full_name tenancyOcid names parents p s ->
    full_name tenancyOcid names parents id (s +:+ "/" +:+ at_key names id).

(** What the resolution loop keeps true of [mapFromIdToFullCmptName]. *)
Record resolving (tenancyOcid : string) (names parents full : gmap string string) : Prop := {
  res_tenancy : is_Some (full !! tenancyOcid);
  res_known : forall id, is_Some (full !! id) -> id = tenancyOcid \/ is_Some (parents !! id);
  res_named : forall id s, full !! id = Some s -> full_name tenancyOcid names parents id s
}.
Arguments res_tenancy {_ _ _ _} _.
Arguments res_known {_ _ _ _} _ _ _.
Arguments res_named {_ _ _ _} _ _ _ _.

(** The world after [k] more [range] loops. *)
Definition ranged (k : nat) (w : World) : World :=
  {| o := o w; trace := trace w; wall := wall w; ranges := k + ranges w |}.

(** The request [getCompartments] sends for the cursor [page]. *)
Definition compartments_request (rootCompartment : string) (page : option string)
  : ListCompartmentsRequest :=
  {| LCR_CompartmentId := Some rootCompartment;
     LCR_Page := page;
     LCR_AccessLevel := ListCompartmentsAccessLevelAny;
     LCR_CompartmentIdInSubtree := Some true |}.

(** [listed cloud reg root page ps]: from the cursor [page] on, the
    compartment listing consists of the pages [ps], the last one without a
    cursor. *)
Inductive listed (cloud : Cloud) (reg rootCompartment : string)
  : option string -> list ListCompartmentsResponse -> Prop :=
| listed_last page p :
    ListCompartments cloud reg (compartments_request rootCompartment page) = (p, None) ->
    LCRes_OpcNextPage p = None ->
    listed cloud reg rootCompartment page [p]
| listed_next page p next ps :
    ListCompartments cloud reg (compartments_request rootCompartment page) = (p, None) ->
    LCRes_OpcNextPage p = Some next ->
    listed cloud reg rootCompartment (Some next) ps ->
    listed cloud reg rootCompartment page (p :: ps).

Fixpoint listing_requests (rootCompartment : string) (page : option string)
    (ps : list ListCompartmentsResponse) : list ListCompartmentsRequest :=
  match ps with
  | [] => []
  | p :: ps' =>
      compartments_request rootCompartment page
        :: listing_requests rootCompartment (LCRes_OpcNextPage p) ps'
  end.

(** An active compartment of the listing comes with its id, its name and
    its parent's id. *)
Definition well_formed (c : Compartment) : bool :=
  match Cmpt_LifecycleState c with
  | CompartmentLifecycleStateActive =>
      bool_decide (is_Some (Cmpt_Id c)) && bool_decide (is_Some (Cmpt_Name c))
      && bool_decide (is_Some (Cmpt_CompartmentId c))
  | _ => true
  end.

Definition is_active (c : Compartment) : bool :=
  match Cmpt_LifecycleState c with
  | CompartmentLifecycleStateActive => true
  | _ => false
  end.

(** What one item of the listing adds to the two maps. *)
Definition noted (maps : gmap string string * gmap string string) (c : Compartment)
  : gmap string string * gmap string string :=
  match Cmpt_LifecycleState c, Cmpt_Id c, Cmpt_Name c, Cmpt_CompartmentId c with
  | CompartmentLifecycleStateActive, Some id, Some name, Some parent =>
      (<[id := name]> maps.1, <[id := parent]> maps.2)
  | _, _, _, _ => maps
  end.

(** The maps from id to name and from id to parent id that a listing with
    the items [items] leaves, for the tenancy [tenancyOcid] named
    [tenancyName]. *)
Definition listing_maps (tenancyOcid tenancyName : string) (items : list Compartment)
  : gmap string string * gmap string string :=
  foldl noted (<[tenancyOcid := tenancyName]> ∅, <[tenancyOcid := ""]> ∅) items.

(** The world after the identity service was asked for the tenancy and for
    the pages of the listing. *)
Definition listed_world (region0 reg tenancyOcid : string)
    (reqs : list ListCompartmentsRequest) (k : nat) (w : World) : World :=
  {| o := {| metricsClient := metricsClient (o w);
             identityClient :=
               {| ic_provider := ic_provider (identityClient (o w)); ic_region := reg |};
             config := config (o w);
             nameToOCID := nameToOCID (o w); timeCacheUpdated := timeCacheUpdated (o w) |};
     trace := trace w ++ CallGetTenancy region0 tenancyOcid
                :: map (CallListCompartments reg) reqs;
     wall := wall w; ranges := k + ranges w |}.

(** The world in the middle of the listing: [reqs] were sent. *)
Definition asked (reg : string) (reqs : list ListCompartmentsRequest) (w : World) : World :=
  {| o := o w; trace := trace w ++ map (CallListCompartments reg) reqs;
     wall := wall w; ranges := ranges w |}.

(** A full path that begins with the character [/]. *)
Definition begins_with_slash (s : string) : Prop := exists rest, s = "/" +:+ rest.

(** ** The compartment cache *)

(** [steady w w']: from [w] to [w'] the cache and its time stamp stayed as
    they were, and the trace only grew. *)
Definition steady (w w' : World) : Prop :=
  nameToOCID (o w') = nameToOCID (o w)
  /\ timeCacheUpdated (o w') = timeCacheUpdated (o w)
  /\ exists calls, trace w' = trace w ++ calls.

(** The rows of the compartments table, in the order the cache is visited. *)
Definition compartment_rows (entries : list (string * string)) : list TableRow :=
  foldl (fun rows entry =>
           rows ++ [ {| Row_Values := [string_value entry.1; string_value entry.2] |} ])
        [] entries.

(** The datasource with its cache replaced. *)
Definition cached (m : gmap string string) (w : World) : World :=
  set_o (fun d =>
    {| metricsClient := metricsClient d; identityClient := identityClient d;
       config := config d; nameToOCID := m; timeCacheUpdated := timeCacheUpdated d |}) w.

(** The test of [compartmentsResponse]: the cache was never stamped, or the
    stamp is more than [cacheRefreshTime] old. *)
Definition stale (w : World) : bool :=
  IsZero (timeCacheUpdated (o w))
  || (cacheRefreshTime <? Sub (wall w) (timeCacheUpdated (o w)))%Z.

(** ** Series names *)

(** Go's order on strings: bytewise lexicographic. *)
Definition string_le (a b : string) : Prop := String.leb a b = true.

(** [strings.Join(l, sep)] *)
Fixpoint join (sep : string) (l : list string) : string :=
  match l with
  | [] => ""
  | [x] => x
  | x :: l' => x +:+ sep +:+ join sep l'
  end.

(** A list without the empty strings it begins with. *)
Fixpoint skip_empty (l : list string) : list string :=
  match l with
  | "" :: l' => skip_empty l'
  | _ => l
  end.

(** The series name after the first loop over the dimensions. *)
Definition named_after (entries : list (string * string)) (tName : string) : string :=
  foldl (fun tName entry =>
           if re_MatchString entry.1 then Sprintf_name tName entry.2 else tName)
        tName entries.

(** The second loop: [preDisplayName] over the sorted keys. *)
Definition preDisplayName_of (dimensions : gmap string string) (keys : list string) : string :=
  foldl (fun preDisplayName dimensionKey =>
           if String.eqb preDisplayName ""
           then at_key dimensions dimensionKey
           else preDisplayName +:+ ", " +:+ at_key dimensions dimensionKey)
        "" keys.

(** ** Requests and tables *)



(** The details [resourcegroupsResponse] asks with. *)
Definition resourcegroups_details (query : Query_) : ListMetricsDetails :=
  {| LMD_Name := None;
     LMD_Namespace := common_String (json_Namespace (Q_ModelJson query));
     LMD_ResourceGroup := None;
     LMD_GroupBy := ["resourceGroup"] |}.


(** The call [queryResponse] makes for one query. *)
Definition summarize_call (cloud : Cloud) (tsdbReq : DatasourceRequest) (query : Query_)
  : SummarizeMetricsDataResponse * option error :=
  SummarizeMetricsData cloud
    (StringToRegion cloud (json_Region (Q_ModelJson query)))
    (summarize_request tsdbReq (Unmarshal_OCI (Q_ModelJson query))).

(** ** What a request leaves alone *)

(** [preserves R m]: however [m] ends, the world it leaves is related by [R]
    to the world it started in. *)
Definition preserves {A} (R : World -> World -> Prop) (m : M A) : Prop :=
  forall w, R w (m w).2.

(** A call to one of the services or a log line: anything but the
    construction of a client. *)
Definition service_call (c : Call) : bool :=
  match c with
  | NewMonitoringClient _ | NewIdentityClient _ => false
  | _ => true
  end.

(** What the steps of a handler must respect for [R] to hold across it:
    [R] is a preorder that holds across setting the region of a client,
    across every call that [allowed] lets through, and across the start of
    a [range] loop. *)
Record framed (allowed : Call -> bool) (R : World -> World -> Prop) : Prop := {
  framed_refl : forall w, R w w;
  framed_trans : forall w1 w2 w3, R w1 w2 -> R w2 w3 -> R w1 w3;
  framed_metrics_region : forall region w, R w (metricsClient_SetRegion region w).2;
  framed_identity_region : forall region w, R w (identityClient_SetRegion region w).2;
  framed_call : forall c w, allowed c = true -> R w (record c w);
  framed_range : forall w, R w (next_range w)
}.

(** From [w] to [w'] the trace grew by calls that [allowed] lets through,
    and by nothing else. *)
Definition only (allowed : Call -> bool) (w w' : World) : Prop :=
  exists calls, trace w' = trace w ++ calls /\ forallb allowed calls = true.

(** The calls by their kind. *)
Definition is_ListMetrics (c : Call) : bool :=
  match c with CallListMetrics _ _ => true | _ => false end.

Definition is_SummarizeMetricsData (c : Call) : bool :=
  match c with CallSummarizeMetricsData _ _ => true | _ => false end.

Definition is_ListRegions (c : Call) : bool :=
  match c with CallListRegions _ => true | _ => false end.

(** What a refresh of the compartment cache may do: ask for the tenancy,
    list compartments, and log. *)
Definition of_refresh (c : Call) : bool :=
  match c with
  | CallGetTenancy _ _ | CallListCompartments _ _ | LogError _ => true
  | _ => false
  end.

Definition same_stamp (w w' : World) : Prop :=
  timeCacheUpdated (o w') = timeCacheUpdated (o w).

Definition same_cache (w w' : World) : Prop :=
  nameToOCID (o w') = nameToOCID (o w).

(** The configuration and the providers of the two clients stayed, and no
    client was constructed. *)
Definition same_clients (w w' : World) : Prop :=
  config (o w') = config (o w)
  /\ mc_provider (metricsClient (o w')) = mc_provider (metricsClient (o w))
  /\ ic_provider (identityClient (o w')) = ic_provider (identityClient (o w))
  /\ exists calls, trace w' = trace w ++ calls /\ forallb service_call calls = true.

(** The [switch] of [Query], for the query type [queryType]. *)
Definition route (cloud : Cloud) (rangeOrder : nat -> gmap string string -> list (string * string))
    (fuel : nat) (queryType : string) (tsdbReq : DatasourceRequest)
  : M (option DatasourceResponse) :=
  if bool_decide (queryType = "compartments") then
    nonnil (compartmentsResponse cloud rangeOrder fuel tsdbReq)
  else if bool_decide (queryType = "dimensions") then
    nonnil (dimensionResponse cloud rangeOrder fuel tsdbReq)
  else if bool_decide (queryType = "namespaces") then
    nonnil (namespaceResponse cloud fuel tsdbReq)
  else if bool_decide (queryType = "resourcegroups") then
    nonnil (resourcegroupsResponse cloud fuel tsdbReq)
  else if bool_decide (queryType = "regions") then
    nonnil (regionsResponse cloud tsdbReq)
  else if bool_decide (queryType = "search") then
    nonnil (searchResponse cloud fuel tsdbReq)
  else if bool_decide (queryType = "test") then
    testResponse cloud tsdbReq
  else
    nonnil (queryResponse cloud rangeOrder tsdbReq).

(** ** Listings that fail, and what the lookups ask for *)

(** [broken cloud reg c d page ps err]: from the cursor [page] on, the
    service answers with the pages [ps], each with a cursor to the next,
    and fails with [err] when asked for the page after them. *)
Inductive broken (cloud : Cloud) (reg compartment : string) (metricDetails : ListMetricsDetails)
  : option string -> list ListMetricsResponse -> error -> Prop :=
| broken_here page res err :
    ListMetrics cloud reg (list_request compartment metricDetails page) = (res, Some err) ->
    broken cloud reg compartment metricDetails page [] err
| broken_later page p next ps err :
    ListMetrics cloud reg (list_request compartment metricDetails page) = (p, None) ->
    LMRes_OpcNextPage p = Some next ->
    broken cloud reg compartment metricDetails (Some next) ps err ->
    broken cloud reg compartment metricDetails page (p :: ps) err.

(** The cursor in hand after the pages [ps], having started from [page]. *)
Definition cursor_after (page : option string) (ps : list ListMetricsResponse)
  : option string :=
  match last ps with
  | Some p => LMRes_OpcNextPage p
  | None => page
  end.

(** The listing for [metricDetails] ends with the pages [ps], and the page
    cap and the step budget let [searchHelper] fetch them all. *)
Definition fetched (cloud : Cloud) (fuel : nat) (region compartment : string)
    (metricDetails : ListMetricsDetails) (ps : list ListMetricsResponse) : Prop :=
  linked cloud (StringToRegion cloud region) compartment metricDetails None ps
  /\ LMRes_OpcNextPage (List.last ps no_page) = None
  /\ length ps <= 20
  /\ length ps <= fuel.

(** The world after the calls [calls]. *)
Definition called (calls : list Call) (w : World) : World :=
  {| o := o w; trace := trace w ++ calls; wall := wall w; ranges := ranges w |}.

(** The details [searchResponse] asks with. *)
Definition search_details (query : Query_) : ListMetricsDetails :=
  {| LMD_Name := None;
     LMD_Namespace := common_String (json_Namespace (Q_ModelJson query));
     LMD_ResourceGroup :=
       if bool_decide (json_ResourceGroup (Q_ModelJson query) ≠ "NoResourceGroup")
       then common_String (json_ResourceGroup (Q_ModelJson query)) else None;
     LMD_GroupBy := ["name"] |}.

(** The details [dimensionResponse] asks with. *)
Definition dimension_details (query : Query_) : ListMetricsDetails :=
  {| LMD_Name := common_String (json_metric (Q_ModelJson query));
     LMD_Namespace := common_String (json_Namespace (Q_ModelJson query));
     LMD_ResourceGroup :=
       if bool_decide (json_ResourceGroup (Q_ModelJson query) ≠ "NoResourceGroup")
       then common_String (json_ResourceGroup (Q_ModelJson query)) else None;
     LMD_GroupBy := [] |}.

(** The details [namespaceResponse] asks with. *)
Definition namespace_details : ListMetricsDetails :=
  {| LMD_Name := None; LMD_Namespace := None; LMD_ResourceGroup := None;
     LMD_GroupBy := ["namespace"] |}.

(** The details [testResponse] asks with: none. *)
Definition no_details : ListMetricsDetails :=
  {| LMD_Name := None; LMD_Namespace := None; LMD_ResourceGroup := None;
     LMD_GroupBy := [] |}.

(** The names of a list in the order in which each is first met. *)
Fixpoint first_seen (names : list string) : list string :=
  match names with
  | [] => []
  | name :: rest => name :: filter (fun other => other ≠ name) (first_seen rest)
  end.

(** The row of the dimensions table for one entry of a [Dimensions] map. *)
Definition dimension_row (entry : string * string) : TableRow :=
  text_row (entry.1 +:+ "=" +:+ entry.2).

(** ** Results of a metrics request *)

(** The point that [queryResponse] makes of a data point: the time stamp in
    milliseconds since the Unix epoch and the value; none when a pointer of
    the data point is nil. *)
Definition point_of (metric : AggregatedDatapoint) : option Point :=
  match ADP_Timestamp metric, ADP_Value metric with
  | Some ts, Some v => Some {| Point_Timestamp := UnixNano ts ÷ 1000000; Point_Value := v |}
  | _, _ => None
  end.

(** An item that comes with its name and whose data points come with time
    stamp and value. *)
Definition complete_item (item : MetricData) : bool :=
  bool_decide (is_Some (MD_Name item))
  && bool_decide (is_Some (mapM point_of (MD_AggregatedDatapoints item))).

(** The service answers the query without error and with complete items. *)
Definition answered (cloud : Cloud) (tsdbReq : DatasourceRequest) (query : Query_) : Prop :=
  (summarize_call cloud tsdbReq query).2 = None
  /\ forallb complete_item (SMRes_Items (summarize_call cloud tsdbReq query).1) = true.

(** The call [queryResponse] makes for one query, as the trace shows it. *)
Definition summarize_trace (cloud : Cloud) (tsdbReq : DatasourceRequest) (query : Query_)
  : Call :=
  CallSummarizeMetricsData
    (StringToRegion cloud (json_Region (Q_ModelJson query)))
    (summarize_request tsdbReq (Unmarshal_OCI (Q_ModelJson query))).

(** The result for [query] has the query's [RefId], no error and no table,
    and one series per item of the answer, whose points are the data points
    of the item, in order. *)
Definition result_of (cloud : Cloud) (tsdbReq : DatasourceRequest) (query : Query_)
    (res : QueryResult) : Prop :=
  QR_RefId res = Q_RefId query
  /\ QR_Error res = ""
  /\ QR_Tables res = []
  /\ Forall2 (fun item series =>
                mapM point_of (MD_AggregatedDatapoints item) = Some (TS_Points series))
       (SMRes_Items (summarize_call cloud tsdbReq query).1) (QR_Series res).

(** [, {v}] for each of the values, one after the other. *)
Definition braces (values : list string) : string :=
  foldr (fun v rest => ", {" +:+ v +:+ "}" +:+ rest) "" values.

(** The values of the entries whose key matches the pattern of
    [queryResponse]. *)
Definition matching (entries : list (string * string)) : list string :=
  (filter (fun entry => re_MatchString entry.1 = true) entries).*2.

(** ** The compartments table, and a datasource over time *)

(** The row of the compartments table for one entry of the cache. *)
Definition compartment_row (entry : string * string) : TableRow :=
  {| Row_Values := [string_value entry.1; string_value entry.2] |}.

(** The world when the wall clock shows [now]. *)
Definition at_time (now : Time) (w : World) : World :=
  {| o := o w; trace := trace w; wall := now; ranges := ranges w |}.

(** The world after the host has called [Query] with each of the
    [requests], one after the other, each at its own time. *)
Fixpoint served (cloud : Cloud) (rangeOrder : nat -> gmap string string -> list (string * string))
    (fuel : nat) (requests : list (Time * DatasourceRequest)) (w : World) : World :=
  match requests with
  | [] => w
  | (now, tsdbReq) :: rest =>
      served cloud rangeOrder fuel rest (Query cloud rangeOrder fuel tsdbReq (at_time now w)).2
  end.

(** The request [tsdbReq] with the queries [queries] in place of its own. *)
Definition with_queries (tsdbReq : DatasourceRequest) (queries : list Query_)
  : DatasourceRequest :=
  {| Req_TimeRange := Req_TimeRange tsdbReq; Req_Queries := queries |}.

(** An outcome that is a return: a result or an error. *)
Definition returned {A} (r : outcome A) : bool :=
  match r with
  | Ok _ | Failed _ => true
  | Panicked | Spinning => false
  end.

(** Every page of the compartment listing comes without error, with
    well-formed items, and with a cursor to a next page. *)
Definition endless_listing (cloud : Cloud) (reg rootCompartment : string) : Prop :=
  forall page, exists p next,
    ListCompartments cloud reg (compartments_request rootCompartment page) = (p, None)
    /\ LCRes_OpcNextPage p = Some next
    /\ forallb well_formed (LCRes_Items p) = true.

(** * Sample worlds *)

(** A cloud in which every call succeeds and every listing is empty; the
    tenancy is called [acme]. *)
Definition quiet_cloud : Cloud :=
  {| InstancePrincipal_err := None;
     ProviderRegion := fun _ => "iad";
     NewMonitoringClientWithConfigurationProvider := fun _ => None;
     NewIdentityClientWithConfigurationProvider := fun _ => None;
     StringToRegion := fun region => region;
     ListMetrics := fun _ _ => (no_page, None);
     SummarizeMetricsData := fun _ _ => ({| SMRes_Items := [] |}, None);
     GetTenancy := fun _ _ => ({| GTRes_Name := Some "acme" |}, None);
     ListCompartments :=
       fun _ _ => ({| LCRes_Items := []; LCRes_OpcNextPage := None |}, None);
     ListRegions := fun _ => ({| LRRes_Items := [] |}, None) |}.

Definition with_ListMetrics
    (f : string -> ListMetricsRequest -> ListMetricsResponse * option error)
    (c : Cloud) : Cloud :=
  {| InstancePrincipal_err := InstancePrincipal_err c;
     ProviderRegion := ProviderRegion c;
     NewMonitoringClientWithConfigurationProvider :=
       NewMonitoringClientWithConfigurationProvider c;
     NewIdentityClientWithConfigurationProvider :=
       NewIdentityClientWithConfigurationProvider c;
     StringToRegion := StringToRegion c;
     ListMetrics := f;
     SummarizeMetricsData := SummarizeMetricsData c;
     GetTenancy := GetTenancy c;
     ListCompartments := ListCompartments c;
     ListRegions := ListRegions c |}.

Definition with_SummarizeMetricsData
    (f : string -> SummarizeMetricsDataRequest
         -> SummarizeMetricsDataResponse * option error)
    (c : Cloud) : Cloud :=
  {| InstancePrincipal_err := InstancePrincipal_err c;
     ProviderRegion := ProviderRegion c;
     NewMonitoringClientWithConfigurationProvider :=
       NewMonitoringClientWithConfigurationProvider c;
     NewIdentityClientWithConfigurationProvider :=
       NewIdentityClientWithConfigurationProvider c;
     StringToRegion := StringToRegion c;
     ListMetrics := ListMetrics c;
     SummarizeMetricsData := f;
     GetTenancy := GetTenancy c;
     ListCompartments := ListCompartments c;
     ListRegions := ListRegions c |}.

Definition with_ListCompartments
    (f : string -> ListCompartmentsRequest -> ListCompartmentsResponse * option error)
    (c : Cloud) : Cloud :=
  {| InstancePrincipal_err := InstancePrincipal_err c;
     ProviderRegion := ProviderRegion c;
     NewMonitoringClientWithConfigurationProvider :=
       NewMonitoringClientWithConfigurationProvider c;
     NewIdentityClientWithConfigurationProvider :=
       NewIdentityClientWithConfigurationProvider c;
     StringToRegion := StringToRegion c;
     ListMetrics := ListMetrics c;
     SummarizeMetricsData := SummarizeMetricsData c;
     GetTenancy := GetTenancy c;
     ListCompartments := f;
     ListRegions := ListRegions c |}.

(** A runtime that visits every map in the order of [map_to_list]. *)
Definition listing_order (k : nat) (m : gmap string string) : list (string * string) :=
  map_to_list m.

(** A freshly constructed datasource, some time in 2019. *)
Definition fresh_world : World :=
  {| o := NewOCIDatasource; trace := []; wall := Unix 1560000000 0; ranges := 0 |}.

Definition sample_tenancy : string := "ocid1.tenancy.oc1..acme".

Definition compartment (id parent name : string) (state : CompartmentLifecycleState)
  : Compartment :=
  {| Cmpt_Id := Some id; Cmpt_CompartmentId := Some parent; Cmpt_Name := Some name;
     Cmpt_LifecycleState := state |}.

(** Two pages: [prod] and a deleted [old] under the tenancy, then [db]
    under [prod]. *)
Definition tree_listing (reg : string) (req : ListCompartmentsRequest)
  : ListCompartmentsResponse * option error :=
  match LCR_Page req with
  | None =>
      ({| LCRes_Items :=
            [ compartment "ocid1.compartment.db" "ocid1.compartment.prod" "db"
                CompartmentLifecycleStateActive;
              compartment "ocid1.compartment.old" sample_tenancy "old"
                CompartmentLifecycleStateDeleted ];
          LCRes_OpcNextPage := Some "page2" |}, None)
  | Some _ =>
      ({| LCRes_Items :=
            [ compartment "ocid1.compartment.prod" sample_tenancy "prod"
                CompartmentLifecycleStateActive ];
          LCRes_OpcNextPage := None |}, None)
  end.

Definition tree_cloud : Cloud := with_ListCompartments tree_listing quiet_cloud.

(** One active compartment whose parent is not in the listing. *)
Definition orphan_listing (reg : string) (req : ListCompartmentsRequest)
  : ListCompartmentsResponse * option error :=
  ({| LCRes_Items :=
        [ compartment "ocid1.compartment.lost" "ocid1.compartment.ghost" "lost"
            CompartmentLifecycleStateActive ];
      LCRes_OpcNextPage := None |}, None).

Definition orphan_cloud : Cloud := with_ListCompartments orphan_listing quiet_cloud.

(** Two active compartments of the same name under the tenancy. *)
Definition twin_listing (reg : string) (req : ListCompartmentsRequest)
  : ListCompartmentsResponse * option error :=
  ({| LCRes_Items :=
        [ compartment "ocid1.compartment.twin1" sample_tenancy "twin"
            CompartmentLifecycleStateActive;
          compartment "ocid1.compartment.twin2" sample_tenancy "twin"
            CompartmentLifecycleStateActive ];
      LCRes_OpcNextPage := None |}, None).

Definition twin_cloud : Cloud := with_ListCompartments twin_listing quiet_cloud.

Definition tree_pages : list ListCompartmentsResponse :=
  [ (tree_listing "phx" (compartments_request sample_tenancy None)).1;
    (tree_listing "phx" (compartments_request sample_tenancy (Some "page2"))).1 ].

Definition orphan_pages : list ListCompartmentsResponse :=
  [ (orphan_listing "phx" (compartments_request sample_tenancy None)).1 ].

Definition metric_named (name : string) : Metric :=
  {| Metric_Name := Some name; Metric_Namespace := Some "oci_computeagent";
     Metric_ResourceGroup := None; Metric_CompartmentId := None;
     Metric_Dimensions := ∅ |}.

(** A metric listing of [total] pages, endless when [total] is [None].  The
    cursor of a page is as many [x] as pages come before it; each page holds
    one metric, named after the cursor. *)
Definition paged_metrics (total : option nat) (reg : string) (req : ListMetricsRequest)
  : ListMetricsResponse * option error :=
  let cursor := default "" (LMR_Page req) in
  let last :=
    match total with
    | Some n => bool_decide (n <= S (String.length cursor))
    | None => false
    end in
  ({| LMRes_RawResponse := Some 200%Z;
      LMRes_Items := [metric_named ("m" +:+ cursor)];
      LMRes_OpcNextPage := if last then None else Some ("x" +:+ cursor) |}, None).

Definition paged_cloud (total : option nat) : Cloud :=
  with_ListMetrics (paged_metrics total) quiet_cloud.

Definition sample_details : ListMetricsDetails :=
  {| LMD_Name := None; LMD_Namespace := Some "oci_computeagent";
     LMD_ResourceGroup := None; LMD_GroupBy := ["name"] |}.

Definition sample_compartment : string := "ocid1.compartment.prod".

(** One query of each kind the samples need. *)
Definition model (queryType region : string) : ModelJson :=
  {| json_Compartment := sample_compartment;
     json_Environment := "local";
     json_QueryType := queryType;
     json_Region := region;
     json_tenancyOCID := sample_tenancy;
     json_Query := "CpuUtilization[1m].mean()";
     json_Resolution := "1m";
     json_Namespace := "oci_computeagent";
     json_ResourceGroup := "NoResourceGroup";
     json_metric := "CpuUtilization" |}.

Definition batch (queries : list Query_) : DatasourceRequest :=
  {| Req_TimeRange := {| FromEpochMs := 1560000000000%Z; ToEpochMs := 1560000600000%Z |};
     Req_Queries := queries |}.

Definition compartments_batch : DatasourceRequest :=
  batch [ {| Q_RefId := "A"; Q_ModelJson := model "compartments" "phx" |} ].

(** The world [d] nanoseconds later. *)
Definition later (d : Duration) (w : World) : World :=
  {| o := o w; trace := trace w; wall := (wall w + d)%Z; ranges := ranges w |}.

(** A datasource whose cache holds one entry and was stamped exactly one
    minute ago. *)
Definition minute_old_world : World :=
  {| o := {| metricsClient := {| mc_provider := Some DefaultConfigProvider; mc_region := "phx" |};
             identityClient := {| ic_provider := Some DefaultConfigProvider; ic_region := "phx" |};
             config := Some DefaultConfigProvider;
             nameToOCID := <["/stale" := "ocid1.compartment.stale"]> ∅;
             timeCacheUpdated := Unix 1560000000 0 |};
     trace := [];
     wall := (Unix 1560000000 0 + Minute)%Z;
     ranges := 0 |}.

Definition sample_item (dimensions : gmap string string) : MetricData :=
  {| MD_Name := Some "CpuUtilization";
     MD_Dimensions := dimensions;
     MD_AggregatedDatapoints :=
       [ {| ADP_Timestamp := Some (Unix 1560000060 0); ADP_Value := Some 4625196817309499392%N |} ] |}.

(** A metrics service that is throttled for the query [Bad[1m].mean()]
    and answers every other query with one item. *)
Definition flaky_summarize (reg : string) (req : SummarizeMetricsDataRequest)
  : SummarizeMetricsDataResponse * option error :=
  if bool_decide (SMD_Query (SMR_SummarizeMetricsDataDetails req) = Some "Bad[1m].mean()")
  then ({| SMRes_Items := [] |}, Some (sdk_failure "Service error:TooManyRequests"))
  else ({| SMRes_Items := [sample_item {[ "resourceDisplayName" := "vm1" ]}] |}, None).

Definition flaky_cloud : Cloud := with_SummarizeMetricsData flaky_summarize quiet_cloud.

Definition metrics_query (refId query : string) : Query_ :=
  {| Q_RefId := refId;
     Q_ModelJson :=
       {| json_Compartment := sample_compartment;
          json_Environment := "local";
          json_QueryType := "";
          json_Region := "phx";
          json_tenancyOCID := sample_tenancy;
          json_Query := query;
          json_Resolution := "1m";
          json_Namespace := "oci_computeagent";
          json_ResourceGroup := "NoResourceGroup";
          json_metric := "" |} |}.

(** A metric listing of one page with the resource groups [frontend] and
    [backend]. *)
Definition grouped_metrics (reg : string) (req : ListMetricsRequest)
  : ListMetricsResponse * option error :=
  ({| LMRes_RawResponse := Some 200%Z;
      LMRes_Items :=
        [ {| Metric_Name := None; Metric_Namespace := None;
             Metric_ResourceGroup := Some "frontend"; Metric_CompartmentId := None;
             Metric_Dimensions := ∅ |};
          {| Metric_Name := None; Metric_Namespace := None;
             Metric_ResourceGroup := Some "backend"; Metric_CompartmentId := None;
             Metric_Dimensions := ∅ |} ];
      LMRes_OpcNextPage := None |}, None).

Definition grouped_cloud : Cloud := with_ListMetrics grouped_metrics quiet_cloud.

Definition resourcegroups_query_A : Query_ :=
  {| Q_RefId := "A"; Q_ModelJson := model "resourcegroups" "phx" |}.

(** A query from an environment the plugin does not know. *)
Definition kubernetes_query : Query_ :=
  {| Q_RefId := "A";
     Q_ModelJson :=
       {| json_Compartment := sample_compartment;
          json_Environment := "kubernetes";
          json_QueryType := "search";
          json_Region := "phx";
          json_tenancyOCID := sample_tenancy;
          json_Query := "";
          json_Resolution := "";
          json_Namespace := "oci_computeagent";
          json_ResourceGroup := "";
          json_metric := "" |} |}.

(** A metric listing of one page with the names [A], [B], [A]. *)
Definition aba_metrics (reg : string) (req : ListMetricsRequest)
  : ListMetricsResponse * option error :=
  ({| LMRes_RawResponse := Some 200%Z;
      LMRes_Items := [metric_named "A"; metric_named "B"; metric_named "A"];
      LMRes_OpcNextPage := None |}, None).

Definition aba_cloud : Cloud := with_ListMetrics aba_metrics quiet_cloud.

Definition search_query_A : Query_ :=
  {| Q_RefId := "A"; Q_ModelJson := model "search" "phx" |}.

(** ** More sample worlds *)

(** One query of the type [queryType], from the local environment, for
    the region [phx]. *)
Definition lookup_query (queryType : string) : Query_ :=
  {| Q_RefId := "A"; Q_ModelJson := model queryType "phx" |}.

(** A cloud in which the identity client cannot be constructed. *)
Definition unreachable_identity : Cloud :=
  {| InstancePrincipal_err := None;
     ProviderRegion := ProviderRegion quiet_cloud;
     NewMonitoringClientWithConfigurationProvider := fun _ => None;
     NewIdentityClientWithConfigurationProvider :=
       fun _ => Some (errors_New "can not create client, bad configuration");
     StringToRegion := StringToRegion quiet_cloud;
     ListMetrics := ListMetrics quiet_cloud;
     SummarizeMetricsData := SummarizeMetricsData quiet_cloud;
     GetTenancy := GetTenancy quiet_cloud;
     ListCompartments := ListCompartments quiet_cloud;
     ListRegions := ListRegions quiet_cloud |}.

(** A metric listing whose second page cannot be had. *)
Definition torn_metrics (reg : string) (req : ListMetricsRequest)
  : ListMetricsResponse * option error :=
  if bool_decide (LMR_Page req = Some "x")
  then (no_page, Some (sdk_failure "Service error:InternalServerError"))
  else paged_metrics None reg req.

Definition torn_cloud : Cloud := with_ListMetrics torn_metrics quiet_cloud.

(** A metric listing of one page: two instances with their dimensions. *)
Definition instance_metric (id shape : string) : Metric :=
  {| Metric_Name := Some "CpuUtilization"; Metric_Namespace := Some "oci_computeagent";
     Metric_ResourceGroup := None; Metric_CompartmentId := None;
     Metric_Dimensions := <["resourceId" := id]> (<["shape" := shape]> ∅) |}.

Definition instance_metrics (reg : string) (req : ListMetricsRequest)
  : ListMetricsResponse * option error :=
  ({| LMRes_RawResponse := Some 200%Z;
      LMRes_Items := [ instance_metric "ocid1.instance.a" "VM.Standard2.1";
                       instance_metric "ocid1.instance.b" "VM.Standard2.1" ];
      LMRes_OpcNextPage := None |}, None).

Definition instance_cloud : Cloud := with_ListMetrics instance_metrics quiet_cloud.

(** A cloud with two regions. *)
Definition two_regions : Cloud :=
  {| InstancePrincipal_err := None;
     ProviderRegion := ProviderRegion quiet_cloud;
     NewMonitoringClientWithConfigurationProvider := fun _ => None;
     NewIdentityClientWithConfigurationProvider := fun _ => None;
     StringToRegion := StringToRegion quiet_cloud;
     ListMetrics := ListMetrics quiet_cloud;
     SummarizeMetricsData := SummarizeMetricsData quiet_cloud;
     GetTenancy := GetTenancy quiet_cloud;
     ListCompartments := ListCompartments quiet_cloud;
     ListRegions :=
       fun _ => ({| LRRes_Items := [ {| Region_Name := Some "us-ashburn-1" |};
                                      {| Region_Name := Some "us-phoenix-1" |} ] |}, None) |}.

(** A cloud in which the tenancy cannot be read. *)
Definition hidden_tenancy : Cloud :=
  {| InstancePrincipal_err := None;
     ProviderRegion := ProviderRegion quiet_cloud;
     NewMonitoringClientWithConfigurationProvider := fun _ => None;
     NewIdentityClientWithConfigurationProvider := fun _ => None;
     StringToRegion := StringToRegion quiet_cloud;
     ListMetrics := ListMetrics quiet_cloud;
     SummarizeMetricsData := SummarizeMetricsData quiet_cloud;
     GetTenancy :=
       fun _ _ => ({| GTRes_Name := None |},
                   Some (sdk_failure "Service error:NotAuthorizedOrNotFound"));
     ListCompartments := ListCompartments quiet_cloud;
     ListRegions := ListRegions quiet_cloud |}.

(** A compartment listing without end: every page is empty and has a
    cursor. *)
Definition circular_listing (reg : string) (req : ListCompartmentsRequest)
  : ListCompartmentsResponse * option error :=
  ({| LCRes_Items := []; LCRes_OpcNextPage := Some "again" |}, None).

Definition circular_cloud : Cloud := with_ListCompartments circular_listing quiet_cloud.

(** * Properties *)

Lemma wrap64_small (z : Z) : (- 2 ^ 63 <= z < 2 ^ 63)%Z -> wrap64 z = z.
Proof.
  intros H. unfold wrap64.
  rewrite Z.mod_small by lia. lia.
Qed.


(** ** [searchHelper] *)

Section Paging.
Variable cloud : Cloud.

Lemma searched_app reg reqs1 reqs2 w :
  searched reg reqs2 (searched reg reqs1 w) = searched reg (reqs1 ++ reqs2) w.
Proof.
  unfold searched; simpl. by rewrite map_app, app_assoc.
Qed.

(** One iteration of the loop of [searchHelper]. *)
Lemma searchHelper_loop_step fuel region compartment metricDetails items page pageNumber w :
  searchHelper_loop cloud (S fuel) region compartment metricDetails items page pageNumber w
  = let reg := StringToRegion cloud region in
    let req := list_request compartment metricDetails page in
    let w1 := searched reg [req] w in
    match ListMetrics cloud reg req with
    | (_, Some err) => (Failed (errors_Wrap err "list metrircs failed"), w1)
    | (res, None) =>
        if bool_decide (LMRes_OpcNextPage res = None) || (MAX_PAGES_TO_FETCH <=? pageNumber)%Z
        then (Ok (items ++ LMRes_Items res), w1)
        else searchHelper_loop cloud fuel region compartment metricDetails
               (items ++ LMRes_Items res) (LMRes_OpcNextPage res)
               (wrap64 (pageNumber + 1)) w1
    end.
Proof.
  cbn [searchHelper_loop]. unfold bind, metricsClient_SetRegion, metricsClient_ListMetrics, modify.
  cbn. unfold list_request.
  destruct (ListMetrics cloud _ _) as [res [e|]]; simpl; [done|].
  by destruct (bool_decide _ || _).
Qed.

Lemma searchHelper_loop_linked region compartment metricDetails ps :
  forall fuel items page pageNumber w,
    linked cloud (StringToRegion cloud region) compartment metricDetails page ps ->
    (0 <= pageNumber)%Z ->
    (pageNumber + Z.of_nat (length ps) <= MAX_PAGES_TO_FETCH + 1)%Z ->
    (LMRes_OpcNextPage (List.last ps no_page) = None
     \/ (pageNumber + Z.of_nat (length ps) = MAX_PAGES_TO_FETCH + 1)%Z) ->
    length ps <= fuel ->
    searchHelper_loop cloud fuel region compartment metricDetails items page pageNumber w
    = (Ok (items ++ concat (map LMRes_Items ps)),
       searched (StringToRegion cloud region)
         (page_requests compartment metricDetails page ps) w).
Proof.
  induction ps as [|p ps IH]; intros fuel items page pageNumber w Hl Hn Hle Hend Hf.
  - inversion Hl.
  - destruct fuel as [|fuel]; [simpl in Hf; lia|].
    rewrite searchHelper_loop_step. cbn zeta.
    unfold MAX_PAGES_TO_FETCH in *.
    inversion Hl as [page' p' Hcall | page' p' next ps' Hcall Hnext Hrest]; subst;
      rewrite Hcall.
    + cbn [map concat page_requests]. rewrite app_nil_r.
      destruct Hend as [Hend | Hend]; cbn in Hend.
      * by rewrite Hend.
      * assert (pageNumber = 20%Z) as -> by lia.
        by rewrite orb_true_r.
    + rewrite Hnext.
      assert (1 <= length ps) by (inversion Hrest; simpl; lia).
      cbn [length] in Hle, Hf, Hend.
      replace (20 <=? pageNumber)%Z with false by (symmetry; apply Z.leb_gt; lia).
      cbn [bool_decide orb]. rewrite bool_decide_eq_false_2 by done. cbn [orb].
      rewrite wrap64_small by lia.
      rewrite IH; [| done | lia | lia | | lia].
      * cbn [map concat page_requests]. rewrite Hnext, <- app_assoc.
        by rewrite (searched_app _ [_]).
      * destruct Hend as [Hend|Hend]; [left|right; lia].
        destruct ps; [inversion Hrest|]. exact Hend.
Qed.



End Paging.


Lemma linkedb_linked cloud reg compartment metricDetails n : forall page,
  linkedb cloud reg compartment metricDetails n page = true ->
  linked cloud reg compartment metricDetails page
    (follow cloud reg compartment metricDetails n page).
Proof.
  induction n as [|n IH]; intros page Hb; [done|].
  cbn [linkedb] in Hb. apply andb_true_iff in Hb as [Herr Hrest].
  apply bool_decide_eq_true in Herr. cbn [follow].
  destruct (ListMetrics cloud reg (list_request compartment metricDetails page))
    as [p e] eqn:Hcall.
  cbn [fst snd] in *. subst e.
  destruct n as [|n].
  - by apply linked_last.
  - apply andb_true_iff in Hrest as [Hnext Hrest].
    apply bool_decide_eq_true in Hnext as [next Hnext].
    eapply linked_next; [done|done|]. rewrite <- Hnext. by apply IH.
Qed.

Section PageCap.
Variable cloud : Cloud.

(** A listing that ends within the page cap is fetched whole. *)
Lemma searchHelper_pages fuel region compartment metricDetails w ps :
  linked cloud (StringToRegion cloud region) compartment metricDetails None ps ->
  LMRes_OpcNextPage (List.last ps no_page) = None ->
  (Z.of_nat (length ps) <= MAX_PAGES_TO_FETCH + 1)%Z ->
  length ps <= fuel ->
  searchHelper cloud fuel region compartment metricDetails w
  = (Ok (concat (map LMRes_Items ps)),
     searched (StringToRegion cloud region)
       (page_requests compartment metricDetails None ps) w).
Proof.
  intros Hl Hlast Hcap Hfuel. unfold searchHelper.
  rewrite (searchHelper_loop_linked cloud region compartment metricDetails ps);
    [done|done|lia|lia|by left|done].
Qed.


End PageCap.




(** ** The resolution loop of [getCompartments] *)

Lemma reaches_tenancy n tenancyOcid parents :
  reaches n tenancyOcid parents tenancyOcid = true.
Proof. destruct n; cbn; by rewrite bool_decide_eq_true_2. Qed.

Lemma reaches_parent n tenancyOcid (parents : gmap string string) id p :
  parents !! id = Some p ->
  reaches n tenancyOcid parents p = true ->
  reaches (S n) tenancyOcid parents id = true.
Proof. intros Hp Hn. cbn. rewrite Hp, Hn. apply orb_true_r. Qed.

Section Resolve.
Variables (tenancyOcid : string) (names parents : gmap string string).


Lemma resolve_entry_mono full e : full ⊆ resolve_entry tenancyOcid names full e.
Proof.
  unfold resolve_entry; cbn zeta. destruct (full !! e.1) eqn:He; [done|].
  case_bool_decide.
  - by apply insert_subseteq.
  - destruct (full !! e.2); [by apply insert_subseteq | done].
Qed.

Lemma resolve_pass_mono entries : forall full, full ⊆ resolve_pass tenancyOcid names full entries.
Proof.
  induction entries as [|e entries IH]; intros full; [done|].
  unfold resolve_pass in *. cbn [foldl].
  etrans; [apply resolve_entry_mono | apply IH].
Qed.

Lemma resolve_entry_resolving full e :
  parents !! e.1 = Some e.2 ->
  resolving tenancyOcid names parents full ->
  resolving tenancyOcid names parents (resolve_entry tenancyOcid names full e).
Proof.
  intros He [Ht Hk Hn]. unfold resolve_entry; cbn zeta.
  destruct (full !! e.1) eqn:Hfull; [by split|].
  assert (e.1 <> tenancyOcid) as Hne.
  { intros Heq. rewrite Heq in Hfull. rewrite Hfull in Ht. by destruct Ht. }
  case_bool_decide as Hp.
  - split.
    + rewrite lookup_insert_ne by done. done.
    + intros id. destruct (decide (id = e.1)) as [->|Hid].
      * right. by rewrite He.
      * rewrite lookup_insert_ne by done. apply Hk.
    + intros id s. destruct (decide (id = e.1)) as [->|Hid].
      * rewrite lookup_insert_eq. intros [= <-]. apply full_name_child; [done|].
        by rewrite He, Hp.
      * rewrite lookup_insert_ne by done. apply Hn.
  - destruct (full !! e.2) as [sp|] eqn:Hparent; [|by split].
    split.
    + rewrite lookup_insert_ne by done. done.
    + intros id. destruct (decide (id = e.1)) as [->|Hid].
      * right. by rewrite He.
      * rewrite lookup_insert_ne by done. apply Hk.
    + intros id s. destruct (decide (id = e.1)) as [->|Hid].
      * rewrite lookup_insert_eq. intros [= <-].
        eapply full_name_deeper; eauto.
      * rewrite lookup_insert_ne by done. apply Hn.
Qed.

Lemma resolve_pass_resolving entries :
  Forall (fun e => parents !! e.1 = Some e.2) entries ->
  forall full, resolving tenancyOcid names parents full -> resolving tenancyOcid names parents (resolve_pass tenancyOcid names full entries).
Proof.
  induction 1 as [|e entries He _ IH]; intros full Hfull; [done|].
  unfold resolve_pass in *. cbn [foldl].
  apply IH. by apply resolve_entry_resolving.
Qed.

(** An entry whose parent is the tenancy or already resolved is resolved
    when the pass reaches it. *)
Lemma resolve_entry_ready (full : gmap string string) e :
  e.2 = tenancyOcid \/ is_Some (full !! e.2) ->
  is_Some (resolve_entry tenancyOcid names full e !! e.1).
Proof.
  intros Hready. unfold resolve_entry; cbn zeta.
  destruct (full !! e.1) eqn:Hfull; [by rewrite Hfull|].
  case_bool_decide as Hp.
  - rewrite lookup_insert_eq. done.
  - destruct Hready as [?|[sp Hsp]]; [done|].
    rewrite Hsp. rewrite lookup_insert_eq. done.
Qed.

Lemma resolve_pass_ready entries e (full : gmap string string) :
  e ∈ entries ->
  e.2 = tenancyOcid \/ is_Some (full !! e.2) ->
  is_Some (resolve_pass tenancyOcid names full entries !! e.1).
Proof.
  intros Hin. revert full.
  induction entries as [|e' entries IH]; intros full Hready.
  - by apply elem_of_nil in Hin.
  - unfold resolve_pass in *. cbn [foldl].
    apply elem_of_cons in Hin as [<-|Hin].
    + destruct (resolve_entry_ready full e Hready) as [s Hs].
      exists s. eapply lookup_weaken; [exact Hs|]. apply resolve_pass_mono.
    + apply IH; [done|].
      destruct Hready as [?|[sp Hsp]]; [by left|right].
      exists sp. eapply lookup_weaken; [exact Hsp|]. apply resolve_entry_mono.
Qed.

(** In a tree, an unresolved entry leads (upwards) to an unresolved entry
    that is ready. *)
Lemma unresolved_has_ready (full : gmap string string) n :
  is_Some (full !! tenancyOcid) ->
  forall id,
    reaches n tenancyOcid parents id = true ->
    full !! id = None ->
    exists u p, parents !! u = Some p /\ full !! u = None
                /\ (p = tenancyOcid \/ is_Some (full !! p)).
Proof.
  intros Ht. induction n as [|n IH]; intros id Hreach Hnone; cbn in Hreach.
  - rewrite orb_false_r in Hreach. apply bool_decide_eq_true in Hreach as ->.
    rewrite Hnone in Ht. by destruct Ht.
  - apply orb_true_iff in Hreach as [Hreach|Hreach].
    + apply bool_decide_eq_true in Hreach as ->.
      rewrite Hnone in Ht. by destruct Ht.
    + destruct (parents !! id) as [p|] eqn:Hp; [|done].
      destruct (full !! p) as [sp|] eqn:Hfp.
      * exists id, p. split; [done|]. split; [done|]. right. by exists sp.
      * by apply (IH p).
Qed.

Lemma resolve_pass_progress (full : gmap string string) entries :
  entries ≡ₚ map_to_list parents ->
  is_tree tenancyOcid parents ->
  resolving tenancyOcid names parents full ->
  dom names = dom parents ->
  size full < size names ->
  size full < size (resolve_pass tenancyOcid names full entries).
Proof.
  intros Hperm Htree Hres Hdom Hlt.
  assert (exists id, is_Some (parents !! id) /\ full !! id = None) as (id & Hid & Hnone).
  { destruct (set_choose_or_empty (dom parents ∖ dom full)) as [[id Hin]|Hempty].
    - apply elem_of_difference in Hin as [Hin Hnin].
      exists id. split; [by apply elem_of_dom|by apply not_elem_of_dom].
    - assert (dom parents ⊆ dom full) as Hsub by (clear -Hempty; set_solver).
      apply subseteq_size in Hsub. rewrite <- Hdom, !size_dom in Hsub. lia. }
  destruct (Htree id Hid) as [n Hn].
  destruct (unresolved_has_ready full n (res_tenancy Hres) id Hn Hnone)
    as (u & p & Hup & Hu & Hready).
  assert ((u, p) ∈ entries) as Hin.
  { rewrite Hperm. by apply elem_of_map_to_list. }
  pose proof (resolve_pass_ready entries (u, p) full Hin Hready) as Hdone.
  pose proof (resolve_pass_mono entries full) as Hmono.
  rewrite <- !size_dom.
  apply subset_size. split.
  - by apply subseteq_dom.
  - intros Hsub. cbn in Hdone. apply elem_of_dom in Hdone. apply Hsub in Hdone.
    apply elem_of_dom in Hdone. rewrite Hu in Hdone. by destruct Hdone.
Qed.

Lemma full_name_rooted id s :
  full_name tenancyOcid names parents id s -> rooted tenancyOcid parents id.
Proof.
  induction 1 as [|id Hne Hp|id p s Hne Hp Hpne _ [n IH]].
  - exists 0. apply reaches_tenancy.
  - exists 1. eapply reaches_parent; [exact Hp | apply reaches_tenancy].
  - exists (S n). eapply reaches_parent; eauto.
Qed.

Lemma resolving_dom (full : gmap string string) :
  is_Some (parents !! tenancyOcid) -> resolving tenancyOcid names parents full -> dom full ⊆ dom parents.
Proof.
  intros Ht Hres id Hid. apply elem_of_dom in Hid.
  apply elem_of_dom. destruct (res_known Hres id Hid) as [->|?]; done.
Qed.
End Resolve.

Section ResolveLoop.
Variable rangeOrder : nat -> gmap string string -> list (string * string).
Hypothesis rangeOrder_perm : forall k m, rangeOrder k m ≡ₚ map_to_list m.
Variables (tenancyOcid : string) (names parents : gmap string string).
Hypothesis names_parents : dom names = dom parents.
Hypothesis tenancy_listed : is_Some (parents !! tenancyOcid).

Lemma range_entries k (m : gmap string string) :
  Forall (fun e => m !! e.1 = Some e.2) (rangeOrder k m).
Proof.
  apply Forall_forall. intros [i x] Hin. rewrite rangeOrder_perm in Hin.
  by apply elem_of_map_to_list in Hin.
Qed.

Lemma resolve_loop_step fuel (full : gmap string string) w :
  resolve_loop rangeOrder (S fuel) tenancyOcid names parents full w
  = if size full <? size names
    then resolve_loop rangeOrder fuel tenancyOcid names parents
           (resolve_pass tenancyOcid names full (rangeOrder (ranges w) parents))
           (ranged 1 w)
    else (Ok full, w).
Proof. cbn [resolve_loop]. by destruct (size full <? size names). Qed.

(** On a tree the loop ends, having resolved every entry. *)
Lemma resolve_loop_tree fuel : forall (full : gmap string string) w,
  is_tree tenancyOcid parents ->
  resolving tenancyOcid names parents full ->
  size names - size full < fuel ->
  exists full' k,
    resolve_loop rangeOrder fuel tenancyOcid names parents full w = (Ok full', ranged k w)
    /\ k <= size names - size full
    /\ resolving tenancyOcid names parents full'
    /\ dom full' = dom parents.
Proof.
  induction fuel as [|fuel IH]; intros full w Htree Hres Hfuel; [lia|].
  rewrite resolve_loop_step.
  destruct (size full <? size names) eqn:Hlt.
  - apply Nat.ltb_lt in Hlt.
    pose proof (resolve_pass_progress tenancyOcid names parents full
                  (rangeOrder (ranges w) parents) (rangeOrder_perm _ _) Htree Hres
                  names_parents Hlt) as Hprog.
    pose proof (resolve_pass_resolving tenancyOcid names parents _
                  (range_entries (ranges w) parents) full Hres) as Hres'.
    destruct (IH _ (ranged 1 w) Htree Hres') as (full' & k & Hrun & Hk & Hres'' & Hdom); [lia|].
    exists full', (S k). split_and!; [|lia|done|done].
    rewrite Hrun. f_equal. unfold ranged. cbn. f_equal. lia.
  - apply Nat.ltb_ge in Hlt.
    exists full, 0. split_and!; [by destruct w|lia|done|].
    apply set_subseteq_size_eq.
    + by apply (resolving_dom tenancyOcid names).
    + rewrite <- names_parents, !size_dom. done.
Qed.

(** With an entry whose parent chain misses the tenancy, the loop never ends. *)
Lemma resolve_loop_stuck fuel lost : forall (full : gmap string string) w,
  is_Some (parents !! lost) ->
  ~ rooted tenancyOcid parents lost ->
  resolving tenancyOcid names parents full ->
  exists k, resolve_loop rangeOrder fuel tenancyOcid names parents full w
            = (Spinning, ranged k w).
Proof.
  induction fuel as [|fuel IH]; intros full w Hlost Hnot Hres.
  - exists 0. by destruct w.
  - rewrite resolve_loop_step.
    assert (size full < size names) as Hlt.
    { rewrite <- !size_dom, names_parents. apply subset_size. split.
      - by apply (resolving_dom tenancyOcid names).
      - intros Hsub. apply elem_of_dom in Hlost. apply Hsub in Hlost.
        apply elem_of_dom in Hlost as [s Hs]. apply Hnot.
        eapply full_name_rooted, res_named; eauto. }
    apply Nat.ltb_lt in Hlt. rewrite Hlt.
    pose proof (resolve_pass_resolving tenancyOcid names parents _
                  (range_entries (ranges w) parents) full Hres) as Hres'.
    destruct (IH _ (ranged 1 w) Hlost Hnot Hres') as [k Hk].
    exists (S k). rewrite Hk. f_equal. unfold ranged. cbn. f_equal. lia.
Qed.
End ResolveLoop.

(** ** The listing phase of [getCompartments] *)

Lemma well_formed_active c :
  well_formed c = true -> is_active c = true ->
  exists id name parent,
    Cmpt_Id c = Some id /\ Cmpt_Name c = Some name /\ Cmpt_CompartmentId c = Some parent.
Proof.
  unfold well_formed, is_active. destruct (Cmpt_LifecycleState c); try done.
  intros Hwf _. apply andb_true_iff in Hwf as [Hwf Hparent].
  apply andb_true_iff in Hwf as [Hid Hname].
  apply bool_decide_eq_true in Hid as [id Hid].
  apply bool_decide_eq_true in Hname as [name Hname].
  apply bool_decide_eq_true in Hparent as [parent Hparent].
  by exists id, name, parent.
Qed.

Section Listing.
Variable cloud : Cloud.

Lemma note_compartment_noted maps c w :
  well_formed c = true -> note_compartment maps c w = (Ok (noted maps c), w).
Proof.
  unfold well_formed, note_compartment, noted.
  destruct (Cmpt_LifecycleState c); try done.
  destruct (Cmpt_Id c), (Cmpt_Name c), (Cmpt_CompartmentId c); cbn; try done;
    rewrite ?andb_false_r; try done.
  all: intros H; exfalso; revert H; rewrite ?andb_true_iff, ?bool_decide_eq_true;
    intros H; destruct_and?; by repeat match goal with H : is_Some None |- _ => destruct H end.
Qed.

Lemma forM_note_compartment items : forall maps w,
  forallb well_formed items = true ->
  forM items maps note_compartment w = (Ok (foldl noted maps items), w).
Proof.
  induction items as [|c items IH]; intros maps w Hwf; [done|].
  cbn in Hwf. apply andb_true_iff in Hwf as [Hc Hwf].
  cbn [forM foldl]. unfold bind. rewrite note_compartment_noted by done.
  by apply IH.
Qed.

Lemma listCompartments_loop_listed rootCompartment ps : forall fuel page maps w,
  listed cloud (ic_region (identityClient (o w))) rootCompartment page ps ->
  forallb well_formed (concat (map LCRes_Items ps)) = true ->
  length ps <= fuel ->
  listCompartments_loop cloud fuel rootCompartment page maps w
  = (Ok (foldl noted maps (concat (map LCRes_Items ps))),
     asked (ic_region (identityClient (o w))) (listing_requests rootCompartment page ps) w).
Proof.
  induction ps as [|p ps IH]; intros fuel page maps w Hl Hwf Hf; [inversion Hl|].
  destruct fuel as [|fuel]; [cbn in Hf; lia|].
  cbn [map concat] in Hwf. rewrite forallb_app in Hwf. apply andb_true_iff in Hwf as [Hp Hwf].
  cbn [listCompartments_loop]. unfold bind at 1. unfold identityClient_ListCompartments.
  fold (compartments_request rootCompartment page).
  inversion Hl as [page' p' Hcall Hnone | page' p' next ps' Hcall Hnext Hrest]; subst;
    rewrite Hcall; cbn [fst snd]; unfold bind;
    rewrite forM_note_compartment by done.
  - rewrite Hnone. cbn [map concat listing_requests foldl]. by rewrite app_nil_r.
  - rewrite Hnext.
    rewrite IH; [| done | done | cbn in Hf; lia].
    cbn [map concat listing_requests]. rewrite foldl_app, Hnext. f_equal.
    unfold asked, record; cbn. by rewrite <- app_assoc.
Qed.
End Listing.

Lemma noted_dom maps c : dom maps.1 = dom maps.2 -> dom (noted maps c).1 = dom (noted maps c).2.
Proof.
  intros Hdom. unfold noted.
  destruct (Cmpt_LifecycleState c); try done.
  destruct (Cmpt_Id c), (Cmpt_Name c), (Cmpt_CompartmentId c); try done.
  cbn. by rewrite !dom_insert_L, Hdom.
Qed.

Lemma foldl_noted_dom items : forall maps,
  dom maps.1 = dom maps.2 ->
  dom (foldl noted maps items).1 = dom (foldl noted maps items).2.
Proof.
  induction items as [|c items IH]; intros maps Hdom; [done|].
  cbn [foldl]. by apply IH, noted_dom.
Qed.

Lemma noted_keeps maps c id :
  is_Some (maps.2 !! id) -> is_Some ((noted maps c).2 !! id).
Proof.
  intros Hid. unfold noted.
  destruct (Cmpt_LifecycleState c); try done.
  destruct (Cmpt_Id c) as [id'|], (Cmpt_Name c), (Cmpt_CompartmentId c); try done.
  cbn. destruct (decide (id' = id)) as [->|Hne].
  - by rewrite lookup_insert_eq.
  - by rewrite lookup_insert_ne.
Qed.

Lemma foldl_noted_keeps items : forall maps id,
  is_Some (maps.2 !! id) -> is_Some ((foldl noted maps items).2 !! id).
Proof.
  induction items as [|c items IH]; intros maps id Hid; [done|].
  cbn [foldl]. by apply IH, noted_keeps.
Qed.

(** The ids recorded are those the maps started with and the ids of the
    active items. *)
Lemma foldl_noted_listed items : forall maps id,
  is_Some ((foldl noted maps items).2 !! id) ->
  is_Some (maps.2 !! id)
  \/ exists c, c ∈ items /\ is_active c = true /\ Cmpt_Id c = Some id.
Proof.
  induction items as [|c items IH]; intros maps id Hid; [by left|].
  cbn [foldl] in Hid. destruct (IH _ _ Hid) as [Hhere|(c' & Hin & Hact & Hc')].
  - unfold noted, is_active in *.
    destruct (Cmpt_LifecycleState c) eqn:Hstate; try by left.
    destruct (Cmpt_Id c) as [id'|] eqn:Hidc, (Cmpt_Name c), (Cmpt_CompartmentId c);
      try by left.
    cbn in Hhere. destruct (decide (id' = id)) as [->|Hne].
    + right. exists c. rewrite Hstate. split_and!; [apply list_elem_of_here|done|done].
    + rewrite lookup_insert_ne in Hhere by done. by left.
  - right. exists c'. split_and!; [by apply list_elem_of_further|done|done].
Qed.

Lemma foldl_noted_active items c id : forall maps,
  forallb well_formed items = true ->
  c ∈ items -> is_active c = true -> Cmpt_Id c = Some id ->
  is_Some ((foldl noted maps items).2 !! id).
Proof.
  induction items as [|c' items IH]; intros maps Hwf Hin Hact Hid.
  - by apply elem_of_nil in Hin.
  - cbn in Hwf. apply andb_true_iff in Hwf as [Hc Hwf].
    cbn [foldl]. apply elem_of_cons in Hin as [<-|Hin]; [|by apply IH].
    apply foldl_noted_keeps.
    destruct (well_formed_active c Hc Hact) as (id' & name & parent & Hid' & Hname & Hparent).
    unfold noted, is_active in *.
    destruct (Cmpt_LifecycleState c); try done.
    rewrite Hid', Hname, Hparent. cbn.
    assert (id' = id) as -> by congruence.
    by rewrite lookup_insert_eq.
Qed.

Lemma listing_maps_dom tenancyOcid tenancyName items :
  dom (listing_maps tenancyOcid tenancyName items).1
  = dom (listing_maps tenancyOcid tenancyName items).2.
Proof. apply foldl_noted_dom. cbn. by rewrite !dom_insert_L. Qed.

Lemma listing_maps_tenancy tenancyOcid tenancyName items :
  is_Some ((listing_maps tenancyOcid tenancyName items).2 !! tenancyOcid).
Proof. apply foldl_noted_keeps. cbn. by rewrite lookup_insert_eq. Qed.

Lemma listing_maps_listed tenancyOcid tenancyName items id :
  is_Some ((listing_maps tenancyOcid tenancyName items).2 !! id) ->
  id = tenancyOcid \/ exists c, c ∈ items /\ is_active c = true /\ Cmpt_Id c = Some id.
Proof.
  intros Hid. apply foldl_noted_listed in Hid as [Hid|?]; [left|by right].
  cbn in Hid. destruct (decide (tenancyOcid = id)) as [->|Hne]; [done|].
  rewrite lookup_insert_ne in Hid by done. by destruct Hid.
Qed.

(** ** Inverting the map of full names *)

Lemma invert_acc_keeps entries : forall (acc : gmap string string) s,
  is_Some (acc !! s) ->
  is_Some (foldl (fun m entry => <[entry.2 := entry.1]> m) acc entries !! s).
Proof.
  induction entries as [|e entries IH]; intros acc s Hs; [done|].
  cbn [foldl]. apply IH. destruct (decide (e.2 = s)) as [->|Hne].
  - by rewrite lookup_insert_eq.
  - by rewrite lookup_insert_ne.
Qed.

Lemma invert_acc_key entries : forall (acc : gmap string string) e,
  e ∈ entries ->
  is_Some (foldl (fun m entry => <[entry.2 := entry.1]> m) acc entries !! e.2).
Proof.
  induction entries as [|e' entries IH]; intros acc e Hin.
  - by apply elem_of_nil in Hin.
  - cbn [foldl]. apply elem_of_cons in Hin as [->|Hin]; [|by apply IH].
    apply invert_acc_keeps. by rewrite lookup_insert_eq.
Qed.

Lemma invert_acc_lookup entries : forall (acc : gmap string string) s id,
  foldl (fun m entry => <[entry.2 := entry.1]> m) acc entries !! s = Some id ->
  acc !! s = Some id \/ (id, s) ∈ entries.
Proof.
  induction entries as [|e entries IH]; intros acc s id Hs; [by left|].
  cbn [foldl] in Hs. destruct (IH _ _ _ Hs) as [Hacc|Hin].
  - destruct (decide (e.2 = s)) as [<-|Hne].
    + rewrite lookup_insert_eq in Hacc. injection Hacc as <-.
      right. destruct e. apply list_elem_of_here.
    + rewrite lookup_insert_ne in Hacc by done. by left.
  - right. by apply list_elem_of_further.
Qed.

Lemma invert_acc_distinct entries : forall (acc : gmap string string) e,
  NoDup entries.*2 ->
  e ∈ entries ->
  foldl (fun m entry => <[entry.2 := entry.1]> m) acc entries !! e.2 = Some e.1.
Proof.
  induction entries as [|e' entries IH]; intros acc e Hnd Hin.
  - by apply elem_of_nil in Hin.
  - cbn [fmap list_fmap] in Hnd. apply NoDup_cons in Hnd as [Hfresh Hnd].
    cbn [foldl]. apply elem_of_cons in Hin as [->|Hin]; [|by apply IH].
    destruct (foldl (fun m entry => <[entry.2 := entry.1]> m) (<[e'.2 := e'.1]> acc) entries
                !! e'.2) as [id|] eqn:Hlook.
    + apply invert_acc_lookup in Hlook as [Hacc|Hin].
      * by rewrite lookup_insert_eq in Hacc.
      * exfalso. apply Hfresh. apply list_elem_of_fmap. by exists (id, e'.2).
    + pose proof (invert_acc_keeps entries (<[e'.2 := e'.1]> acc) e'.2) as Hk.
      rewrite Hlook in Hk. destruct Hk; [by rewrite lookup_insert_eq|done].
Qed.

Lemma invert_acc_size entries : forall (acc : gmap string string),
  NoDup entries.*2 ->
  (forall e, e ∈ entries -> acc !! e.2 = None) ->
  size (foldl (fun m entry => <[entry.2 := entry.1]> m) acc entries)
  = size acc + length entries.
Proof.
  induction entries as [|e entries IH]; intros acc Hnd Hfresh; [cbn; lia|].
  cbn [fmap list_fmap] in Hnd. apply NoDup_cons in Hnd as [Hnew Hnd].
  cbn [foldl length]. rewrite IH; [|done|].
  - rewrite map_size_insert_None; [lia|]. apply Hfresh, list_elem_of_here.
  - intros e' He'. destruct (decide (e.2 = e'.2)) as [Heq|Hne].
    + exfalso. apply Hnew. rewrite Heq. apply list_elem_of_fmap. by exists e'.
    + rewrite lookup_insert_ne by done. by apply Hfresh, list_elem_of_further.
Qed.

Section GetCompartments.
Variable cloud : Cloud.
Variable rangeOrder : nat -> gmap string string -> list (string * string).

Lemma resolving_init tenancyOcid names parents :
  resolving tenancyOcid names parents
    (<[tenancyOcid := at_key names tenancyOcid +:+ tenancy_suffix]> ∅).
Proof.
  split.
  - by rewrite lookup_insert_eq.
  - intros id [s Hs]. left.
    destruct (decide (tenancyOcid = id)) as [->|Hne]; [done|].
    by rewrite lookup_insert_ne in Hs.
  - intros id s Hs. destruct (decide (tenancyOcid = id)) as [<-|Hne].
    + rewrite lookup_insert_eq in Hs. injection Hs as <-. constructor.
    + by rewrite lookup_insert_ne in Hs.
Qed.

(** [getCompartments] up to its resolution loop, on a listing that ends. *)
Lemma getCompartments_listed fuel region rootCompartment w tenancyName pages :
  GetTenancy cloud (ic_region (identityClient (o w))) rootCompartment
    = ({| GTRes_Name := Some tenancyName |}, None) ->
  listed cloud (StringToRegion cloud region) rootCompartment None pages ->
  forallb well_formed (concat (map LCRes_Items pages)) = true ->
  length pages <= fuel ->
  getCompartments cloud rangeOrder fuel region rootCompartment w
  = let maps := listing_maps rootCompartment tenancyName (concat (map LCRes_Items pages)) in
    let w1 := listed_world (ic_region (identityClient (o w))) (StringToRegion cloud region)
                rootCompartment (listing_requests rootCompartment None pages) 0 w in
    match resolve_loop rangeOrder fuel rootCompartment maps.1 maps.2
            (<[rootCompartment := at_key maps.1 rootCompartment +:+ tenancy_suffix]> ∅) w1 with
    | (Ok full, w2) => (Ok (invert (rangeOrder (ranges w2) full)), next_range w2)
    | (Failed e, w2) => (Failed e, w2)
    | (Panicked, w2) => (Panicked, w2)
    | (Spinning, w2) => (Spinning, w2)
    end.
Proof.
  intros Htenancy Hlisted Hwf Hfuel.
  unfold getCompartments. unfold bind at 1. unfold identityClient_GetTenancy.
  rewrite Htenancy. cbn [fst snd GTRes_Name deref]. unfold bind at 1. unfold ret at 1.
  unfold bind at 1. unfold identityClient_SetRegion, modify.
  unfold bind at 1.
  erewrite listCompartments_loop_listed; [| exact Hlisted | done | done].
  cbn zeta. unfold bind.
  match goal with |- match resolve_loop _ _ _ _ _ _ ?w1 with _ => _ end = match resolve_loop _ _ _ _ _ _ ?w2 with _ => _ end =>
    assert (w1 = w2) as -> end.
  { unfold asked, listed_world, record, set_o. cbn. f_equal. by rewrite <- app_assoc. }
  destruct (resolve_loop _ _ _ _ _ _ _) as [[full| | |] w2]; try done.
Qed.

Hypothesis rangeOrder_perm : forall k m, rangeOrder k m ≡ₚ map_to_list m.

(** On a listing that forms a tree, [getCompartments] returns the inverse of
    a map that gives every recorded id its full name. *)
Lemma getCompartments_tree fuel region rootCompartment w tenancyName pages :
  GetTenancy cloud (ic_region (identityClient (o w))) rootCompartment
    = ({| GTRes_Name := Some tenancyName |}, None) ->
  listed cloud (StringToRegion cloud region) rootCompartment None pages ->
  forallb well_formed (concat (map LCRes_Items pages)) = true ->
  let maps := listing_maps rootCompartment tenancyName (concat (map LCRes_Items pages)) in
  is_tree rootCompartment maps.2 ->
  length pages <= fuel ->
  size maps.1 <= fuel ->
  exists full entries w',
    getCompartments cloud rangeOrder fuel region rootCompartment w = (Ok (invert entries), w')
    /\ entries ≡ₚ map_to_list full
    /\ resolving rootCompartment maps.1 maps.2 full
    /\ dom full = dom maps.2
    /\ nameToOCID (o w') = nameToOCID (o w)
    /\ timeCacheUpdated (o w') = timeCacheUpdated (o w).
Proof.
  intros Htenancy Hlisted Hwf maps Htree Hpages Hsize.
  rewrite (getCompartments_listed fuel region rootCompartment w tenancyName pages) by done.
  cbn zeta. fold maps.
  set (w1 := listed_world _ _ _ _ _ _).
  destruct (resolve_loop_tree rangeOrder rangeOrder_perm rootCompartment maps.1 maps.2
              (listing_maps_dom _ _ _) (listing_maps_tenancy _ _ _) fuel
              (<[rootCompartment := at_key maps.1 rootCompartment +:+ tenancy_suffix]> ∅) w1
              Htree (resolving_init _ _ _))
    as (full & k & Hrun & Hk & Hres & Hdom).
  { rewrite map_size_insert_None, map_size_empty by done.
    assert (1 <= length pages) by (inversion Hlisted; cbn; lia). lia. }
  rewrite Hrun. eexists full, _, _. split; [reflexivity|].
  split; [apply rangeOrder_perm|]. done.
Qed.
End GetCompartments.

(** ** What [getCompartments] returns *)

Lemma full_name_slash tenancyOcid names parents id s :
  full_name tenancyOcid names parents id s ->
  id <> tenancyOcid -> begins_with_slash s.
Proof.
  induction 1 as [|id Hne Hp|id p s Hne Hp Hpne _ IH]; intros Hid; [done| |].
  - by eexists.
  - destruct (IH Hpne) as [rest ->]. by eexists.
Qed.

Lemma full_name_listed tenancyOcid names parents id s :
  is_Some (parents !! tenancyOcid) ->
  full_name tenancyOcid names parents id s -> is_Some (parents !! id).
Proof. intros Ht. destruct 1; by eauto. Qed.

Section Inverted.
Variables (tenancyOcid : string) (names parents full : gmap string string).
Variable entries : list (string * string).
Hypothesis entries_full : entries ≡ₚ map_to_list full.
Hypothesis full_resolving : resolving tenancyOcid names parents full.
Hypothesis full_dom : dom full = dom parents.

Lemma entry_full id s : (id, s) ∈ entries <-> full !! id = Some s.
Proof. rewrite entries_full. apply elem_of_map_to_list. Qed.

(** Every entry of the result is the full name of its id. *)
Lemma invert_sound s id :
  invert entries !! s = Some id -> full_name tenancyOcid names parents id s.
Proof.
  intros Hs. apply invert_acc_lookup in Hs as [Hs|Hin]; [done|].
  apply entry_full in Hin. by apply (res_named full_resolving).
Qed.

(** Every recorded id has its full name among the keys. *)
Lemma invert_complete id :
  is_Some (parents !! id) ->
  exists s, full_name tenancyOcid names parents id s /\ is_Some (invert entries !! s).
Proof.
  intros Hid. apply elem_of_dom in Hid. rewrite <- full_dom in Hid.
  apply elem_of_dom in Hid as [s Hs]. exists s. split.
  - by apply (res_named full_resolving).
  - apply entry_full in Hs. by apply (invert_acc_key entries ∅ (id, s)).
Qed.

Hypothesis distinct_paths : forall id1 id2 s,
  full_name tenancyOcid names parents id1 s ->
  full_name tenancyOcid names parents id2 s -> id1 = id2.

Lemma entries_distinct : NoDup entries.*2.
Proof.
  apply NoDup_fmap_2_strong.
  - intros [id1 s1] [id2 s2] H1 H2 Heq. cbn in Heq. subst s2.
    apply entry_full in H1, H2. f_equal.
    eapply distinct_paths; by apply (res_named full_resolving).
  - rewrite entries_full. apply NoDup_map_to_list.
Qed.

(** With distinct full names there is one entry per recorded id. *)
Lemma invert_exact id :
  is_Some (parents !! id) ->
  exists s, full_name tenancyOcid names parents id s /\ invert entries !! s = Some id.
Proof.
  intros Hid. apply elem_of_dom in Hid. rewrite <- full_dom in Hid.
  apply elem_of_dom in Hid as [s Hs]. exists s. split.
  - by apply (res_named full_resolving).
  - apply entry_full in Hs.
    apply (invert_acc_distinct entries ∅ (id, s) entries_distinct Hs).
Qed.

Lemma invert_size : size (invert entries) = size parents.
Proof.
  unfold invert. rewrite invert_acc_size; [|apply entries_distinct|done].
  rewrite map_size_empty, entries_full, length_map_to_list.
  by rewrite <- !size_dom, full_dom.
Qed.
End Inverted.

Lemma is_tree_by_depth n tenancyOcid (parents : gmap string string) :
  forallb (fun e => reaches n tenancyOcid parents e.1) (map_to_list parents) = true ->
  is_tree tenancyOcid parents.
Proof.
  intros Hall id [p Hp]. exists n.
  rewrite forallb_forall in Hall. apply (Hall (id, p)).
  apply list_elem_of_In. by apply elem_of_map_to_list.
Qed.

Section Returns.
Variable rangeOrder : nat -> gmap string string -> list (string * string).
Hypothesis rangeOrder_perm : forall k m, rangeOrder k m ≡ₚ map_to_list m.
Variables (tenancyOcid : string) (names parents : gmap string string).
Hypothesis names_parents : dom names = dom parents.
Hypothesis tenancy_listed : is_Some (parents !! tenancyOcid).

(** When the loop ends, every entry is resolved. *)
Lemma resolve_loop_returns fuel : forall (full full' : gmap string string) w w',
  resolving tenancyOcid names parents full ->
  resolve_loop rangeOrder fuel tenancyOcid names parents full w = (Ok full', w') ->
  resolving tenancyOcid names parents full' /\ dom full' = dom parents.
Proof.
  induction fuel as [|fuel IH]; intros full full' w w' Hres Hrun; [done|].
  rewrite resolve_loop_step in Hrun.
  destruct (size full <? size names) eqn:Hlt.
  - eapply IH; [|exact Hrun].
    apply resolve_pass_resolving; [|done]. by apply range_entries.
  - injection Hrun as <- <-. split; [done|].
    apply Nat.ltb_ge in Hlt. apply set_subseteq_size_eq.
    + by apply (resolving_dom tenancyOcid names).
    + by rewrite <- names_parents, !size_dom.
Qed.
End Returns.

Section ListingShort.
Variable cloud : Cloud.

(** A budget shorter than the listing is used up inside the paging loop. *)
Lemma listCompartments_loop_short rootCompartment ps : forall fuel page maps w,
  listed cloud (ic_region (identityClient (o w))) rootCompartment page ps ->
  forallb well_formed (concat (map LCRes_Items ps)) = true ->
  fuel < length ps ->
  exists w', listCompartments_loop cloud fuel rootCompartment page maps w = (Spinning, w').
Proof.
  induction ps as [|p ps IH]; intros fuel page maps w Hl Hwf Hf; [inversion Hl|].
  destruct fuel as [|fuel]; [by eexists|].
  cbn [map concat] in Hwf. rewrite forallb_app in Hwf. apply andb_true_iff in Hwf as [Hp Hwf].
  cbn [listCompartments_loop]. unfold bind at 1. unfold identityClient_ListCompartments.
  fold (compartments_request rootCompartment page).
  inversion Hl as [page' p' Hcall Hnone | page' p' next ps' Hcall Hnext Hrest]; subst.
  - cbn in Hf. lia.
  - rewrite Hcall; cbn [fst snd]; unfold bind.
    rewrite forM_note_compartment by done. rewrite Hnext.
    apply IH; [done|done|cbn in Hf; lia].
Qed.
End ListingShort.

Section Hierarchy.
Variable cloud : Cloud.
Variable rangeOrder : nat -> gmap string string -> list (string * string).

Lemma getCompartments_short fuel region rootCompartment w tenancyName pages :
  GetTenancy cloud (ic_region (identityClient (o w))) rootCompartment
    = ({| GTRes_Name := Some tenancyName |}, None) ->
  listed cloud (StringToRegion cloud region) rootCompartment None pages ->
  forallb well_formed (concat (map LCRes_Items pages)) = true ->
  fuel < length pages ->
  exists w', getCompartments cloud rangeOrder fuel region rootCompartment w = (Spinning, w').
Proof.
  intros Htenancy Hlisted Hwf Hfuel.
  unfold getCompartments. unfold bind at 1. unfold identityClient_GetTenancy.
  rewrite Htenancy. cbn [fst snd GTRes_Name deref]. unfold bind at 1. unfold ret at 1.
  unfold bind at 1. unfold identityClient_SetRegion, modify.
  unfold bind at 1.
  match goal with
  | |- context [listCompartments_loop _ _ _ _ ?maps ?w0] =>
      destruct (listCompartments_loop_short cloud rootCompartment pages fuel None maps w0)
        as [w' Hw']; [exact Hlisted|done|done|]
  end.
  rewrite Hw'. by eexists.
Qed.

(** With an active entry whose parent chain misses the tenancy,
    [getCompartments] is still looping when any budget runs out. *)
Lemma getCompartments_lost fuel region rootCompartment w tenancyName pages lost :
  (forall k m, rangeOrder k m ≡ₚ map_to_list m) ->
  GetTenancy cloud (ic_region (identityClient (o w))) rootCompartment
    = ({| GTRes_Name := Some tenancyName |}, None) ->
  listed cloud (StringToRegion cloud region) rootCompartment None pages ->
  forallb well_formed (concat (map LCRes_Items pages)) = true ->
  let maps := listing_maps rootCompartment tenancyName (concat (map LCRes_Items pages)) in
  is_Some (maps.2 !! lost) ->
  ~ rooted rootCompartment maps.2 lost ->
  exists w',
    getCompartments cloud rangeOrder fuel region rootCompartment w = (Spinning, w').
Proof.
  intros Hperm Htenancy Hlisted Hwf maps Hlost Hnot.
  destruct (decide (length pages <= fuel)) as [Hfuel|Hfuel].
  2:{ apply (getCompartments_short fuel region rootCompartment w tenancyName pages);
        [done|done|done|lia]. }
  rewrite (getCompartments_listed cloud rangeOrder fuel region rootCompartment w
             tenancyName pages) by done.
  cbn zeta. fold maps.
  edestruct (resolve_loop_stuck rangeOrder Hperm rootCompartment maps.1 maps.2
               (listing_maps_dom _ _ _) (listing_maps_tenancy _ _ _) fuel lost)
    as [k Hk]; [done|done|apply resolving_init|].
  rewrite Hk. by eexists.
Qed.

(** C3 (amended). On a listing that forms a tree under the tenancy,
    [getCompartments] returns a map in which every entry sends the full path
    of a recorded id (the tenancy or an active compartment) to an id with
    that path, every recorded id has its full path among the keys, and the
    key of every compartment other than the tenancy begins with [/]; when
    no two ids share a full path, the map has exactly one entry per
    recorded id, from its full path to it. *)
Theorem getCompartments_full_paths fuel region rootCompartment w tenancyName pages :
  (forall k m, rangeOrder k m ≡ₚ map_to_list m) ->
  GetTenancy cloud (ic_region (identityClient (o w))) rootCompartment
    = ({| GTRes_Name := Some tenancyName |}, None) ->
  listed cloud (StringToRegion cloud region) rootCompartment None pages ->
  forallb well_formed (concat (map LCRes_Items pages)) = true ->
  let maps := listing_maps rootCompartment tenancyName (concat (map LCRes_Items pages)) in
  is_tree rootCompartment maps.2 ->
  length pages <= fuel ->
  size maps.1 <= fuel ->
  exists m w',
    getCompartments cloud rangeOrder fuel region rootCompartment w = (Ok m, w')
    /\ (forall s id, m !! s = Some id ->
          is_Some (maps.2 !! id) /\ full_name rootCompartment maps.1 maps.2 id s)
    /\ (forall id, is_Some (maps.2 !! id) ->
          exists s, full_name rootCompartment maps.1 maps.2 id s /\ is_Some (m !! s))
    /\ (forall s id, m !! s = Some id -> id <> rootCompartment -> begins_with_slash s)
    /\ ((forall id1 id2 s,
           full_name rootCompartment maps.1 maps.2 id1 s ->
           full_name rootCompartment maps.1 maps.2 id2 s -> id1 = id2) ->
        size m = size maps.2
        /\ forall id, is_Some (maps.2 !! id) ->
             exists s, full_name rootCompartment maps.1 maps.2 id s /\ m !! s = Some id).
Proof.
  intros Hperm Htenancy Hlisted Hwf maps Htree Hpages Hsize.
  destruct (getCompartments_tree cloud rangeOrder Hperm fuel region rootCompartment w
              tenancyName pages Htenancy Hlisted Hwf Htree Hpages Hsize)
    as (full & entries & w' & Hrun & Hentries & Hres & Hdom & _).
  fold maps in Hres, Hdom.
  exists (invert entries), w'. split; [done|].
  pose proof (listing_maps_tenancy rootCompartment tenancyName
                (concat (map LCRes_Items pages))) as Hroot.
  fold maps in Hroot.
  split_and!.
  - intros s id Hs.
    pose proof (invert_sound _ _ _ _ _ Hentries Hres s id Hs) as Hname.
    split; [|done]. by eapply full_name_listed.
  - intros id Hid. by eapply invert_complete.
  - intros s id Hs Hne. eapply full_name_slash; [|done].
    by eapply invert_sound.
  - intros Hdistinct. split.
    + by eapply invert_size.
    + intros id Hid. by eapply invert_exact.
Qed.

(** C7.  Take the maps that a compartment listing leaves.  When the
    compartments recorded there form a tree under the tenancy, every full
    pass over the parent map, in whatever order it visits the entries,
    resolves at least one more entry as long as one is unresolved; and the
    loop of [getCompartments], started as the code starts it, ends with
    every entry resolved, after fewer passes than there are entries. *)
Theorem resolve_loop_terminates tenancyOcid tenancyName items :
  (forall k m, rangeOrder k m ≡ₚ map_to_list m) ->
  let names := (listing_maps tenancyOcid tenancyName items).1 in
  let parents := (listing_maps tenancyOcid tenancyName items).2 in
  is_tree tenancyOcid parents ->
  (forall full entries,
     resolving tenancyOcid names parents full ->
     entries ≡ₚ map_to_list parents ->
     size full < size names ->
     size full < size (resolve_pass tenancyOcid names full entries))
  /\ (forall fuel w,
        size names <= fuel ->
        exists full' k,
          resolve_loop rangeOrder fuel tenancyOcid names parents
            (<[tenancyOcid := at_key names tenancyOcid +:+ tenancy_suffix]> ∅) w
            = (Ok full', ranged k w)
          /\ k < size names
          /\ dom full' = dom names
          /\ resolving tenancyOcid names parents full').
Proof.
  intros Hperm names parents Htree.
  pose proof (listing_maps_dom tenancyOcid tenancyName items) as Hdom.
  pose proof (listing_maps_tenancy tenancyOcid tenancyName items) as Hroot.
  fold names parents in Hdom, Hroot.
  split.
  - intros full entries Hres Hentries Hlt. by apply (resolve_pass_progress _ _ parents).
  - intros fuel w Hfuel.
    assert (0 < size names) as Hsome.
    { pose proof (resolving_dom tenancyOcid names parents _ Hroot
                    (resolving_init tenancyOcid names parents)) as Hsub.
      apply subseteq_size in Hsub.
      rewrite <- Hdom, !size_dom, map_size_insert_None, map_size_empty in Hsub by done.
      lia. }
    destruct (resolve_loop_tree rangeOrder Hperm tenancyOcid names parents Hdom Hroot
                fuel (<[tenancyOcid := at_key names tenancyOcid +:+ tenancy_suffix]> ∅) w
                Htree (resolving_init _ _ _))
      as (full' & k & Hrun & Hk & Hres & Hdom').
    { rewrite map_size_insert_None, map_size_empty by done. lia. }
    rewrite map_size_insert_None, map_size_empty in Hk by done.
    exists full', k. split_and!; [done|lia|by rewrite Hdom|done].
Qed.

(** C4 (amended). A rebuild that returns has, for every active compartment
    of the listing, its full path among the keys of the map, bound to an id
    with that path (to the compartment itself when no two ids share a full
    path), and binds nothing but the tenancy and ids of active entries.  A
    rebuild over a listing with an active entry whose parent chain misses
    the tenancy does not return: whatever the budget, it is still looping. *)
Theorem rebuild_active_only region rootCompartment w tenancyName pages :
  (forall k m, rangeOrder k m ≡ₚ map_to_list m) ->
  GetTenancy cloud (ic_region (identityClient (o w))) rootCompartment
    = ({| GTRes_Name := Some tenancyName |}, None) ->
  listed cloud (StringToRegion cloud region) rootCompartment None pages ->
  forallb well_formed (concat (map LCRes_Items pages)) = true ->
  let items := concat (map LCRes_Items pages) in
  let maps := listing_maps rootCompartment tenancyName items in
  (forall fuel m w',
     getCompartments cloud rangeOrder fuel region rootCompartment w = (Ok m, w') ->
     (forall c id, c ∈ items -> is_active c = true -> Cmpt_Id c = Some id ->
        exists s id', full_name rootCompartment maps.1 maps.2 id s
                      /\ m !! s = Some id'
                      /\ full_name rootCompartment maps.1 maps.2 id' s)
     /\ ((forall id1 id2 s,
            full_name rootCompartment maps.1 maps.2 id1 s ->
            full_name rootCompartment maps.1 maps.2 id2 s -> id1 = id2) ->
         forall c id, c ∈ items -> is_active c = true -> Cmpt_Id c = Some id ->
           exists s, m !! s = Some id)
     /\ (forall s id, m !! s = Some id ->
           id = rootCompartment
           \/ exists c, c ∈ items /\ is_active c = true /\ Cmpt_Id c = Some id))
  /\ (forall lost,
        is_Some (maps.2 !! lost) -> ~ rooted rootCompartment maps.2 lost ->
        forall fuel, exists w',
          getCompartments cloud rangeOrder fuel region rootCompartment w = (Spinning, w')).
Proof.
  intros Hperm Htenancy Hlisted Hwf items maps.
  pose proof (listing_maps_dom rootCompartment tenancyName items) as Hdom.
  pose proof (listing_maps_tenancy rootCompartment tenancyName items) as Hroot.
  fold maps in Hdom, Hroot.
  split.
  - intros fuel m w' Hrun.
    destruct (decide (length pages <= fuel)) as [Hfuel|Hfuel].
    2:{ destruct (getCompartments_short fuel region rootCompartment w tenancyName pages)
          as [w'' Hspin]; [done|done|done|lia|]. rewrite Hspin in Hrun. done. }
    rewrite (getCompartments_listed cloud rangeOrder fuel region rootCompartment w
               tenancyName pages) in Hrun by done.
    cbn zeta in Hrun. fold items maps in Hrun.
    destruct (resolve_loop _ _ _ _ _ _ _) as [[full| | |] w2] eqn:Hloop; try done.
    injection Hrun as <- <-.
    destruct (resolve_loop_returns rangeOrder Hperm rootCompartment maps.1 maps.2
                Hdom Hroot fuel _ full _ w2 (resolving_init _ _ _) Hloop) as [Hres Hfull].
    pose proof (Hperm (ranges w2) full) as Hentries.
    split_and!.
    + intros c id Hc Hact Hid.
      assert (is_Some (maps.2 !! id)) as Hlisted_id
        by (by eapply foldl_noted_active).
      destruct (invert_complete _ _ _ _ _ Hentries Hres Hfull id Hlisted_id)
        as (s & Hname & [id' Hid']).
      exists s, id'. split_and!; [done|done|]. by eapply invert_sound.
    + intros Hdistinct c id Hc Hact Hid.
      assert (is_Some (maps.2 !! id)) as Hlisted_id
        by (by eapply foldl_noted_active).
      destruct (invert_exact _ _ _ _ _ Hentries Hres Hfull Hdistinct id Hlisted_id)
        as (s & _ & Hs).
      by exists s.
    + intros s id Hs.
      pose proof (invert_sound _ _ _ _ _ Hentries Hres s id Hs) as Hname.
      apply (listing_maps_listed rootCompartment tenancyName items).
      by eapply full_name_listed.
  - intros lost Hlost Hnot fuel.
    by apply (getCompartments_lost fuel region rootCompartment w tenancyName pages lost).
Qed.
End Hierarchy.

(** ** The sample hierarchies *)

Lemma listing_order_perm k (m : gmap string string) : listing_order k m ≡ₚ map_to_list m.
Proof. reflexivity. Qed.

Lemma tree_pages_listed : listed tree_cloud "phx" sample_tenancy None tree_pages.
Proof.
  eapply listed_next; [reflexivity|reflexivity|]. apply listed_last; reflexivity.
Qed.

Lemma tree_pages_tree :
  is_tree sample_tenancy
    (listing_maps sample_tenancy "acme" (concat (map LCRes_Items tree_pages))).2.
Proof. apply (is_tree_by_depth 3). vm_compute. reflexivity. Qed.

Lemma orphan_pages_listed : listed orphan_cloud "phx" sample_tenancy None orphan_pages.
Proof. apply listed_last; reflexivity. Qed.

Lemma orphan_not_rooted :
  ~ rooted sample_tenancy
      (listing_maps sample_tenancy "acme" (concat (map LCRes_Items orphan_pages))).2
      "ocid1.compartment.lost".
Proof.
  intros [n Hn]. destruct n as [|[|n]]; vm_compute in Hn; discriminate.
Qed.

Lemma getCompartments_full_paths_witness :
  exists m w',
    getCompartments tree_cloud listing_order 5 "phx" sample_tenancy fresh_world = (Ok m, w')
    /\ forall s id, m !! s = Some id -> id <> sample_tenancy -> begins_with_slash s.
Proof.
  destruct (getCompartments_full_paths tree_cloud listing_order 5 "phx" sample_tenancy
              fresh_world "acme" tree_pages)
    as (m & w' & Hrun & _ & _ & Hslash & _).
  - apply listing_order_perm.
  - reflexivity.
  - apply tree_pages_listed.
  - vm_compute. reflexivity.
  - apply tree_pages_tree.
  - cbn [length tree_pages]. lia.
  - vm_compute. lia.
  - exists m, w'. split; [exact Hrun|exact Hslash].
Defined.

(** The sample tree yields three entries; the key of the tenancy is its
    name followed by a remark and does not begin with [/].  Two active
    compartments of one name under the tenancy yield two entries, not
    three: both resolve to [/twin]. *)
Lemma tenancy_key_without_slash :
  (getCompartments tree_cloud listing_order 5 "phx" sample_tenancy fresh_world).1
  = Ok (invert [ (sample_tenancy, "acme(tenancy, shown as '/')");
                 ("ocid1.compartment.db", "/prod/db");
                 ("ocid1.compartment.prod", "/prod") ])
  /\ ~ begins_with_slash "acme(tenancy, shown as '/')"
  /\ (getCompartments twin_cloud listing_order 5 "phx" sample_tenancy fresh_world).1
     = Ok (invert [ (sample_tenancy, "acme(tenancy, shown as '/')");
                    ("ocid1.compartment.twin2", "/twin") ]).
Proof.
  split_and!.
  - vm_compute. reflexivity.
  - intros [rest Hrest]. discriminate.
  - vm_compute. reflexivity.
Qed.

Lemma resolve_loop_terminates_witness :
  let maps := listing_maps sample_tenancy "acme" (concat (map LCRes_Items tree_pages)) in
  exists full' k,
    resolve_loop listing_order 3 sample_tenancy maps.1 maps.2
      (<[sample_tenancy := at_key maps.1 sample_tenancy +:+ tenancy_suffix]> ∅) fresh_world
    = (Ok full', ranged k fresh_world)
    /\ k < 3 /\ dom full' = dom maps.1.
Proof.
  intros maps.
  destruct (resolve_loop_terminates listing_order sample_tenancy "acme"
              (concat (map LCRes_Items tree_pages))) as [_ Hloop].
  - apply listing_order_perm.
  - apply tree_pages_tree.
  - destruct (Hloop 3 fresh_world) as (full' & k & Hrun & Hk & Hdom & _).
    + vm_compute. lia.
    + exists full', k. split; [exact Hrun|]. split; [|exact Hdom].
      vm_compute in Hk. exact Hk.
Defined.

Lemma rebuild_active_only_witness :
  exists m w',
    getCompartments tree_cloud listing_order 5 "phx" sample_tenancy fresh_world = (Ok m, w')
    /\ forall s id, m !! s = Some id ->
         id = sample_tenancy
         \/ exists c, c ∈ concat (map LCRes_Items tree_pages)
                      /\ is_active c = true /\ Cmpt_Id c = Some id.
Proof.
  destruct (getCompartments_tree tree_cloud listing_order listing_order_perm 5 "phx"
              sample_tenancy fresh_world "acme" tree_pages)
    as (full & entries & w' & Hrun & _).
  - reflexivity.
  - apply tree_pages_listed.
  - vm_compute. reflexivity.
  - apply tree_pages_tree.
  - cbn [length tree_pages]. lia.
  - vm_compute. lia.
  - destruct (rebuild_active_only tree_cloud listing_order "phx" sample_tenancy fresh_world
                "acme" tree_pages) as [Hreturned _].
    + apply listing_order_perm.
    + reflexivity.
    + apply tree_pages_listed.
    + vm_compute. reflexivity.
    + destruct (Hreturned 5 _ _ Hrun) as (_ & _ & Hvalues).
      exists (invert entries), w'. split; [exact Hrun|exact Hvalues].
Defined.

(** The listing with one active compartment under a parent that is not
    listed: after a hundred passes the loop is still running, and so it is
    after any number.  And of two active compartments that resolve to one
    path, only one is a value of the map. *)
Lemma orphan_rebuild_never_returns :
  (getCompartments orphan_cloud listing_order 100 "phx" sample_tenancy fresh_world).1
  = Spinning
  /\ (forall fuel, exists w',
        getCompartments orphan_cloud listing_order fuel "phx" sample_tenancy fresh_world
        = (Spinning, w'))
  /\ exists m,
       (getCompartments twin_cloud listing_order 5 "phx" sample_tenancy fresh_world).1 = Ok m
       /\ forall s, m !! s <> Some "ocid1.compartment.twin1".
Proof.
  split_and!; [vm_compute; reflexivity| |].
  - intros fuel.
    apply (getCompartments_lost orphan_cloud listing_order fuel "phx" sample_tenancy
             fresh_world "acme" orphan_pages "ocid1.compartment.lost").
    + apply listing_order_perm.
    + reflexivity.
    + apply orphan_pages_listed.
    + vm_compute. reflexivity.
    + vm_compute. by eexists.
    + apply orphan_not_rooted.
  - exists (invert [ (sample_tenancy, "acme(tenancy, shown as '/')");
                     ("ocid1.compartment.twin2", "/twin") ]).
    split; [vm_compute; reflexivity|].
    intros s Hs. apply invert_acc_lookup in Hs as [Hs|Hs]; [done|].
    apply elem_of_cons in Hs as [Hs|Hs]; [discriminate|].
    apply elem_of_cons in Hs as [Hs|Hs]; [discriminate|].
    by apply elem_of_nil in Hs.
Qed.

(** ** The compartment cache *)

Lemma steady_refl w : steady w w.
Proof. split_and!; [done|done|]. exists []. by rewrite app_nil_r. Qed.

Lemma steady_trans w1 w2 w3 : steady w1 w2 -> steady w2 w3 -> steady w1 w3.
Proof.
  intros (Hn & Ht & calls & Hc) (Hn' & Ht' & calls' & Hc').
  split_and!; [congruence|congruence|].
  exists (calls ++ calls'). by rewrite Hc', Hc, app_assoc.
Qed.

Section Steady.
Variable cloud : Cloud.
Variable rangeOrder : nat -> gmap string string -> list (string * string).

Lemma note_compartment_same maps c w r w' :
  note_compartment maps c w = (r, w') -> w' = w.
Proof.
  unfold note_compartment.
  destruct (Cmpt_LifecycleState c); try (by intros [= _ <-]).
  destruct (Cmpt_Id c), (Cmpt_Name c), (Cmpt_CompartmentId c); cbn;
    by intros [= _ <-].
Qed.

Lemma forM_note_compartment_same items : forall maps w r w',
  forM items maps note_compartment w = (r, w') -> w' = w.
Proof.
  induction items as [|c items IH]; intros maps w r w'; cbn [forM].
  - by intros [= _ <-].
  - unfold bind. destruct (note_compartment maps c w) as [[maps'| | |] w1] eqn:Hc;
      apply note_compartment_same in Hc as ->; try (by intros [= _ <-]).
    apply IH.
Qed.

Lemma listCompartments_loop_steady fuel : forall rootCompartment page maps w r w',
  listCompartments_loop cloud fuel rootCompartment page maps w = (r, w') -> steady w w'.
Proof.
  induction fuel as [|fuel IH]; intros rootCompartment page maps w r w'; cbn [listCompartments_loop].
  - intros [= _ <-]. apply steady_refl.
  - unfold bind at 1. unfold identityClient_ListCompartments.
    set (req := {| LCR_CompartmentId := _ |}).
    set (w1 := record _ w).
    assert (steady w w1) as Hw1.
    { split_and!; [done|done|]. by eexists. }
    destruct (ListCompartments cloud _ req) as [res [e|]]; cbn [fst snd].
    + intros [= _ <-]. done.
    + unfold bind.
      destruct (forM (LCRes_Items res) maps note_compartment w1) as [[maps'| | |] w2] eqn:Hnote;
        apply forM_note_compartment_same in Hnote as ->; try (by intros [= _ <-]).
      destruct (LCRes_OpcNextPage res).
      * intros Hrun. apply IH in Hrun. by eapply steady_trans.
      * by intros [= _ <-].
Qed.

Lemma resolve_loop_steady fuel : forall tenancyOcid names parents full w r w',
  resolve_loop rangeOrder fuel tenancyOcid names parents full w = (r, w') -> steady w w'.
Proof.
  induction fuel as [|fuel IH]; intros tenancyOcid names parents full w r w'; cbn [resolve_loop].
  - intros [= _ <-]. apply steady_refl.
  - destruct (size full <? size names).
    + unfold bind, range. intros Hrun. apply IH in Hrun.
      eapply steady_trans; [|exact Hrun]. split_and!; [done|done|].
      exists []. by rewrite app_nil_r.
    + intros [= _ <-]. apply steady_refl.
Qed.

(** [getCompartments] asks for the tenancy first, and leaves the cache and
    its time stamp alone, however it ends. *)
Lemma getCompartments_steady fuel region rootCompartment w r w' :
  getCompartments cloud rangeOrder fuel region rootCompartment w = (r, w') ->
  nameToOCID (o w') = nameToOCID (o w)
  /\ timeCacheUpdated (o w') = timeCacheUpdated (o w)
  /\ exists calls,
       trace w' = trace w
                  ++ CallGetTenancy (ic_region (identityClient (o w))) rootCompartment
                  :: calls.
Proof.
  unfold getCompartments. unfold bind at 1. unfold identityClient_GetTenancy.
  set (w1 := record _ w).
  assert (forall w2, steady w1 w2 ->
            nameToOCID (o w2) = nameToOCID (o w)
            /\ timeCacheUpdated (o w2) = timeCacheUpdated (o w)
            /\ exists calls,
                 trace w2 = trace w
                   ++ CallGetTenancy (ic_region (identityClient (o w))) rootCompartment
                   :: calls) as Hfrom.
  { intros w2 (Hn & Ht & calls & Hc). split_and!; [done|done|].
    exists calls. rewrite Hc. unfold w1, record. cbn. by rewrite <- app_assoc. }
  destruct (GetTenancy cloud _ rootCompartment) as [resp [e|]]; cbn [fst snd].
  - intros [= _ <-]. apply Hfrom, steady_refl.
  - unfold bind at 1.
    destruct (GTRes_Name resp) as [tenancyName|]; cbn [deref].
    2:{ intros [= _ <-]. apply Hfrom, steady_refl. }
    unfold ret at 1. unfold bind at 1. unfold identityClient_SetRegion, modify.
    set (w2 := set_o _ w1).
    assert (steady w1 w2) as Hw2.
    { split_and!; [done|done|]. exists []. by rewrite app_nil_r. }
    unfold bind at 1.
    destruct (listCompartments_loop _ _ _ _ _ w2) as [[maps| | |] w3] eqn:Hlist;
      apply listCompartments_loop_steady in Hlist.
    2-4: intros [= _ <-]; apply Hfrom; eapply steady_trans; [exact Hw2|exact Hlist].
    unfold bind at 1.
    destruct (resolve_loop _ _ _ _ _ _ w3) as [[full| | |] w4] eqn:Hloop;
      apply resolve_loop_steady in Hloop.
    2-4: intros [= _ <-]; apply Hfrom; eapply steady_trans; [exact Hw2|];
      eapply steady_trans; [exact Hlist|exact Hloop].
    unfold bind, range, ret. intros [= _ <-]. apply Hfrom.
    eapply steady_trans; [exact Hw2|]. eapply steady_trans; [exact Hlist|].
    eapply steady_trans; [exact Hloop|].
    split_and!; [done|done|]. exists []. by rewrite app_nil_r.
Qed.
End Steady.

Section Cache.
Variable cloud : Cloud.
Variable rangeOrder : nat -> gmap string string -> list (string * string).

Lemma compartmentsResponse_unfold fuel tsdbReq q qs w :
  Req_Queries tsdbReq = q :: qs ->
  compartmentsResponse cloud rangeOrder fuel tsdbReq w
  = let ts := Unmarshal_Search (Q_ModelJson q) in
    let answer w1 :=
      (Ok (table_response "compartments"
             (set_Rows two_text_table
                (compartment_rows (rangeOrder (ranges w1) (nameToOCID (o w1)))))),
       next_range w1) in
    if stale w then
      match getCompartments cloud rangeOrder fuel (Region_ (Search_Common ts))
              (TenancyOCID (Search_Common ts)) w with
      | (Ok m, w1) => answer (cached m w1)
      | (Failed e, w1) => (Failed e, record (LogError "Unable to refresh cache") w1)
      | (Panicked, w1) => (Panicked, w1)
      | (Spinning, w1) => (Spinning, w1)
      end
    else answer w.
Proof.
  intros Hq. unfold compartmentsResponse. rewrite Hq.
  unfold bind at 1. unfold get at 1. unfold bind at 1. cbn [index0]. unfold ret at 1.
  fold (stale w). unfold bind at 1.
  destruct (stale w).
  - destruct (getCompartments _ _ _ _ _ w) as [[m| | |] w1]; try done.
  - done.
Qed.


(** No compartments request ever stamps the cache: [timeCacheUpdated] is the
    same after the request as before it, however the request ends. *)
Theorem compartmentsResponse_never_stamps fuel tsdbReq w :
  timeCacheUpdated (o (compartmentsResponse cloud rangeOrder fuel tsdbReq w).2)
  = timeCacheUpdated (o w).
Proof.
  destruct (compartmentsResponse cloud rangeOrder fuel tsdbReq w) as [r w'] eqn:Hrun.
  cbn [snd]. revert Hrun.
  destruct (Req_Queries tsdbReq) as [|q qs] eqn:Hq.
  - unfold compartmentsResponse. rewrite Hq. unfold bind, get. cbn. by intros [= _ <-].
  - rewrite (compartmentsResponse_unfold fuel tsdbReq q qs w Hq). cbn zeta.
    destruct (stale w).
    + destruct (getCompartments _ _ _ _ _ w) as [[m| | |] w1] eqn:Hrun;
        apply getCompartments_steady in Hrun as (_ & Hstamp & _);
        by intros [= _ <-].
    + by intros [= _ <-].
Qed.
End Cache.



(** Two requests one second apart on a fresh datasource: the stamp is still
    unset after the first, and the second asks the identity service again. *)
Lemma second_request_rebuilds_again :
  let first :=
    compartmentsResponse tree_cloud listing_order 5 compartments_batch fresh_world in
  let second :=
    compartmentsResponse tree_cloud listing_order 5 compartments_batch
      (later Second first.2) in
  timeCacheUpdated (o first.2) = 0%Z
  /\ length (trace first.2) = 3
  /\ length (trace second.2) = 6.
Proof.
  intros first second. split_and!; vm_compute; reflexivity.
Qed.

(** ** Series names *)

Lemma prefix_cons a p b s :
  String.prefix (String a p) (String b s)
  = if Ascii.ascii_dec a b then String.prefix p s else false.
Proof. reflexivity. Qed.

Lemma prefix_append p : forall s,
  String.prefix p s = true <-> exists post, s = p +:+ post.
Proof.
  induction p as [|a p IH]; intros s.
  - split; [intros _; by exists s|]. intros _. by destruct s.
  - destruct s as [|b s].
    + split; [done|]. by intros [post Hpost].
    + rewrite prefix_cons. destruct (Ascii.ascii_dec a b) as [->|Hne].
      * rewrite IH. split; intros [post Hpost]; exists post.
        -- by rewrite Hpost.
        -- by injection Hpost.
      * split; [done|]. intros [post Hpost]. injection Hpost as Hab _. congruence.
Qed.

(** [re_MatchString] is the search for [\w+Name]: it succeeds exactly on the
    strings that contain a word character directly followed by [Name] (the
    shortest match of [\w+] is one character, and a longer run of word
    characters ends in one). *)
Lemma re_MatchString_spec s :
  re_MatchString s = true
  <-> exists pre c post, is_word_char c = true /\ s = pre +:+ String c ("Name" +:+ post).
Proof.
  induction s as [|c s IH].
  - split; [done|]. intros (pre & c & post & _ & Hs). by destruct pre.
  - cbn [re_MatchString]. rewrite orb_true_iff, andb_true_iff, IH, prefix_append.
    split.
    + intros [[Hc [post ->]]|(pre & c' & post & Hc' & ->)].
      * by exists "", c, post.
      * by exists (String c pre), c', post.
    + intros (pre & c' & post & Hc' & Hs). destruct pre as [|p pre].
      * injection Hs as -> ->. left. split; [done|]. by exists post.
      * injection Hs as -> ->. right. by exists pre, c', post.
Qed.

Lemma leb_cons c1 s1 c2 s2 :
  String.leb (String c1 s1) (String c2 s2) = true
  <-> (N_of_ascii c1 < N_of_ascii c2)%N \/ (c1 = c2 /\ String.leb s1 s2 = true).
Proof.
  unfold String.leb. cbn [String.compare]. unfold Ascii.compare.
  destruct (N.compare_spec (N_of_ascii c1) (N_of_ascii c2)) as [Heq|Hlt|Hgt].
  - apply (f_equal ascii_of_N) in Heq. rewrite !ascii_N_embedding in Heq. subst c2.
    split; [by right|]. intros [Hlt|[_ H]]; [lia|done].
  - split; [by left|done].
  - split; [done|]. intros [Hlt|[-> _]]; lia.
Qed.

Lemma leb_nil_l s : String.leb "" s = true.
Proof. by destruct s. Qed.

Lemma leb_nil_r s : String.leb s "" = true -> s = "".
Proof. by destruct s. Qed.

#[local] Instance string_le_trans : Transitive string_le.
Proof.
  unfold string_le. intros a. induction a as [|c1 a IH]; intros b c Hab Hbc.
  - apply leb_nil_l.
  - destruct b as [|c2 b]; [by apply leb_nil_r in Hab|].
    destruct c as [|c3 c]; [by apply leb_nil_r in Hbc|].
    apply leb_cons in Hab, Hbc. apply leb_cons.
    destruct Hab as [Hab|[-> Hab]], Hbc as [Hbc|[-> Hbc]].
    + left. lia.
    + by left.
    + by left.
    + right. split; [done|]. by eapply IH.
Qed.

#[local] Instance string_le_antisym : AntiSymm (=) string_le.
Proof. intros a b. apply String.leb_antisym. Qed.

Lemma string_le_total a b : string_le a b \/ string_le b a.
Proof. apply String.leb_total. Qed.

Lemma sort_insert_perm x l : sort_insert x l ≡ₚ x :: l.
Proof.
  induction l as [|y l IH]; cbn; [done|].
  destruct (String.leb x y); [done|]. rewrite IH. apply Permutation_swap.
Qed.

Lemma sort_insert_sorted x l : Sorted string_le l -> Sorted string_le (sort_insert x l).
Proof.
  induction 1 as [|y l Hl IH Hy]; cbn.
  - by repeat constructor.
  - destruct (String.leb x y) eqn:Hxy.
    + by repeat constructor.
    + assert (string_le y x) as Hyx.
      { destruct (string_le_total x y) as [H|H]; [unfold string_le in H; congruence|done]. }
      constructor; [done|].
      destruct l as [|z l]; cbn in *.
      * by constructor.
      * destruct (String.leb x z); constructor; [done|]. by inversion Hy.
Qed.

Lemma sort_Strings_perm l : sort_Strings l ≡ₚ l.
Proof.
  induction l as [|x l IH]; [done|].
  unfold sort_Strings in *. cbn [foldr]. by rewrite sort_insert_perm, IH.
Qed.

Lemma sort_Strings_sorted l : Sorted string_le (sort_Strings l).
Proof.
  induction l as [|x l IH]; [constructor|].
  unfold sort_Strings in *. cbn [foldr]. by apply sort_insert_sorted.
Qed.

(** [sort.Strings] leaves the one ascending arrangement of its argument. *)
Lemma sort_Strings_unique l ks :
  ks ≡ₚ l -> Sorted string_le ks -> sort_Strings l = ks.
Proof.
  intros Hperm Hsorted. apply (Sorted_unique string_le).
  - apply sort_Strings_sorted.
  - done.
  - by rewrite sort_Strings_perm.
Qed.

Lemma append_assoc (a b c : string) : (a +:+ b) +:+ c = a +:+ (b +:+ c).
Proof.
  induction a as [|x a IH]; [done|].
  change (String x ((a +:+ b) +:+ c) = String x (a +:+ (b +:+ c))). by rewrite IH.
Qed.

Lemma append_empty_r (a : string) : a +:+ "" = a.
Proof.
  induction a as [|x a IH]; [done|].
  change (String x (a +:+ "") = String x a). by rewrite IH.
Qed.

Lemma append_nonempty (a b : string) : a <> "" -> a +:+ b <> "".
Proof. by destruct a. Qed.

Lemma join_cons sep x l : join sep (x :: l) = x +:+ foldr (fun y acc => sep +:+ y +:+ acc) "" l.
Proof.
  revert x. induction l as [|y l IH]; intros x.
  - cbn. by rewrite append_empty_r.
  - change (join sep (x :: y :: l)) with (x +:+ sep +:+ join sep (y :: l)).
    by rewrite IH.
Qed.

Section Naming.
Variable dimensions : gmap string string.

Lemma preDisplayName_from (vs : list string) : forall acc,
  acc <> "" ->
  foldl (fun pre v => if String.eqb pre "" then v else pre +:+ ", " +:+ v) acc vs
  = acc +:+ foldr (fun y rest => ", " +:+ y +:+ rest) "" vs.
Proof.
  induction vs as [|v vs IH]; intros acc Hacc; cbn [foldl foldr].
  - by rewrite append_empty_r.
  - destruct (String.eqb_spec acc "") as [->|_]; [done|].
    rewrite IH by (by apply append_nonempty).
    by rewrite !append_assoc.
Qed.

Lemma preDisplayName_values (vs : list string) :
  foldl (fun pre v => if String.eqb pre "" then v else pre +:+ ", " +:+ v) "" vs
  = join ", " (skip_empty vs).
Proof.
  induction vs as [|v vs IH]; [done|].
  cbn [foldl]. destruct (String.eqb_spec "" "") as [_|?]; [|done].
  destruct v as [|c v]; [exact IH|].
  cbn [skip_empty]. rewrite join_cons. by apply preDisplayName_from.
Qed.

Lemma preDisplayName_of_join keys :
  preDisplayName_of dimensions keys = join ", " (skip_empty (map (at_key dimensions) keys)).
Proof.
  rewrite <- preDisplayName_values. unfold preDisplayName_of.
  assert (forall acc,
            foldl (fun pre key =>
                     if String.eqb pre "" then at_key dimensions key
                     else pre +:+ ", " +:+ at_key dimensions key) acc keys
            = foldl (fun pre v => if String.eqb pre "" then v else pre +:+ ", " +:+ v) acc
                (map (at_key dimensions) keys)) as Hfold; [|apply Hfold].
  induction keys as [|k keys IH]; intros acc; [done|].
  cbn [foldl map]. apply IH.
Qed.
End Naming.

Lemma named_after_unmatched entries tName :
  Forall (fun entry => re_MatchString entry.1 = false) entries ->
  named_after entries tName = tName.
Proof.
  induction 1 as [|e entries He _ IH]; [done|].
  unfold named_after in *. cbn [foldl]. by rewrite He.
Qed.

(** The first loop of the naming: [dimensionKeys] is filled in visiting order. *)
Lemma series_fill entries : forall tName filled rest w,
  length rest = length entries ->
  forM entries (tName, filled ++ rest, length filled)
    (fun st entry =>
       let '(tName, dimensionKeys, i) := st in
       let key := entry.1 in
       let dimension := entry.2 in
       let tName := if re_MatchString key then Sprintf_name tName dimension else tName in
       dimensionKeys <- set_index dimensionKeys i key ;;
       ret (tName, dimensionKeys, S i)) w
  = (Ok (named_after entries tName, filled ++ entries.*1,
         length filled + length entries), w).
Proof.
  induction entries as [|e entries IH]; intros tName filled rest w Hlen.
  - destruct rest; [|done]. cbn. by rewrite Nat.add_0_r.
  - destruct rest as [|r rest]; [done|]. cbn in Hlen.
    cbn [forM]. unfold bind at 1. cbn zeta. unfold bind at 1. unfold set_index.
    rewrite length_app. cbn [length].
    replace (length filled <? length filled + S (length rest)) with true
      by (symmetry; apply Nat.ltb_lt; lia).
    unfold ret at 1. unfold ret at 1.
    replace (<[length filled:=e.1]> (filled ++ r :: rest)) with ((filled ++ [e.1]) ++ rest).
    2:{ rewrite <- (Nat.add_0_r (length filled)) at 1. rewrite insert_app_r. cbn.
        by rewrite <- app_assoc. }
    replace (S (length filled)) with (length (filled ++ [e.1]))
      by (rewrite length_app; cbn; lia).
    rewrite IH by lia.
    cbn [fmap list_fmap named_after foldl length]. rewrite <- app_assoc. cbn.
    do 3 f_equal. rewrite length_app. cbn. lia.
Qed.

Section SeriesName.
Variable rangeOrder : nat -> gmap string string -> list (string * string).
Hypothesis rangeOrder_perm : forall k m, rangeOrder k m ≡ₚ map_to_list m.

(** [series_name], loop by loop. *)
Lemma series_name_eval item itemName w :
  MD_Name item = Some itemName ->
  series_name rangeOrder item w
  = let entries := rangeOrder (ranges w) (MD_Dimensions item) in
    let tName := named_after entries itemName in
    (Ok (if String.eqb tName itemName
         then Sprintf_name tName
                (preDisplayName_of (MD_Dimensions item) (sort_Strings entries.*1))
         else tName),
     next_range w).
Proof.
  intros Hname. unfold series_name. rewrite Hname. cbn [deref].
  unfold bind at 1. unfold ret at 1. unfold bind at 1. unfold range at 1.
  cbn zeta.
  pose proof (series_fill (rangeOrder (ranges w) (MD_Dimensions item)) itemName []
                (replicate (size (MD_Dimensions item)) "") (next_range w)) as Hfill.
  cbn [app length] in Hfill. unfold bind at 1. rewrite Hfill.
  - cbn [Nat.add]. by destruct (String.eqb _ _).
  - rewrite length_replicate, rangeOrder_perm, length_map_to_list. done.
Qed.

Lemma range_keys k (m : gmap string string) key :
  key ∈ (rangeOrder k m).*1 <-> is_Some (m !! key).
Proof.
  rewrite rangeOrder_perm. rewrite list_elem_of_fmap. split.
  - intros [[k' v] [-> Hin]]. apply elem_of_map_to_list in Hin. by exists v.
  - intros [v Hv]. exists (key, v). split; [done|]. by apply elem_of_map_to_list.
Qed.

(** The name when no dimension key matches. *)
Lemma series_name_fallback item itemName ks w :
  MD_Name item = Some itemName ->
  (forall key, is_Some (MD_Dimensions item !! key) -> re_MatchString key = false) ->
  ks ≡ₚ (map_to_list (MD_Dimensions item)).*1 ->
  Sorted string_le ks ->
  series_name rangeOrder item w
  = (Ok (Sprintf_name itemName
           (join ", " (skip_empty (map (at_key (MD_Dimensions item)) ks)))),
     next_range w).
Proof.
  intros Hname Hnone Hperm Hsorted.
  rewrite (series_name_eval item itemName w Hname). cbn zeta.
  rewrite named_after_unmatched.
  2:{ apply Forall_forall. intros [key v] Hin. cbn. apply Hnone.
      rewrite rangeOrder_perm in Hin. apply elem_of_map_to_list in Hin. by exists v. }
  rewrite String.eqb_refl.
  rewrite (sort_Strings_unique _ ks); [|by rewrite rangeOrder_perm|done].
  by rewrite preDisplayName_of_join.
Qed.

(** C6 (amended).  The item named [CpuUtilization] with the one dimension
    [resourceDisplayName = vm1] yields the series name
    [CpuUtilization, {vm1}].  For an item none of whose dimension keys
    matches the pattern, the name is the metric name followed by [, {],
    then the dimension values in ascending order of their keys, without the
    empty values at the front, joined by [, ], then [}]; so the dimensions
    [availabilityDomain = AD-1] and [shape = VM.Standard] yield
    [CpuUtilization, {AD-1, VM.Standard}]. *)
Theorem series_name_spec w :
  (forall item,
     MD_Name item = Some "CpuUtilization" ->
     MD_Dimensions item = {[ "resourceDisplayName" := "vm1" ]} ->
     series_name rangeOrder item w = (Ok "CpuUtilization, {vm1}", next_range w))
  /\ (forall item itemName ks,
        MD_Name item = Some itemName ->
        (forall key, is_Some (MD_Dimensions item !! key) -> re_MatchString key = false) ->
        ks ≡ₚ (map_to_list (MD_Dimensions item)).*1 ->
        Sorted string_le ks ->
        series_name rangeOrder item w
        = (Ok (itemName +:+ ", {"
               +:+ join ", " (skip_empty (map (at_key (MD_Dimensions item)) ks)) +:+ "}"),
           next_range w))
  /\ (forall item,
        MD_Name item = Some "CpuUtilization" ->
        MD_Dimensions item
          = <["availabilityDomain" := "AD-1"]> (<["shape" := "VM.Standard"]> ∅) ->
        series_name rangeOrder item w
        = (Ok "CpuUtilization, {AD-1, VM.Standard}", next_range w)).
Proof.
  split_and!.
  - intros item Hname Hdims.
    rewrite (series_name_eval item "CpuUtilization" w Hname). cbn zeta.
    pose proof (rangeOrder_perm (ranges w) (MD_Dimensions item)) as Hperm.
    rewrite Hdims in *. rewrite map_to_list_singleton in Hperm.
    apply Permutation_singleton_r in Hperm. rewrite Hperm.
    reflexivity.
  - intros item itemName ks Hname Hnone Hperm Hsorted.
    by apply series_name_fallback.
  - intros item Hname Hdims.
    rewrite (series_name_fallback item "CpuUtilization" ["availabilityDomain"; "shape"] w
               Hname).
    + rewrite Hdims. vm_compute. reflexivity.
    + intros key [v Hv]. rewrite Hdims in Hv.
      destruct (decide (key = "availabilityDomain")) as [->|Hne1]; [done|].
      destruct (decide (key = "shape")) as [->|Hne2]; [done|].
      by rewrite !lookup_insert_ne in Hv.
    + rewrite Hdims. vm_compute. apply Permutation_swap.
    + repeat constructor.
Qed.
End SeriesName.

Lemma series_name_spec_witness :
  series_name listing_order (sample_item {[ "resourceDisplayName" := "vm1" ]}) fresh_world
  = (Ok "CpuUtilization, {vm1}", next_range fresh_world)
  /\ series_name listing_order
       (sample_item (<["availabilityDomain" := "AD-1"]> (<["shape" := "VM.Standard"]> ∅)))
       fresh_world
     = (Ok "CpuUtilization, {AD-1, VM.Standard}", next_range fresh_world).
Proof.
  destruct (series_name_spec listing_order listing_order_perm fresh_world)
    as (Hvm & _ & Hdomain).
  split; [apply Hvm|apply Hdomain]; reflexivity.
Defined.

(** Dimensions [a] with the empty value and [b = x]: no key matches, the
    values in key order are the empty string and [x], and the name has only
    [x] between the braces, not [, x]. *)
Lemma empty_value_is_skipped :
  let dimensions : gmap string string := <["a" := ""]> (<["b" := "x"]> ∅) in
  (forall key, is_Some (dimensions !! key) -> re_MatchString key = false)
  /\ (series_name listing_order (sample_item dimensions) fresh_world).1
     = Ok "CpuUtilization, {x}"
  /\ "CpuUtilization" +:+ ", {" +:+ join ", " (map (at_key dimensions) ["a"; "b"]) +:+ "}"
     = "CpuUtilization, {, x}".
Proof.
  intros dimensions. split_and!.
  - intros key [v Hv].
    destruct (decide (key = "a")) as [->|Hne1]; [done|].
    destruct (decide (key = "b")) as [->|Hne2]; [done|].
    unfold dimensions in Hv. by rewrite !lookup_insert_ne in Hv.
  - vm_compute. reflexivity.
  - vm_compute. reflexivity.
Qed.

(** ** The requests that go out *)

Section Requests.
Variable cloud : Cloud.
Variable rangeOrder : nat -> gmap string string -> list (string * string).











End Requests.

(** ** The lookup responders and [Query] *)

Section Lookups.
Variable cloud : Cloud.
Variable rangeOrder : nat -> gmap string string -> list (string * string).


Lemma bind_Ok {A B} (m : M A) (k : A -> M B) w b w' :
  bind m k w = (Ok b, w') <-> exists a w1, m w = (Ok a, w1) /\ k a w1 = (Ok b, w').
Proof.
  unfold bind. destruct (m w) as [[a| | |] w1]; split.
  - intros Hk. by exists a, w1.
  - by intros (a' & w1' & [= <- <-] & Hk).
  - done.
  - by intros (a' & w1' & ? & _).
  - done.
  - by intros (a' & w1' & ? & _).
  - done.
  - by intros (a' & w1' & ? & _).
Qed.


End Lookups.


Section Responders.
Variable cloud : Cloud.
Variable rangeOrder : nat -> gmap string string -> list (string * string).




(** An unknown environment stops [Query] before anything is built. *)
Lemma Query_unknown_environment fuel tsdbReq q qs w :
  Req_Queries tsdbReq = q :: qs ->
  json_Environment (Q_ModelJson q) <> "local" ->
  json_Environment (Q_ModelJson q) <> "OCI Instance" ->
  config (o w) = None ->
  Query cloud rangeOrder fuel tsdbReq w
  = (Failed (errors_Wrap (errors_New "unknown environment type") "broken environment"), w).
Proof.
  intros Hq Hlocal Hinstance Hconfig. unfold Query. rewrite Hq.
  unfold bind at 1. cbn [index0]. unfold ret at 1. cbn zeta.
  unfold bind at 1. unfold bootstrap. unfold bind at 1. unfold get at 1.
  rewrite Hconfig. unfold bind at 1. unfold wrapErr, getConfigProvider.
  cbn [Environment Unmarshal_Common].
  by rewrite !bool_decide_eq_false_2 by done.
Qed.

(** One page of items named [A], [B], [A] gives the rows [A], [B]. *)
Lemma searchResponse_ABA fuel tsdbReq q w page :
  Req_Queries tsdbReq = [q] ->
  0 < fuel ->
  (forall reg req, ListMetrics cloud reg req = (page, None)) ->
  LMRes_OpcNextPage page = None ->
  map Metric_Name (LMRes_Items page) = [Some "A"; Some "B"; Some "A"] ->
  exists w',
    searchResponse cloud fuel tsdbReq w
    = (Ok (table_response "search"
             {| Table_Columns := [text_column];
                Table_Rows := [text_row "A"; text_row "B"] |}), w').
Proof.
  intros Hq Hfuel Hpage Hnext Hnames.
  destruct fuel as [|fuel]; [lia|].
  unfold searchResponse, per_query. rewrite Hq. cbn [forM].
  unfold search_query. cbn zeta. unfold searchHelper.
  unfold bind at 1. unfold bind at 1. unfold bind at 1. unfold bind at 1. unfold wrapErr.
  rewrite searchHelper_loop_step. cbn zeta. rewrite Hpage, Hnext.
  rewrite bool_decide_eq_true_2 by done. cbn [orb app].
  destruct (LMRes_Items page) as [|a [|b [|a' [|? ?]]]]; try done.
  injection Hnames as Ha Hb Ha'.
  unfold search_rows. cbn [forM]. unfold bind, ret. cbn [fst snd].
  rewrite Ha. cbn [deref ret]. unfold ret. rewrite lookup_empty. cbn [fst snd].
  rewrite Hb. cbn [deref]. unfold ret. rewrite lookup_insert_ne, lookup_empty by done.
  cbn [fst snd]. rewrite Ha'. cbn [deref]. unfold ret.
  rewrite lookup_insert_ne, lookup_insert_eq by done.
  by eexists.
Qed.

(** C9.  With no configuration cached, a request whose environment is
    neither [local] nor [OCI Instance] makes [Query] fail with the
    configuration error and leave the world as it was: no client is built,
    no call is made, no handler runs.  And a search over one page of items
    named [A], [B], [A] answers with the rows [A], [B]. *)
Theorem unknown_environment_and_search_rows fuel tsdbReq q w :
  (forall qs,
     Req_Queries tsdbReq = q :: qs ->
     json_Environment (Q_ModelJson q) <> "local" ->
     json_Environment (Q_ModelJson q) <> "OCI Instance" ->
     config (o w) = None ->
     Query cloud rangeOrder fuel tsdbReq w
     = (Failed (errors_Wrap (errors_New "unknown environment type") "broken environment"),
        w))
  /\ (forall page,
        Req_Queries tsdbReq = [q] ->
        0 < fuel ->
        (forall reg req, ListMetrics cloud reg req = (page, None)) ->
        LMRes_OpcNextPage page = None ->
        map Metric_Name (LMRes_Items page) = [Some "A"; Some "B"; Some "A"] ->
        exists w',
          searchResponse cloud fuel tsdbReq w
          = (Ok (table_response "search"
                   {| Table_Columns := [text_column];
                      Table_Rows := [text_row "A"; text_row "B"] |}), w')).
Proof.
  split.
  - intros qs. apply Query_unknown_environment.
  - intros page. apply searchResponse_ABA.
Qed.
End Responders.

(** ** Errors in a batch of metrics queries *)

Section Batch.
Variable cloud : Cloud.
Variable rangeOrder : nat -> gmap string string -> list (string * string).

Lemma summarize_query_run tsdbReq query w :
  exists w1,
    summarize_query cloud tsdbReq query w
    = match summarize_call cloud tsdbReq query with
      | (_, Some e) => (Failed (errors_Wrap e ""), w1)
      | (res, None) => (Ok {| ociRes := res; query := query; err := None |}, w1)
      end.
Proof.
  unfold summarize_query, summarize_call. cbn zeta.
  unfold bind at 1. unfold metricsClient_SetRegion, modify.
  unfold bind at 1. unfold metricsClient_SummarizeMetricsData.
  eexists. cbn [fst snd o set_o metricsClient mc_region].
  destruct (SummarizeMetricsData cloud _ _) as [res [e|]]; reflexivity.
Qed.

(** One failing call ends the first loop, and with it the request. *)
Lemma summarize_all_aborts tsdbReq queries : forall results w,
  Exists (fun query => (summarize_call cloud tsdbReq query).2 <> None) queries ->
  exists e w',
    forM queries results
      (fun results query => r <- summarize_query cloud tsdbReq query ;; ret (results ++ [r])) w
    = (Failed e, w').
Proof.
  induction queries as [|query queries IH]; intros results w Hex; [by inversion Hex|].
  cbn [forM]. unfold bind at 1. unfold bind at 1.
  destruct (summarize_query_run tsdbReq query w) as [w1 ->].
  destruct (summarize_call cloud tsdbReq query) as [res [e|]] eqn:Hcall.
  - by eexists _, _.
  - unfold ret at 1. apply IH.
    inversion Hex as [? ? Hhere|]; subst; [|done]. by rewrite Hcall in Hhere.
Qed.

Lemma queryResponse_aborts tsdbReq w :
  Exists (fun query => (summarize_call cloud tsdbReq query).2 <> None) (Req_Queries tsdbReq) ->
  exists e w', queryResponse cloud rangeOrder tsdbReq w = (Failed e, w').
Proof.
  intros Hex. unfold queryResponse, summarize_all. unfold bind at 1.
  destruct (summarize_all_aborts tsdbReq (Req_Queries tsdbReq) [] w Hex) as (e & w' & ->).
  by eexists _, _.
Qed.

(** No entry that leaves the first loop carries an error. *)
Lemma summarize_all_err tsdbReq queries : forall results w results' w',
  Forall (fun r => err r = None) results ->
  forM queries results
    (fun results query => r <- summarize_query cloud tsdbReq query ;; ret (results ++ [r])) w
  = (Ok results', w') ->
  Forall (fun r => err r = None) results'.
Proof.
  induction queries as [|query queries IH]; intros results w results' w' Hall Hrun;
    cbn [forM] in Hrun.
  - by injection Hrun as <- <-.
  - unfold bind at 1 in Hrun. unfold bind at 1 in Hrun.
    destruct (summarize_query_run tsdbReq query w) as [w1 Hq]. rewrite Hq in Hrun.
    destruct (summarize_call cloud tsdbReq query) as [res [e|]]; [done|].
    unfold ret at 1 in Hrun. eapply IH; [|exact Hrun].
    apply Forall_app. split; [done|]. by repeat constructor.
Qed.
End Batch.


Lemma unknown_environment_and_search_rows_witness :
  Query quiet_cloud listing_order 5 (batch [kubernetes_query]) fresh_world
  = (Failed (errors_Wrap (errors_New "unknown environment type") "broken environment"),
     fresh_world)
  /\ exists w',
       searchResponse aba_cloud 5 (batch [search_query_A]) fresh_world
       = (Ok (table_response "search"
                {| Table_Columns := [text_column];
                   Table_Rows := [text_row "A"; text_row "B"] |}), w').
Proof.
  split.
  - destruct (unknown_environment_and_search_rows quiet_cloud listing_order 5
                (batch [kubernetes_query]) kubernetes_query fresh_world) as [Hunknown _].
    apply (Hunknown []).
    + reflexivity.
    + discriminate.
    + discriminate.
    + reflexivity.
  - destruct (unknown_environment_and_search_rows aba_cloud listing_order 5
                (batch [search_query_A]) search_query_A fresh_world) as [_ Hsearch].
    apply (Hsearch (aba_metrics "" (list_request "" sample_details None)).1).
    + reflexivity.
    + lia.
    + reflexivity.
    + reflexivity.
    + reflexivity.
Defined.

(** C1 (the code at the failing input).  A batch of three metrics queries,
    the second of which is throttled: the request fails as a whole, with the
    error of the second query, after two calls; the third query is never
    sent and nothing is returned for the first. *)
Lemma queryResponse_aborts_batch :
  let run :=
    queryResponse flaky_cloud listing_order
      (batch [ metrics_query "A" "CpuUtilization[1m].mean()";
               metrics_query "B" "Bad[1m].mean()";
               metrics_query "C" "MemoryUtilization[1m].mean()" ])
      fresh_world in
  run.1 = Failed (errors_Wrap (sdk_failure "Service error:TooManyRequests") "")
  /\ length (trace run.2) = 2.
Proof. intros run. split; vm_compute; reflexivity. Qed.

(** The same service, a batch of one good query: one result, one series. *)
Lemma queryResponse_sample :
  (queryResponse flaky_cloud listing_order
     (batch [ metrics_query "A" "CpuUtilization[1m].mean()" ]) fresh_world).1
  = Ok {| Results :=
            [ {| QR_Error := ""; QR_RefId := "A";
                 QR_Series :=
                   [ {| TS_Name := "CpuUtilization, {vm1}";
                        TS_Points :=
                          [ {| Point_Timestamp := 1560000060000%Z;
                               Point_Value := 4625196817309499392%N |} ] |} ];
                 QR_Tables := [] |} ] |}.
Proof. vm_compute. reflexivity. Qed.

(** * The rest of the plugin *)

(** ** What a request leaves alone *)

Lemma Query_route cloud rangeOrder fuel tsdbReq :
  Query cloud rangeOrder fuel tsdbReq
  = (q0 <- index0 (Req_Queries tsdbReq) ;;
     bootstrap cloud (json_Environment (Q_ModelJson q0)) ;;
     route cloud rangeOrder fuel (json_QueryType (Q_ModelJson q0)) tsdbReq).
Proof. reflexivity. Qed.

Section Frame.
Variable cloud : Cloud.
Variable rangeOrder : nat -> gmap string string -> list (string * string).
Variable allowed : Call -> bool.
Variable R : World -> World -> Prop.
Hypothesis HR : framed allowed R.

Lemma preserves_ret {A} (a : A) : preserves R (ret a).
Proof. intros w. apply (framed_refl _ _ HR). Qed.

Lemma preserves_fail {A} e : preserves R (fail (A:=A) e).
Proof. intros w. apply (framed_refl _ _ HR). Qed.

Lemma preserves_panic {A} : preserves R (panic (A:=A)).
Proof. intros w. apply (framed_refl _ _ HR). Qed.

Lemma preserves_spin {A} : preserves R (spin (A:=A)).
Proof. intros w. apply (framed_refl _ _ HR). Qed.

Lemma preserves_get : preserves R get.
Proof. intros w. apply (framed_refl _ _ HR). Qed.

Lemma preserves_deref {A} (p : option A) : preserves R (deref p).
Proof. destruct p; [apply preserves_ret|apply preserves_panic]. Qed.

Lemma preserves_index0 {A} (xs : list A) : preserves R (index0 xs).
Proof. destruct xs; [apply preserves_panic|apply preserves_ret]. Qed.

Lemma preserves_bind {A B} (m : M A) (k : A -> M B) :
  preserves R m -> (forall a, preserves R (k a)) -> preserves R (bind m k).
Proof.
  intros Hm Hk w. unfold bind. specialize (Hm w).
  destruct (m w) as [[a| | |] w']; cbn [snd] in *; try done.
  eapply (framed_trans _ _ HR); [exact Hm|apply Hk].
Qed.

Lemma preserves_forM {A S} (xs : list A) (body : S -> A -> M S) :
  (forall acc x, preserves R (body acc x)) -> forall acc, preserves R (forM xs acc body).
Proof.
  intros Hbody. induction xs as [|x xs IH]; intros acc; cbn [forM].
  - apply preserves_ret.
  - apply preserves_bind; [apply Hbody|apply IH].
Qed.

Lemma preserves_wrapErr {A} msg (m : M A) : preserves R m -> preserves R (wrapErr msg m).
Proof.
  intros Hm w. specialize (Hm w). unfold wrapErr.
  by destruct (m w) as [[a| | |] w'].
Qed.

Lemma preserves_range m : preserves R (range rangeOrder m).
Proof. intros w. apply (framed_range _ _ HR). Qed.

Lemma preserves_metrics_region region : preserves R (metricsClient_SetRegion region).
Proof. intros w. apply (framed_metrics_region _ _ HR). Qed.

Lemma preserves_identity_region region : preserves R (identityClient_SetRegion region).
Proof. intros w. apply (framed_identity_region _ _ HR). Qed.

Lemma preserves_per_query table queries (body : Query_ -> M (list TableRow)) :
  (forall query, preserves R (body query)) -> preserves R (per_query table queries body).
Proof.
  intros Hbody. apply preserves_forM. intros acc query.
  apply preserves_bind; [apply Hbody|]. intros rows. apply preserves_ret.
Qed.

Lemma preserves_series_name item : preserves R (series_name rangeOrder item).
Proof.
  apply preserves_bind; [apply preserves_deref|]. intros itemName.
  apply preserves_bind; [apply preserves_range|]. intros entries.
  apply preserves_bind.
  - apply preserves_forM. intros [[tName keys] i] entry.
    apply preserves_bind; [|intros; apply preserves_ret].
    unfold set_index. destruct (_ <? _); [apply preserves_ret|apply preserves_panic].
  - intros [[tName keys] i]. destruct (String.eqb _ _); apply preserves_ret.
Qed.

Lemma preserves_series_points item : preserves R (series_points item).
Proof.
  apply preserves_forM. intros p metric.
  apply preserves_bind; [apply preserves_deref|]. intros ts.
  apply preserves_bind; [apply preserves_deref|]. intros; apply preserves_ret.
Qed.

Lemma preserves_resolve_loop fuel tenancyOcid names parents : forall full,
  preserves R (resolve_loop rangeOrder fuel tenancyOcid names parents full).
Proof.
  induction fuel as [|fuel IH]; intros full; cbn [resolve_loop].
  - apply preserves_spin.
  - destruct (_ <? _); [|apply preserves_ret].
    apply preserves_bind; [apply preserves_range|]. intros entries. apply IH.
Qed.

(** *** The handlers that call [ListMetrics] *)

Section ListsMetrics.
Hypothesis allowed_ListMetrics : forall region req, allowed (CallListMetrics region req) = true.

Lemma preserves_ListMetrics req : preserves R (metricsClient_ListMetrics cloud req).
Proof. intros w. by apply (framed_call _ _ HR). Qed.

Lemma preserves_searchHelper_loop fuel region compartment metricDetails :
  forall items page pageNumber,
    preserves R (searchHelper_loop cloud fuel region compartment metricDetails items page
                   pageNumber).
Proof.
  induction fuel as [|fuel IH]; intros items page pageNumber; cbn [searchHelper_loop].
  - apply preserves_spin.
  - apply preserves_bind; [apply preserves_metrics_region|]. intros _.
    apply preserves_bind; [apply preserves_ListMetrics|]. intros r.
    destruct r.2; [apply preserves_fail|].
    destruct (bool_decide _ || _); [apply preserves_ret|apply IH].
Qed.

Lemma preserves_searchHelper fuel region compartment metricDetails :
  preserves R (searchHelper cloud fuel region compartment metricDetails).
Proof. apply preserves_searchHelper_loop. Qed.

Lemma preserves_dimensionResponse fuel tsdbReq :
  preserves R (dimensionResponse cloud rangeOrder fuel tsdbReq).
Proof.
  apply preserves_bind; [|intros; apply preserves_ret].
  apply preserves_per_query. intros query.
  apply preserves_bind; [apply preserves_wrapErr, preserves_searchHelper|]. intros items.
  apply preserves_forM. intros rows item.
  apply preserves_bind; [apply preserves_range|]. intros; apply preserves_ret.
Qed.

Lemma preserves_namespaceResponse fuel tsdbReq :
  preserves R (namespaceResponse cloud fuel tsdbReq).
Proof.
  apply preserves_bind; [|intros; apply preserves_ret].
  apply preserves_per_query. intros query.
  apply preserves_bind; [apply preserves_wrapErr, preserves_searchHelper|]. intros items.
  apply preserves_forM. intros rows item.
  apply preserves_bind; [apply preserves_deref|]. intros; apply preserves_ret.
Qed.

Lemma preserves_resourcegroupsResponse fuel tsdbReq :
  preserves R (resourcegroupsResponse cloud fuel tsdbReq).
Proof.
  apply preserves_bind; [|intros; apply preserves_ret].
  apply preserves_per_query. intros query.
  apply preserves_bind; [apply preserves_wrapErr, preserves_searchHelper|]. intros items.
  apply preserves_bind; [apply preserves_deref|]. intros placeholder.
  apply preserves_forM. intros rows item.
  apply preserves_bind; [apply preserves_deref|]. intros; apply preserves_ret.
Qed.

Lemma preserves_searchResponse fuel tsdbReq :
  preserves R (searchResponse cloud fuel tsdbReq).
Proof.
  apply preserves_bind; [|intros; apply preserves_ret].
  apply preserves_per_query. intros query.
  apply preserves_bind; [apply preserves_wrapErr, preserves_searchHelper|]. intros items.
  apply preserves_bind; [|intros; apply preserves_ret].
  apply preserves_forM. intros st item.
  apply preserves_bind; [apply preserves_deref|]. intros name.
  destruct (st.2 !! name); apply preserves_ret.
Qed.

Lemma preserves_testResponse tsdbReq : preserves R (testResponse cloud tsdbReq).
Proof.
  apply preserves_bind; [apply preserves_index0|]. intros q0.
  apply preserves_bind; [apply preserves_metrics_region|]. intros _.
  apply preserves_bind; [apply preserves_ListMetrics|]. intros r.
  apply preserves_bind; [apply preserves_deref|]. intros status.
  destruct (_ && _); [apply preserves_ret|].
  destruct r.2; [apply preserves_fail|apply preserves_ret].
Qed.

End ListsMetrics.

(** *** The handler of metrics queries *)

Section Summarizes.
Hypothesis allowed_SummarizeMetricsData :
  forall region req, allowed (CallSummarizeMetricsData region req) = true.

Lemma preserves_queryResponse tsdbReq : preserves R (queryResponse cloud rangeOrder tsdbReq).
Proof.
  apply preserves_bind.
  - apply preserves_forM. intros results query.
    apply preserves_bind; [|intros; apply preserves_ret].
    apply preserves_bind; [apply preserves_metrics_region|]. intros _.
    apply preserves_bind; [intros w; by apply (framed_call _ _ HR)|]. intros r.
    destruct r.2; [apply preserves_fail|apply preserves_ret].
  - intros results. apply preserves_bind; [|intros; apply preserves_ret].
    apply preserves_forM. intros queryRes q.
    apply preserves_bind; [|intros; apply preserves_ret].
    unfold reshape. destruct (err q); [apply preserves_ret|].
    apply preserves_bind; [|intros; apply preserves_ret].
    apply preserves_forM. intros series item.
    apply preserves_bind; [apply preserves_series_name|]. intros name.
    apply preserves_bind; [apply preserves_series_points|]. intros; apply preserves_ret.
Qed.

End Summarizes.

(** *** The handler of regions *)

Section ListsRegions.
Hypothesis allowed_ListRegions : forall region, allowed (CallListRegions region) = true.

Lemma preserves_regionsResponse tsdbReq : preserves R (regionsResponse cloud tsdbReq).
Proof.
  apply preserves_bind; [|intros; apply preserves_ret].
  apply preserves_per_query. intros query.
  apply preserves_bind; [intros w; by apply (framed_call _ _ HR)|]. intros r.
  destruct r.2; [apply preserves_fail|].
  apply preserves_forM. intros rows item.
  apply preserves_bind; [apply preserves_deref|]. intros; apply preserves_ret.
Qed.

End ListsRegions.

(** *** The handler of compartments *)

Section Refreshes.
Hypothesis allowed_refresh : forall c, of_refresh c = true -> allowed c = true.

Lemma preserves_listCompartments_loop fuel rootCompartment : forall page maps,
  preserves R (listCompartments_loop cloud fuel rootCompartment page maps).
Proof.
  induction fuel as [|fuel IH]; intros page maps; cbn [listCompartments_loop].
  - apply preserves_spin.
  - apply preserves_bind; [intros w; by apply (framed_call _ _ HR), allowed_refresh|].
    intros r. destruct r.2; [apply preserves_fail|].
    apply preserves_bind.
    + apply preserves_forM. intros maps' c. unfold note_compartment.
      destruct (Cmpt_LifecycleState c); try apply preserves_ret.
      apply preserves_bind; [apply preserves_deref|]. intros id.
      apply preserves_bind; [apply preserves_deref|]. intros name.
      apply preserves_bind; [apply preserves_deref|]. intros; apply preserves_ret.
    + intros maps'. destruct (LCRes_OpcNextPage r.1); [apply IH|apply preserves_ret].
Qed.

Lemma preserves_getCompartments fuel region rootCompartment :
  preserves R (getCompartments cloud rangeOrder fuel region rootCompartment).
Proof.
  apply preserves_bind; [intros w; by apply (framed_call _ _ HR), allowed_refresh|].
  intros r. destruct r.2; [apply preserves_fail|].
  apply preserves_bind; [apply preserves_deref|]. intros tenancyName.
  apply preserves_bind; [apply preserves_identity_region|]. intros _.
  apply preserves_bind; [apply preserves_listCompartments_loop|]. intros maps.
  apply preserves_bind; [apply preserves_resolve_loop|]. intros full.
  apply preserves_bind; [apply preserves_range|]. intros; apply preserves_ret.
Qed.

Hypothesis R_cached : forall m w, R w (cached m w).

Lemma preserves_compartmentsResponse fuel tsdbReq :
  preserves R (compartmentsResponse cloud rangeOrder fuel tsdbReq).
Proof.
  apply preserves_bind; [apply preserves_get|]. intros w0.
  apply preserves_bind; [apply preserves_index0|]. intros q0.
  apply preserves_bind.
  - destruct (_ || _); [|apply preserves_ret].
    intros w. pose proof (preserves_getCompartments fuel
      (Region_ (Search_Common (Unmarshal_Search (Q_ModelJson q0))))
      (TenancyOCID (Search_Common (Unmarshal_Search (Q_ModelJson q0)))) w) as Hget.
    destruct (getCompartments _ _ _ _ _ w) as [[m| | |] w']; cbn [snd] in *; try done.
    + eapply (framed_trans _ _ HR); [exact Hget|]. apply R_cached.
    + eapply (framed_trans _ _ HR); [exact Hget|].
      by apply (framed_call _ _ HR), allowed_refresh.
  - intros _. apply preserves_bind; [apply preserves_get|]. intros w1.
    apply preserves_bind; [apply preserves_range|]. intros; apply preserves_ret.
Qed.

End Refreshes.

(** *** The [switch] of [Query] *)

Section Routes.
Hypothesis allowed_services : forall c, service_call c = true -> allowed c = true.

(** Every handler but the one for compartments. *)
Lemma preserves_route fuel queryType tsdbReq :
  queryType <> "compartments" ->
  preserves R (route cloud rangeOrder fuel queryType tsdbReq).
Proof.
  intros Htype. unfold route. rewrite bool_decide_eq_false_2 by done.
  repeat case_bool_decide;
    try (apply preserves_testResponse; intros; by apply allowed_services);
    (apply preserves_bind; [|intros; apply preserves_ret]).
  - apply preserves_dimensionResponse. intros. by apply allowed_services.
  - apply preserves_namespaceResponse. intros. by apply allowed_services.
  - apply preserves_resourcegroupsResponse. intros. by apply allowed_services.
  - apply preserves_regionsResponse. intros. by apply allowed_services.
  - apply preserves_searchResponse. intros. by apply allowed_services.
  - apply preserves_queryResponse. intros. by apply allowed_services.
Qed.

Hypothesis R_cached : forall m w, R w (cached m w).

Lemma preserves_route_all fuel queryType tsdbReq :
  preserves R (route cloud rangeOrder fuel queryType tsdbReq).
Proof.
  destruct (decide (queryType = "compartments")) as [->|Htype].
  - unfold route. rewrite bool_decide_eq_true_2 by done.
    apply preserves_bind; [|intros; apply preserves_ret].
    apply preserves_compartmentsResponse; [|done].
    intros c Hc. apply allowed_services. by destruct c.
  - by apply preserves_route.
Qed.

End Routes.

End Frame.

Lemma same_clients_refl w : same_clients w w.
Proof. split_and!; [done|done|done|]. exists []. by rewrite app_nil_r. Qed.

Lemma same_clients_trans w1 w2 w3 :
  same_clients w1 w2 -> same_clients w2 w3 -> same_clients w1 w3.
Proof.
  intros (Hc & Hm & Hi & calls & Ht & Hs) (Hc' & Hm' & Hi' & calls' & Ht' & Hs').
  split_and!; [congruence|congruence|congruence|].
  exists (calls ++ calls'). split.
  - by rewrite Ht', Ht, app_assoc.
  - rewrite forallb_app. by rewrite Hs, Hs'.
Qed.

Lemma same_clients_call c w : service_call c = true -> same_clients w (record c w).
Proof.
  intros Hc. split_and!; [done|done|done|]. exists [c]. split; [done|].
  cbn. by rewrite Hc.
Qed.

Lemma same_clients_quiet w w' :
  config (o w') = config (o w) ->
  mc_provider (metricsClient (o w')) = mc_provider (metricsClient (o w)) ->
  ic_provider (identityClient (o w')) = ic_provider (identityClient (o w)) ->
  trace w' = trace w ->
  same_clients w w'.
Proof.
  intros Hc Hm Hi Ht. split_and!; [done|done|done|].
  exists []. by rewrite app_nil_r.
Qed.

Lemma same_stamp_framed : framed service_call same_stamp.
Proof. split; try done. unfold same_stamp. congruence. Qed.

Lemma same_cache_framed : framed service_call same_cache.
Proof. split; try done. unfold same_cache. congruence. Qed.

Lemma same_clients_framed : framed service_call same_clients.
Proof.
  split.
  - apply same_clients_refl.
  - apply same_clients_trans.
  - intros region w. by apply same_clients_quiet.
  - intros region w. by apply same_clients_quiet.
  - apply same_clients_call.
  - intros w. by apply same_clients_quiet.
Qed.

Lemma only_framed allowed : framed allowed (only allowed).
Proof.
  split.
  - intros w. exists []. by rewrite app_nil_r.
  - intros w1 w2 w3 (calls & Ht & Hs) (calls' & Ht' & Hs'). exists (calls ++ calls'). split.
    + by rewrite Ht', Ht, app_assoc.
    + rewrite forallb_app. by rewrite Hs, Hs'.
  - intros region w. exists []. by rewrite app_nil_r.
  - intros region w. exists []. by rewrite app_nil_r.
  - intros c w Hc. exists [c]. split; [done|]. cbn. by rewrite Hc.
  - intros w. exists []. by rewrite app_nil_r.
Qed.

Section Bootstrap.
Variable cloud : Cloud.
Variable rangeOrder : nat -> gmap string string -> list (string * string).

Lemma Query_cons fuel tsdbReq q qs w :
  Req_Queries tsdbReq = q :: qs ->
  Query cloud rangeOrder fuel tsdbReq w
  = (bootstrap cloud (json_Environment (Q_ModelJson q)) ;;
     route cloud rangeOrder fuel (json_QueryType (Q_ModelJson q)) tsdbReq) w.
Proof. intros Hq. rewrite Query_route, Hq. reflexivity. Qed.

(** [getConfigProvider] touches nothing. *)
Lemma getConfigProvider_world environment w :
  (getConfigProvider cloud environment w).2 = w.
Proof.
  unfold getConfigProvider. repeat case_bool_decide; try done.
  by destruct (InstancePrincipal_err cloud).
Qed.

(** The first block of [Query] when no configuration is cached. *)
Lemma bootstrap_run environment w :
  config (o w) = None ->
  bootstrap cloud environment w
  = match (getConfigProvider cloud environment w).1 with
    | Ok p =>
        let w1 := record (NewMonitoringClient p) w in
        match NewMonitoringClientWithConfigurationProvider cloud p with
        | Some e => (Failed (errors_New ("error with client" +:+ Error e)), w1)
        | None =>
            let w2 := record (NewIdentityClient p) w1 in
            match NewIdentityClientWithConfigurationProvider cloud p with
            | Some e => (Panicked, record (LogError "error with client") w2)
            | None => (Ok tt, (set_clients cloud p w2).2)
            end
        end
    | Failed e => (Failed (errors_Wrap e "broken environment"), w)
    | Panicked => (Panicked, w)
    | Spinning => (Spinning, w)
    end.
Proof.
  intros Hconfig. unfold bootstrap. unfold bind at 1. unfold get at 1. rewrite Hconfig.
  unfold bind at 1. unfold wrapErr.
  pose proof (getConfigProvider_world environment w) as Hw.
  destruct (getConfigProvider cloud environment w) as [[p| | |] w0]; cbn [fst snd] in *;
    subst w0; try done.
  unfold bind at 1. unfold modify at 1.
  destruct (NewMonitoringClientWithConfigurationProvider cloud p); [done|].
  unfold bind at 1. unfold modify at 1.
  by destruct (NewIdentityClientWithConfigurationProvider cloud p).
Qed.

Lemma bootstrap_configured environment w p :
  config (o w) = Some p -> bootstrap cloud environment w = (Ok tt, w).
Proof. intros Hconfig. unfold bootstrap, bind, get. by rewrite Hconfig. Qed.

(** [bootstrap] keeps whatever the construction of clients, the trace and
    the fields of the two clients and [config] do not matter to. *)
Lemma preserves_bootstrap (R : World -> World -> Prop) environment :
  (forall w, R w w) ->
  (forall w1 w2 w3, R w1 w2 -> R w2 w3 -> R w1 w3) ->
  (forall c w, R w (record c w)) ->
  (forall p w, R w (set_clients cloud p w).2) ->
  preserves R (bootstrap cloud environment).
Proof.
  intros R_refl R_trans R_call R_clients w.
  destruct (config (o w)) as [p|] eqn:Hconfig.
  - rewrite (bootstrap_configured environment w p Hconfig). apply R_refl.
  - rewrite (bootstrap_run environment w Hconfig).
    destruct (getConfigProvider cloud environment w).1 as [p| | |]; try apply R_refl.
    cbn zeta.
    destruct (NewMonitoringClientWithConfigurationProvider cloud p); [apply R_call|].
    destruct (NewIdentityClientWithConfigurationProvider cloud p); cbn [snd].
    + eapply R_trans; [apply R_call|]. eapply R_trans; [apply R_call|]. apply R_call.
    + eapply R_trans; [apply R_call|]. eapply R_trans; [apply R_call|]. apply R_clients.
Qed.

Lemma Query_same_stamp fuel tsdbReq : preserves same_stamp (Query cloud rangeOrder fuel tsdbReq).
Proof.
  pose proof same_stamp_framed as HR. rewrite Query_route.
  apply (preserves_bind _ _ HR); [apply (preserves_index0 _ _ HR)|]. intros q0.
  apply (preserves_bind _ _ HR).
  - apply preserves_bootstrap; [apply HR|apply HR|done|done].
  - intros _. by apply (preserves_route_all _ _ _ _ HR).
Qed.

(** X14.  [Query] never writes the time stamp of the compartment cache,
    and writes the cache itself only for a request whose first query has
    the type [compartments]. *)
Theorem Query_keeps_the_cache fuel tsdbReq w :
  let w' := (Query cloud rangeOrder fuel tsdbReq w).2 in
  timeCacheUpdated (o w') = timeCacheUpdated (o w)
  /\ ((forall q, head (Req_Queries tsdbReq) = Some q ->
                 json_QueryType (Q_ModelJson q) <> "compartments") ->
      nameToOCID (o w') = nameToOCID (o w)).
Proof.
  intros w'. unfold w'. split.
  - apply Query_same_stamp.
  - intros Htype.
    destruct (Req_Queries tsdbReq) as [|q qs] eqn:Hq.
    { rewrite Query_route, Hq. done. }
    specialize (Htype q eq_refl).
    rewrite (Query_cons fuel tsdbReq q qs w Hq).
    assert (preserves same_cache
              (bootstrap cloud (json_Environment (Q_ModelJson q)) ;;
               route cloud rangeOrder fuel (json_QueryType (Q_ModelJson q)) tsdbReq))
      as Hkeeps; [|apply Hkeeps].
    pose proof same_cache_framed as HR.
    apply (preserves_bind _ _ HR).
    + apply preserves_bootstrap; [apply HR|apply HR|done|done].
    + intros _. by apply (preserves_route _ _ _ _ HR).
Qed.

(** X16.  Once a configuration is cached, [Query] never builds a client
    again and never replaces the configuration or the provider of a client,
    whatever the request says (its [Environment] is not read); the calls
    it adds are service calls and log lines only. *)
Theorem Query_configured_once fuel tsdbReq w p :
  config (o w) = Some p ->
  let w' := (Query cloud rangeOrder fuel tsdbReq w).2 in
  config (o w') = Some p
  /\ mc_provider (metricsClient (o w')) = mc_provider (metricsClient (o w))
  /\ ic_provider (identityClient (o w')) = ic_provider (identityClient (o w))
  /\ exists calls, trace w' = trace w ++ calls /\ forallb service_call calls = true.
Proof.
  intros Hconfig w'.
  assert (same_clients w w') as (Hc & Hm & Hi & Hcalls).
  { unfold w'. rewrite Query_route.
    destruct (Req_Queries tsdbReq) as [|q qs]; [apply same_clients_refl|].
    cbn [index0]. unfold bind at 1. unfold ret at 1. unfold bind at 1.
    rewrite (bootstrap_configured _ w p Hconfig).
    apply (preserves_route_all _ _ _ _ same_clients_framed); [done|].
    intros m w0. by apply same_clients_quiet. }
  split_and!; [congruence|done|done|done].
Qed.

(** X17.  The first request on a datasource without configuration, when the
    provider and both clients can be had: the monitoring client is built
    first, the identity client second, both from the provider of the
    request's environment, and that provider becomes the configuration. *)
Theorem Query_first_request fuel tsdbReq q qs w p :
  Req_Queries tsdbReq = q :: qs ->
  config (o w) = None ->
  getConfigProvider cloud (json_Environment (Q_ModelJson q)) w = (Ok p, w) ->
  NewMonitoringClientWithConfigurationProvider cloud p = None ->
  NewIdentityClientWithConfigurationProvider cloud p = None ->
  let w' := (Query cloud rangeOrder fuel tsdbReq w).2 in
  config (o w') = Some p
  /\ mc_provider (metricsClient (o w')) = Some p
  /\ ic_provider (identityClient (o w')) = Some p
  /\ exists calls,
       trace w' = trace w ++ NewMonitoringClient p :: NewIdentityClient p :: calls
       /\ forallb service_call calls = true.
Proof.
  intros Hq Hconfig Hprovider Hmon Hid w'.
  set (w1 := (set_clients cloud p
                (record (NewIdentityClient p) (record (NewMonitoringClient p) w))).2).
  assert (Query cloud rangeOrder fuel tsdbReq w
          = route cloud rangeOrder fuel (json_QueryType (Q_ModelJson q)) tsdbReq w1) as Hrun.
  { rewrite (Query_cons fuel tsdbReq q qs w Hq). unfold bind at 1.
    rewrite (bootstrap_run _ w Hconfig), Hprovider. cbn [fst]. cbn zeta.
    by rewrite Hmon, Hid. }
  unfold w'. rewrite Hrun.
  pose proof (preserves_route_all cloud rangeOrder service_call same_clients
                same_clients_framed (fun c Hc => Hc)) as Hroute.
  destruct (Hroute (fun m w0 => same_clients_quiet w0 (cached m w0) eq_refl eq_refl eq_refl eq_refl)
              fuel (json_QueryType (Q_ModelJson q)) tsdbReq w1)
    as (Hc & Hm & Hi & calls & Ht & Hs).
  split_and!; [by rewrite Hc|by rewrite Hm|by rewrite Hi|].
  exists calls. split; [|done]. rewrite Ht. unfold w1, set_clients, modify, record. cbn.
  by rewrite <- !app_assoc.
Qed.

(** X18.  What [Query] does when the first request cannot set the datasource
    up.  An error of the instance-principal provider is returned wrapped
    and nothing is called; an error of the monitoring client's constructor
    is returned as a new error; an error of the identity client's
    constructor is logged and then panics.  In each case the datasource is
    left without configuration and without clients. *)
Theorem Query_setup_failures fuel tsdbReq q qs w :
  Req_Queries tsdbReq = q :: qs ->
  config (o w) = None ->
  let environment := json_Environment (Q_ModelJson q) in
  let run := Query cloud rangeOrder fuel tsdbReq w in
  (forall e,
     environment = "OCI Instance" ->
     InstancePrincipal_err cloud = Some e ->
     run = (Failed (errors_Wrap e "broken environment"), w))
  /\ (forall p e,
        getConfigProvider cloud environment w = (Ok p, w) ->
        NewMonitoringClientWithConfigurationProvider cloud p = Some e ->
        exists msg, run = (Failed (errors_New msg), record (NewMonitoringClient p) w))
  /\ (forall p e,
        getConfigProvider cloud environment w = (Ok p, w) ->
        NewMonitoringClientWithConfigurationProvider cloud p = None ->
        NewIdentityClientWithConfigurationProvider cloud p = Some e ->
        run = (Panicked,
               record (LogError "error with client")
                 (record (NewIdentityClient p) (record (NewMonitoringClient p) w)))).
Proof.
  intros Hq Hconfig environment run.
  assert (run = match bootstrap cloud environment w with
                | (Ok _, w1) =>
                    route cloud rangeOrder fuel (json_QueryType (Q_ModelJson q)) tsdbReq w1
                | (Failed e, w1) => (Failed e, w1)
                | (Panicked, w1) => (Panicked, w1)
                | (Spinning, w1) => (Spinning, w1)
                end) as ->.
  { unfold run. rewrite (Query_cons fuel tsdbReq q qs w Hq). unfold bind.
    by destruct (bootstrap _ _ w) as [[[]| | |] w1]. }
  rewrite (bootstrap_run _ w Hconfig). split_and!.
  - intros e Henv Herr. unfold getConfigProvider. rewrite Henv, Herr.
    rewrite bool_decide_eq_false_2 by done. by rewrite bool_decide_eq_true_2.
  - intros p e Hprovider Hmon. rewrite Hprovider. cbn [fst]. cbn zeta. rewrite Hmon.
    by eexists.
  - intros p e Hprovider Hmon Hid. rewrite Hprovider. cbn [fst]. cbn zeta.
    by rewrite Hmon, Hid.
Qed.

(** X20.  Each handler talks to its own service and to nothing else: the
    five handlers built on [ListMetrics] add [ListMetrics] calls to the
    trace and nothing else, [queryResponse] adds [SummarizeMetricsData]
    calls only, [regionsResponse] adds [ListRegions] calls only, and
    [compartmentsResponse] adds only [GetTenancy] and [ListCompartments]
    calls and log lines.  No handler constructs a client. *)
Theorem handlers_call_their_service fuel tsdbReq w :
  only is_ListMetrics w (searchResponse cloud fuel tsdbReq w).2
  /\ only is_ListMetrics w (dimensionResponse cloud rangeOrder fuel tsdbReq w).2
  /\ only is_ListMetrics w (namespaceResponse cloud fuel tsdbReq w).2
  /\ only is_ListMetrics w (resourcegroupsResponse cloud fuel tsdbReq w).2
  /\ only is_ListMetrics w (testResponse cloud tsdbReq w).2
  /\ only is_SummarizeMetricsData w (queryResponse cloud rangeOrder tsdbReq w).2
  /\ only is_ListRegions w (regionsResponse cloud tsdbReq w).2
  /\ only of_refresh w (compartmentsResponse cloud rangeOrder fuel tsdbReq w).2.
Proof.
  split_and!.
  - by apply (preserves_searchResponse _ _ _ (only_framed is_ListMetrics)).
  - by apply (preserves_dimensionResponse _ _ _ _ (only_framed is_ListMetrics)).
  - by apply (preserves_namespaceResponse _ _ _ (only_framed is_ListMetrics)).
  - by apply (preserves_resourcegroupsResponse _ _ _ (only_framed is_ListMetrics)).
  - by apply (preserves_testResponse _ _ _ (only_framed is_ListMetrics)).
  - by apply (preserves_queryResponse _ _ _ _ (only_framed is_SummarizeMetricsData)).
  - by apply (preserves_regionsResponse _ _ _ (only_framed is_ListRegions)).
  - apply (preserves_compartmentsResponse _ _ _ _ (only_framed of_refresh)); [done|].
    intros m w0. exists []. by rewrite app_nil_r.
Qed.

End Bootstrap.

(** ** Errors while paging *)

Lemma cursor_after_cons page p ps :
  cursor_after page (p :: ps) = cursor_after (LMRes_OpcNextPage p) ps.
Proof.
  unfold cursor_after. destruct ps as [|p' ps]; [reflexivity|].
  rewrite last_cons_cons. destruct (last (p' :: ps)) eqn:Hlast; [done|].
  by apply last_None in Hlast.
Qed.

Section PagingErrors.
Variable cloud : Cloud.

Lemma searchHelper_loop_broken region compartment metricDetails err ps :
  forall fuel items page pageNumber w,
    broken cloud (StringToRegion cloud region) compartment metricDetails page ps err ->
    (0 <= pageNumber)%Z ->
    (pageNumber + Z.of_nat (length ps) <= MAX_PAGES_TO_FETCH)%Z ->
    length ps < fuel ->
    searchHelper_loop cloud fuel region compartment metricDetails items page pageNumber w
    = (Failed (errors_Wrap err "list metrircs failed"),
       searched (StringToRegion cloud region)
         (page_requests compartment metricDetails page ps
          ++ [list_request compartment metricDetails (cursor_after page ps)]) w).
Proof.
  induction ps as [|p ps IH]; intros fuel items page pageNumber w Hb Hn Hcap Hf;
    (destruct fuel as [|fuel]; [simpl in Hf; lia|]);
    rewrite searchHelper_loop_step; cbn zeta.
  - inversion Hb as [page' res err' Hcall|]; subst. by rewrite Hcall.
  - inversion Hb as [|page' p' next ps' err' Hcall Hnext Hrest]; subst.
    rewrite Hcall, Hnext. unfold MAX_PAGES_TO_FETCH in *. cbn [length] in Hcap, Hf.
    rewrite bool_decide_eq_false_2 by done.
    replace (20 <=? pageNumber)%Z with false by (symmetry; apply Z.leb_gt; lia).
    cbn [orb]. rewrite wrap64_small by lia.
    rewrite (IH fuel _ (Some next) (pageNumber + 1)%Z); [|done|lia|lia|lia].
    rewrite cursor_after_cons, Hnext. cbn [page_requests]. rewrite Hnext.
    by rewrite (searched_app _ [_]).
Qed.

(** X1.  An error of [ListMetrics] on any call ends [searchHelper] at once:
    it returns the error wrapped as [list metrircs failed] and none of the
    items of the pages fetched before, and sends no further request. *)
Theorem searchHelper_error fuel region compartment metricDetails w ps err :
  broken cloud (StringToRegion cloud region) compartment metricDetails None ps err ->
  length ps <= 20 ->
  length ps < fuel ->
  searchHelper cloud fuel region compartment metricDetails w
  = (Failed (errors_Wrap err "list metrircs failed"),
     searched (StringToRegion cloud region)
       (page_requests compartment metricDetails None ps
        ++ [list_request compartment metricDetails (cursor_after None ps)]) w).
Proof.
  intros Hb Hcap Hfuel. unfold searchHelper.
  apply searchHelper_loop_broken; [done|lia|unfold MAX_PAGES_TO_FETCH; lia|done].
Qed.

Lemma searchHelper_fetched fuel region compartment metricDetails ps w :
  fetched cloud fuel region compartment metricDetails ps ->
  searchHelper cloud fuel region compartment metricDetails w
  = (Ok (concat (map LMRes_Items ps)),
     searched (StringToRegion cloud region)
       (page_requests compartment metricDetails None ps) w).
Proof.
  intros (Hl & Hlast & Hcap & Hfuel).
  apply searchHelper_pages; [done|done|unfold MAX_PAGES_TO_FETCH; lia|done].
Qed.

End PagingErrors.

(** ** The tables of the lookups *)

Lemma per_query_one table q (body : Query_ -> M (list TableRow)) w :
  per_query table [q] body w
  = match body q w with
    | (Ok rows, w') => (Ok (set_Rows table rows), w')
    | (Failed e, w') => (Failed e, w')
    | (Panicked, w') => (Panicked, w')
    | (Spinning, w') => (Spinning, w')
    end.
Proof.
  unfold per_query. cbn [forM]. unfold bind.
  by destruct (body q w) as [[rows| | |] w'].
Qed.

(** A loop that reads one pointer field per item and appends a row. *)
Lemma rows_of_fields {A} (field : A -> option string) items : forall acc w,
  forM items acc (fun rows item => v <- deref (field item) ;; ret (rows ++ [text_row v])) w
  = match mapM field items with
    | Some values => (Ok (acc ++ map text_row values), w)
    | None => (Panicked, w)
    end.
Proof.
  induction items as [|item items IH]; intros acc w; cbn [forM].
  - cbn. by rewrite app_nil_r.
  - unfold bind at 1. unfold bind at 1. cbn [mapM].
    destruct (field item) as [v|]; cbn [deref]; [|done].
    unfold ret at 1. unfold ret at 1. rewrite IH. cbn.
    destruct (mapM field items) as [values|]; cbn; [|done].
    by rewrite <- app_assoc.
Qed.

Lemma mapM_Some_map {A} (field : A -> option string) items values :
  map field items = map Some values -> mapM field items = Some values.
Proof.
  intros Hmap. apply mapM_Some. revert values Hmap.
  induction items as [|item items IH]; intros [|v values] Hmap; try done.
  injection Hmap as Hv Hrest. constructor; [done|by apply IH].
Qed.

Lemma mapM_None_field {A} (field : A -> option string) items item :
  item ∈ items -> field item = None -> mapM field items = None.
Proof.
  intros Hin Hnone. apply mapM_None. apply Exists_exists. by exists item.
Qed.

Lemma called_app calls1 calls2 w :
  called calls2 (called calls1 w) = called (calls1 ++ calls2) w.
Proof. unfold called. cbn. by rewrite app_assoc. Qed.

Lemma ranged_next k w : ranged k (next_range w) = ranged (S k) w.
Proof. unfold ranged, next_range. cbn. f_equal. lia. Qed.

Lemma foldl_dimension_rows entries : forall rows,
  foldl (fun rows entry => rows ++ [text_row (Sprintf_eq entry.1 entry.2)]) rows entries
  = rows ++ map dimension_row entries.
Proof.
  induction entries as [|e entries IH]; intros rows; cbn [foldl map].
  - by rewrite app_nil_r.
  - rewrite IH. by rewrite <- app_assoc.
Qed.

(** The loop of [searchResponse] over the items, from any state of [rows]
    and [metricCache]. *)
Lemma search_rows_from items : forall names rows (metricCache : gmap string bool) w,
  map Metric_Name items = map Some names ->
  exists metricCache',
    forM items (rows, metricCache)
      (fun (st : list TableRow * gmap string bool) item =>
         name <- deref (Metric_Name item) ;;
         match st.2 !! name with
         | None => ret (st.1 ++ [text_row name], <[name := true]> st.2)
         | Some _ => ret (st.1, st.2)
         end) w
    = (Ok (rows ++ map text_row
                     (filter (fun name => metricCache !! name = None) (first_seen names)),
           metricCache'), w).
Proof.
  set (body := fun (st : list TableRow * gmap string bool) (item : Metric) => _).
  induction items as [|item items IH]; intros [|name names] rows metricCache w Hnames;
    try done.
  - exists metricCache. cbn. by rewrite app_nil_r.
  - injection Hnames as Hname Hnames. cbn [forM]. unfold bind at 1.
    unfold body at 1. cbn [fst snd]. rewrite Hname. cbn [deref].
    unfold bind at 1. unfold ret at 1. cbn [first_seen].
    destruct (metricCache !! name) as [b|] eqn:Hseen.
    + unfold ret at 1.
      destruct (IH names rows metricCache w Hnames) as [metricCache' ->].
      exists metricCache'. do 3 f_equal.
      rewrite filter_cons_False by (by rewrite Hseen).
      rewrite list_filter_filter_l; [done|]. intros other Hother ->. by rewrite Hseen in Hother.
    + unfold ret at 1.
      destruct (IH names (rows ++ [text_row name]) (<[name := true]> metricCache) w Hnames)
        as [metricCache' ->].
      exists metricCache'. rewrite <- app_assoc. do 3 f_equal.
      rewrite filter_cons_True by done. cbn [map app]. do 2 f_equal.
      rewrite list_filter_filter. f_equal. apply list_filter_iff. intros other.
      rewrite lookup_insert_None. split; intros [? ?]; by split.
Qed.

Lemma filter_all {A} (P : A -> Prop) `{!forall x, Decision (P x)} (l : list A) :
  (forall x, P x) -> filter P l = l.
Proof.
  intros HP. induction l as [|x l IH]; [done|].
  rewrite filter_cons_True by done. by rewrite IH.
Qed.

Lemma first_seen_elem names : forall name, name ∈ first_seen names <-> name ∈ names.
Proof.
  induction names as [|n names IH]; intros name; cbn [first_seen]; [done|].
  rewrite !elem_of_cons, list_elem_of_filter, IH.
  destruct (decide (name = n)) as [->|Hne]; [split; intros _; by left|].
  split; [intros [?|[_ ?]]; [by left|by right]|intros [?|?]; [by left|by right]].
Qed.

Lemma first_seen_NoDup names : NoDup (first_seen names).
Proof.
  induction names as [|n names IH]; cbn [first_seen]; [constructor|].
  constructor.
  - rewrite list_elem_of_filter. by intros [Hne _].
  - by apply NoDup_filter.
Qed.

Section LookupTables.
Variable cloud : Cloud.
Variable rangeOrder : nat -> gmap string string -> list (string * string).

Lemma namespace_query_run fuel q w ps :
  fetched cloud fuel (json_Region (Q_ModelJson q)) (json_Compartment (Q_ModelJson q))
    namespace_details ps ->
  namespace_query cloud fuel q w
  = let w' := searched (StringToRegion cloud (json_Region (Q_ModelJson q)))
                (page_requests (json_Compartment (Q_ModelJson q)) namespace_details None ps)
                w in
    match mapM Metric_Namespace (concat (map LMRes_Items ps)) with
    | Some namespaces => (Ok (map text_row namespaces), w')
    | None => (Panicked, w')
    end.
Proof.
  intros Hfetched. unfold namespace_query. cbn zeta. unfold bind at 1. unfold wrapErr.
  change (searchHelper cloud fuel _ _ _ w)
    with (searchHelper cloud fuel (json_Region (Q_ModelJson q))
            (json_Compartment (Q_ModelJson q)) namespace_details w).
  rewrite (searchHelper_fetched cloud fuel _ _ _ ps w Hfetched).
  by rewrite (rows_of_fields Metric_Namespace).
Qed.

(** X4.  The namespaces table of a one-query request has one row per item of
    the listing, in listing order and with repetitions, asked for with the
    grouping [namespace] and no filter; an item without a namespace makes
    the handler panic. *)
Theorem namespaceResponse_rows fuel tsdbReq q w ps :
  Req_Queries tsdbReq = [q] ->
  let region := json_Region (Q_ModelJson q) in
  let compartment := json_Compartment (Q_ModelJson q) in
  fetched cloud fuel region compartment namespace_details ps ->
  let items := concat (map LMRes_Items ps) in
  let w' := searched (StringToRegion cloud region)
              (page_requests compartment namespace_details None ps) w in
  (forall namespaces,
     map Metric_Namespace items = map Some namespaces ->
     namespaceResponse cloud fuel tsdbReq w
     = (Ok (table_response "namespaces"
              {| Table_Columns := [text_column];
                 Table_Rows := map text_row namespaces |}), w'))
  /\ (forall item,
        item ∈ items -> Metric_Namespace item = None ->
        namespaceResponse cloud fuel tsdbReq w = (Panicked, w')).
Proof.
  intros Hq region compartment Hfetched items w'.
  assert (namespaceResponse cloud fuel tsdbReq w
          = match mapM Metric_Namespace items with
            | Some namespaces =>
                (Ok (table_response "namespaces"
                       {| Table_Columns := [text_column];
                          Table_Rows := map text_row namespaces |}), w')
            | None => (Panicked, w')
            end) as ->.
  { unfold namespaceResponse. rewrite Hq. unfold bind at 1. rewrite per_query_one.
    rewrite (namespace_query_run fuel q w ps Hfetched). cbn zeta.
    by destruct (mapM _ _). }
  split.
  - intros namespaces Hnames. by rewrite (mapM_Some_map _ _ _ Hnames).
  - intros item Hin Hnone. by rewrite (mapM_None_field _ _ _ Hin Hnone).
Qed.

Lemma search_query_run fuel q w ps names :
  fetched cloud fuel (json_Region (Q_ModelJson q)) (json_Compartment (Q_ModelJson q))
    (search_details q) ps ->
  map Metric_Name (concat (map LMRes_Items ps)) = map Some names ->
  search_query cloud fuel q w
  = (Ok (map text_row (first_seen names)),
     searched (StringToRegion cloud (json_Region (Q_ModelJson q)))
       (page_requests (json_Compartment (Q_ModelJson q)) (search_details q) None ps) w).
Proof.
  intros Hfetched Hnames. unfold search_query. cbn zeta. unfold bind at 1. unfold wrapErr.
  change (searchHelper cloud fuel _ _ _ w)
    with (searchHelper cloud fuel (json_Region (Q_ModelJson q))
            (json_Compartment (Q_ModelJson q)) (search_details q) w).
  rewrite (searchHelper_fetched cloud fuel _ _ _ ps w Hfetched).
  cbv beta iota. unfold bind at 1. unfold search_rows.
  destruct (search_rows_from (concat (map LMRes_Items ps)) names [] ∅
              (searched (StringToRegion cloud (json_Region (Q_ModelJson q)))
                 (page_requests (json_Compartment (Q_ModelJson q)) (search_details q) None ps)
                 w) Hnames) as [metricCache' ->].
  unfold ret. cbn [fst app]. rewrite filter_all; [done|]. intros name. apply lookup_empty.
Qed.

(** X2.  The search table of a one-query request lists every metric name of
    the listing once, in the order in which the names are first met. *)
Theorem searchResponse_first_seen fuel tsdbReq q w ps names :
  Req_Queries tsdbReq = [q] ->
  let region := json_Region (Q_ModelJson q) in
  let compartment := json_Compartment (Q_ModelJson q) in
  fetched cloud fuel region compartment (search_details q) ps ->
  map Metric_Name (concat (map LMRes_Items ps)) = map Some names ->
  searchResponse cloud fuel tsdbReq w
  = (Ok (table_response "search"
           {| Table_Columns := [text_column];
              Table_Rows := map text_row (first_seen names) |}),
     searched (StringToRegion cloud region)
       (page_requests compartment (search_details q) None ps) w)
  /\ NoDup (first_seen names)
  /\ (forall name, name ∈ first_seen names <-> name ∈ names).
Proof.
  intros Hq region compartment Hfetched Hnames. split_and!.
  - unfold searchResponse. rewrite Hq. unfold bind at 1. rewrite per_query_one.
    by rewrite (search_query_run fuel q w ps names Hfetched Hnames).
  - apply first_seen_NoDup.
  - apply first_seen_elem.
Qed.

Hypothesis rangeOrder_perm : forall k m, rangeOrder k m ≡ₚ map_to_list m.

Lemma dimension_rows_run items : forall rows w,
  exists chunks,
    forM items rows (fun rows item =>
      entries <- range rangeOrder (Metric_Dimensions item) ;;
      ret (foldl (fun rows entry => rows ++ [text_row (Sprintf_eq entry.1 entry.2)])
             rows entries)) w
    = (Ok (rows ++ concat chunks), ranged (length items) w)
    /\ Forall2 (fun item chunk =>
                  chunk ≡ₚ map dimension_row (map_to_list (Metric_Dimensions item)))
         items chunks.
Proof.
  induction items as [|item items IH]; intros rows w.
  - exists []. cbn. rewrite app_nil_r. split; [by destruct w|constructor].
  - cbn [forM]. unfold bind at 1. unfold bind at 1. unfold range at 1. unfold ret at 1.
    rewrite foldl_dimension_rows.
    destruct (IH (rows ++ map dimension_row
                            (rangeOrder (ranges w) (Metric_Dimensions item)))
                (next_range w)) as (chunks & -> & Hchunks).
    exists (map dimension_row (rangeOrder (ranges w) (Metric_Dimensions item)) :: chunks).
    split.
    + cbn [concat length]. by rewrite <- app_assoc, ranged_next.
    + constructor; [|done]. by rewrite rangeOrder_perm.
Qed.

(** X3.  The dimensions table of a one-query request has one row [key=value]
    for every entry of the [Dimensions] of every item of the listing: the
    items in listing order, the entries of one item in the order of the
    map's iteration, and nothing is merged. *)
Theorem dimensionResponse_rows fuel tsdbReq q w ps :
  Req_Queries tsdbReq = [q] ->
  let region := json_Region (Q_ModelJson q) in
  let compartment := json_Compartment (Q_ModelJson q) in
  fetched cloud fuel region compartment (dimension_details q) ps ->
  exists chunks w',
    dimensionResponse cloud rangeOrder fuel tsdbReq w
    = (Ok (table_response "dimensions"
             {| Table_Columns := [text_column]; Table_Rows := concat chunks |}), w')
    /\ Forall2 (fun item chunk =>
                  chunk ≡ₚ map dimension_row (map_to_list (Metric_Dimensions item)))
         (concat (map LMRes_Items ps)) chunks
    /\ trace w'
       = trace w ++ map (CallListMetrics (StringToRegion cloud region))
                      (page_requests compartment (dimension_details q) None ps).
Proof.
  intros Hq region compartment Hfetched.
  unfold dimensionResponse. rewrite Hq. unfold bind at 1. rewrite per_query_one.
  unfold dimension_query. cbn zeta. unfold bind at 1. unfold wrapErr.
  change (searchHelper cloud fuel _ _ _ w)
    with (searchHelper cloud fuel region compartment (dimension_details q) w).
  rewrite (searchHelper_fetched cloud fuel _ _ _ ps w Hfetched).
  unfold dimension_rows.
  destruct (dimension_rows_run (concat (map LMRes_Items ps)) []
              (searched (StringToRegion cloud region)
                 (page_requests compartment (dimension_details q) None ps) w))
    as (chunks & -> & Hchunks).
  exists chunks. eexists. split; [reflexivity|]. split; [done|]. done.
Qed.

End LookupTables.

Section Regions.
Variable cloud : Cloud.

Lemma regions_query_run q w :
  regions_query cloud q w
  = let r := ic_region (identityClient (o w)) in
    let w' := called [CallListRegions r] w in
    match ListRegions cloud r with
    | (_, Some err) => (Failed (errors_Wrap err "error fetching regions"), w')
    | (res, None) =>
        match mapM Region_Name (LRRes_Items res) with
        | Some names => (Ok (map text_row names), w')
        | None => (Panicked, w')
        end
    end.
Proof.
  unfold regions_query. unfold bind at 1. unfold identityClient_ListRegions. cbn zeta.
  destruct (ListRegions cloud _) as [res [err|]]; cbn [fst snd]; [done|].
  by rewrite (rows_of_fields Region_Name).
Qed.

Lemma per_query_regions res names queries : forall table w,
  ListRegions cloud (ic_region (identityClient (o w))) = (res, None) ->
  map Region_Name (LRRes_Items res) = map Some names ->
  per_query table queries (regions_query cloud) w
  = (Ok (match queries with
         | [] => table
         | _ => set_Rows table (map text_row names)
         end),
     called (replicate (length queries)
               (CallListRegions (ic_region (identityClient (o w))))) w).
Proof.
  induction queries as [|q queries IH]; intros table w Hcall Hnames.
  - cbn. unfold called. rewrite app_nil_r. by destruct w.
  - unfold per_query in *. cbn [forM]. unfold bind at 1. unfold bind at 1.
    rewrite regions_query_run. cbn zeta. rewrite Hcall, (mapM_Some_map _ _ _ Hnames).
    unfold ret at 1.
    rewrite (IH _ (called [CallListRegions (ic_region (identityClient (o w)))] w) Hcall Hnames).
    cbn [length replicate o called]. rewrite called_app. cbn [app].
    by destruct queries.
Qed.

(** X6.  [regionsResponse] asks [ListRegions] once for every query of the
    request, in the region the identity client happens to be set to (the
    request's own region is not used), and answers with one row per region
    of the listing, in listing order; a request without queries asks
    nothing and answers with the empty table.  An error of the first call
    is returned wrapped, after that one call. *)
Theorem regionsResponse_rows tsdbReq w :
  let r := ic_region (identityClient (o w)) in
  (forall res names,
     ListRegions cloud r = (res, None) ->
     map Region_Name (LRRes_Items res) = map Some names ->
     regionsResponse cloud tsdbReq w
     = (Ok (table_response "regions"
              {| Table_Columns := [text_column];
                 Table_Rows := match Req_Queries tsdbReq with
                               | [] => []
                               | _ => map text_row names
                               end |}),
        called (replicate (length (Req_Queries tsdbReq)) (CallListRegions r)) w))
  /\ (forall res err,
        ListRegions cloud r = (res, Some err) ->
        Req_Queries tsdbReq <> [] ->
        regionsResponse cloud tsdbReq w
        = (Failed (errors_Wrap err "error fetching regions"),
           called [CallListRegions r] w)).
Proof.
  intros r. split.
  - intros res names Hcall Hnames. unfold regionsResponse. unfold bind.
    rewrite (per_query_regions res names _ _ _ Hcall Hnames). fold r.
    by destruct (Req_Queries tsdbReq).
  - intros res err Hcall Hne. unfold regionsResponse.
    destruct (Req_Queries tsdbReq) as [|q qs]; [done|].
    unfold bind at 1. unfold per_query. cbn [forM]. unfold bind at 1. unfold bind at 1.
    rewrite regions_query_run. cbn zeta. fold r. by rewrite Hcall.
Qed.

(** X7.  [testResponse] sends one [ListMetrics] request for the tenancy of
    the first query, with no filter and no cursor, and goes by the HTTP
    status alone: a status from 200 to 299 is a success whatever error
    came with it; another status gives the wrapped error when there is
    one, and neither a response nor an error when there is none; a
    response without raw HTTP response makes the handler panic. *)
Theorem testResponse_status tsdbReq q qs w :
  Req_Queries tsdbReq = q :: qs ->
  let reg := StringToRegion cloud (json_Region (Q_ModelJson q)) in
  let req := list_request (json_tenancyOCID (Q_ModelJson q)) no_details None in
  let res := (ListMetrics cloud reg req).1 in
  let err := (ListMetrics cloud reg req).2 in
  let w' := searched reg [req] w in
  let run := testResponse cloud tsdbReq w in
  (LMRes_RawResponse res = None -> run = (Panicked, w'))
  /\ (forall status,
        LMRes_RawResponse res = Some status ->
        (200 <= status < 300)%Z ->
        run = (Ok (Some {| Results := [] |}), w'))
  /\ (forall status e,
        LMRes_RawResponse res = Some status ->
        ~ (200 <= status < 300)%Z ->
        err = Some e ->
        exists msg, run = (Failed (errors_Wrap e msg), w'))
  /\ (forall status,
        LMRes_RawResponse res = Some status ->
        ~ (200 <= status < 300)%Z ->
        err = None ->
        run = (Ok None, w')).
Proof.
  intros Hq reg req res err w' run.
  assert (run = match LMRes_RawResponse res with
                | None => (Panicked, w')
                | Some status =>
                    if (200 <=? status)%Z && (status <? 300)%Z
                    then (Ok (Some {| Results := [] |}), w')
                    else match err with
                         | Some e => (Failed (errors_Wrap e "list metrircs failed"), w')
                         | None => (Ok None, w')
                         end
                end) as ->.
  { subst run w' err res req reg. unfold testResponse. rewrite Hq. cbn [index0].
    unfold bind at 1. unfold ret at 1. cbn zeta.
    unfold bind at 1. unfold metricsClient_SetRegion, modify.
    unfold bind at 1. unfold metricsClient_ListMetrics.
    cbn [fst snd o set_o metricsClient mc_region Region_ Unmarshal_Common TenancyOCID].
    unfold bind at 1. unfold list_request, no_details, common_String, searched, record, set_o.
    cbn [o trace wall ranges map].
    destruct (ListMetrics cloud _ _) as [res err]. cbn [fst snd].
    destruct (LMRes_RawResponse res) as [status|]; cbn [deref]; [|done].
    unfold ret at 1. destruct (_ && _); [done|]. by destruct err. }
  split_and!.
  - by intros ->.
  - intros status -> [Hlo Hhi].
    by rewrite (proj2 (Z.leb_le _ _) Hlo), (proj2 (Z.ltb_lt _ _) Hhi).
  - intros status e -> Hout ->.
    replace ((200 <=? status)%Z && (status <? 300)%Z) with false; [by eexists|].
    symmetry. apply andb_false_iff. rewrite Z.leb_gt, Z.ltb_ge. lia.
  - intros status -> Hout ->.
    replace ((200 <=? status)%Z && (status <? 300)%Z) with false; [done|].
    symmetry. apply andb_false_iff. rewrite Z.leb_gt, Z.ltb_ge. lia.
Qed.

End Regions.

(** ** The results of a metrics request *)

Lemma mapM_cons_eq {A B} (f : A -> option B) x l :
  mapM f (x :: l)
  = match f x with
    | Some y => match mapM f l with Some k => Some (y :: k) | None => None end
    | None => None
    end.
Proof. cbn. destruct (f x); [|done]. cbn. by destruct (mapM f l). Qed.

Lemma series_points_from metrics : forall p w,
  forM metrics p (fun p metric =>
    ts <- deref (ADP_Timestamp metric) ;;
    v <- deref (ADP_Value metric) ;;
    ret (p ++ [ {| Point_Timestamp := UnixNano ts ÷ 1000000; Point_Value := v |} ])) w
  = match mapM point_of metrics with
    | Some points => (Ok (p ++ points), w)
    | None => (Panicked, w)
    end.
Proof.
  induction metrics as [|metric metrics IH]; intros p w; cbn [forM].
  - cbn. by rewrite app_nil_r.
  - rewrite mapM_cons_eq. unfold point_of at 1. unfold bind at 1. unfold bind at 1.
    destruct (ADP_Timestamp metric) as [ts|]; cbn [deref]; [|done].
    unfold ret at 1. unfold bind at 1.
    destruct (ADP_Value metric) as [v|]; cbn [deref]; [|done].
    unfold ret at 1. unfold ret at 1. rewrite IH.
    destruct (mapM point_of metrics) as [points|]; [|done].
    by rewrite <- app_assoc.
Qed.

Lemma series_points_run item w :
  series_points item w
  = match mapM point_of (MD_AggregatedDatapoints item) with
    | Some points => (Ok points, w)
    | None => (Panicked, w)
    end.
Proof. unfold series_points. by rewrite series_points_from. Qed.

Section Results.
Variable cloud : Cloud.
Variable rangeOrder : nat -> gmap string string -> list (string * string).
Hypothesis rangeOrder_perm : forall k m, rangeOrder k m ≡ₚ map_to_list m.

Lemma summarize_query_answered tsdbReq query w :
  (summarize_call cloud tsdbReq query).2 = None ->
  exists w1,
    summarize_query cloud tsdbReq query w
    = (Ok {| ociRes := (summarize_call cloud tsdbReq query).1; query := query; err := None |},
       w1)
    /\ trace w1 = trace w ++ [summarize_trace cloud tsdbReq query].
Proof.
  unfold summarize_query, summarize_call, summarize_trace. cbn zeta. intros Hok.
  unfold bind at 1. unfold metricsClient_SetRegion, modify.
  unfold bind at 1. unfold metricsClient_SummarizeMetricsData.
  cbn [fst snd o set_o metricsClient mc_region Region_ OCI_Common Unmarshal_OCI Unmarshal_Common]
    in *.
  destruct (SummarizeMetricsData cloud _ _) as [res e]. cbn [fst snd] in *. subst e.
  by eexists.
Qed.

Lemma summarize_all_answered tsdbReq queries : forall results w,
  Forall (answered cloud tsdbReq) queries ->
  exists w',
    forM queries results
      (fun results query => r <- summarize_query cloud tsdbReq query ;; ret (results ++ [r])) w
    = (Ok (results
           ++ map (fun query =>
                     {| ociRes := (summarize_call cloud tsdbReq query).1;
                        query := query; err := None |}) queries), w')
    /\ trace w' = trace w ++ map (summarize_trace cloud tsdbReq) queries.
Proof.
  induction queries as [|query queries IH]; intros results w Hall.
  - exists w. cbn. by rewrite !app_nil_r.
  - inversion Hall as [|? ? [Hok _] Hrest]; subst.
    destruct (summarize_query_answered tsdbReq query w Hok) as (w1 & Hrun & Htrace).
    cbn [forM]. unfold bind at 1. unfold bind at 1. rewrite Hrun. unfold ret at 1.
    destruct (IH (results
                  ++ [ {| ociRes := (summarize_call cloud tsdbReq query).1;
                          query := query; err := None |} ]) w1 Hrest)
      as (w' & -> & Htrace').
    exists w'. split.
    + cbn [map]. by rewrite <- app_assoc.
    + rewrite Htrace', Htrace. cbn [map]. by rewrite <- app_assoc.
Qed.

Lemma series_from items : forall series w,
  forallb complete_item items = true ->
  exists made w',
    forM items series (fun series item =>
      name <- series_name rangeOrder item ;;
      p <- series_points item ;;
      ret (series ++ [ {| TS_Name := name; TS_Points := p |} ])) w
    = (Ok (series ++ made), w')
    /\ trace w' = trace w
    /\ Forall2 (fun item series =>
                  mapM point_of (MD_AggregatedDatapoints item) = Some (TS_Points series))
         items made.
Proof.
  induction items as [|item items IH]; intros series w Hall.
  - exists [], w. cbn. rewrite app_nil_r. split_and!; [done|done|constructor].
  - cbn [forallb] in Hall. apply andb_true_iff in Hall as [Hitem Hrest].
    unfold complete_item in Hitem. apply andb_true_iff in Hitem as [Hname Hpoints].
    apply bool_decide_eq_true in Hname as [itemName Hname].
    apply bool_decide_eq_true in Hpoints as [points Hpoints].
    cbn [forM]. unfold bind at 1. unfold bind at 1.
    rewrite (series_name_eval rangeOrder rangeOrder_perm item itemName w Hname). cbn zeta.
    unfold bind at 1. rewrite series_points_run, Hpoints. unfold ret at 1.
    match goal with
    | |- context [forM items (series ++ [?s]) _ _] =>
        destruct (IH (series ++ [s]) (next_range w) Hrest) as (made & w' & -> & Htrace & Hmade);
        exists (s :: made), w'
    end.
    split_and!.
    + by rewrite <- app_assoc.
    + done.
    + by constructor.
Qed.

Lemma reshape_answered tsdbReq query w :
  forallb complete_item (SMRes_Items (summarize_call cloud tsdbReq query).1) = true ->
  exists res w',
    reshape rangeOrder
      {| ociRes := (summarize_call cloud tsdbReq query).1; query := query; err := None |} w
    = (Ok res, w')
    /\ trace w' = trace w
    /\ result_of cloud tsdbReq query res.
Proof.
  intros Hall. unfold reshape. cbn [err ociRes].
  unfold bind at 1.
  destruct (series_from (SMRes_Items (summarize_call cloud tsdbReq query).1) [] w Hall)
    as (made & w' & -> & Htrace & Hmade).
  eexists _, w'. split; [reflexivity|]. split; [done|].
  unfold result_of. cbn. done.
Qed.

Lemma reshape_all tsdbReq queries : forall queryRes w,
  Forall (answered cloud tsdbReq) queries ->
  exists made w',
    forM (map (fun query =>
                 {| ociRes := (summarize_call cloud tsdbReq query).1;
                    query := query; err := None |}) queries)
      queryRes
      (fun queryRes q => res <- reshape rangeOrder q ;; ret (queryRes ++ [res])) w
    = (Ok (queryRes ++ made), w')
    /\ trace w' = trace w
    /\ Forall2 (result_of cloud tsdbReq) queries made.
Proof.
  induction queries as [|query queries IH]; intros queryRes w Hall.
  - exists [], w. cbn. rewrite app_nil_r. split_and!; [done|done|constructor].
  - inversion Hall as [|? ? [_ Hitems] Hrest]; subst.
    destruct (reshape_answered tsdbReq query w Hitems) as (res & w1 & Hrun & Htrace & Hres).
    cbn [map forM]. unfold bind at 1. unfold bind at 1. rewrite Hrun. unfold ret at 1.
    destruct (IH (queryRes ++ [res]) w1 Hrest) as (made & w' & -> & Htrace' & Hmade).
    exists (res :: made), w'. split_and!.
    + by rewrite <- app_assoc.
    + congruence.
    + by constructor.
Qed.

(** X8.  When the service answers every query of a metrics request without
    error and with complete items, [queryResponse] returns one result per
    query, in the order of the request: each with the [RefId] of its query,
    no error, and one series per item whose points are the item's data
    points in order; and it has sent one [SummarizeMetricsData] request per
    query, in that order. *)
Theorem queryResponse_results tsdbReq w :
  Forall (answered cloud tsdbReq) (Req_Queries tsdbReq) ->
  exists resp w',
    queryResponse cloud rangeOrder tsdbReq w = (Ok resp, w')
    /\ Forall2 (result_of cloud tsdbReq) (Req_Queries tsdbReq) (Results resp)
    /\ trace w' = trace w ++ map (summarize_trace cloud tsdbReq) (Req_Queries tsdbReq).
Proof.
  intros Hall. unfold queryResponse, summarize_all. unfold bind at 1.
  destruct (summarize_all_answered tsdbReq (Req_Queries tsdbReq) [] w Hall)
    as (w1 & -> & Htrace).
  cbn [app]. unfold bind at 1.
  destruct (reshape_all tsdbReq (Req_Queries tsdbReq) [] w1 Hall)
    as (made & w' & -> & Htrace' & Hmade).
  eexists _, w'. split; [reflexivity|]. cbn [Results app]. split; [done|]. congruence.
Qed.

End Results.

(** ** Time stamps *)

Lemma epoch_millis ms :
  Truncate (Unix (ms ÷ 1000) (wrap64 ((ms `rem` 1000) * 1000000))) Millisecond
  = (Unix 0 0 + ms * Millisecond)%Z.
Proof.
  assert (-1000 < ms `rem` 1000 < 1000)%Z as Hrem.
  { pose proof (Z.rem_bound_abs ms 1000). lia. }
  rewrite wrap64_small by lia.
  unfold Unix, Truncate, Millisecond, Second, unixToInternal. cbn [Z.leb Z.compare].
  pose proof (Z.quot_rem' ms 1000) as Hms.
  replace ((62135596800 + ms ÷ 1000) * 1000000000 + ms `rem` 1000 * 1000000)%Z
    with ((62135596800000 + ms) * 1000000)%Z by lia.
  rewrite Z.mod_mul by lia. lia.
Qed.

Lemma millis_back ms :
  (-9223372036854 <= ms <= 9223372036854)%Z ->
  (UnixNano (Unix 0 0 + ms * Millisecond) ÷ 1000000 = ms)%Z.
Proof.
  intros Hms. unfold UnixNano, Unix, Millisecond, Second, unixToInternal.
  replace ((62135596800 + 0) * 1000000000 + 0 + ms * 1000000 - 62135596800 * 1000000000)%Z
    with (ms * 1000000)%Z by lia.
  rewrite wrap64_small by lia. apply Z.quot_mul. lia.
Qed.

(** X9.  The start and end times of a [SummarizeMetricsData] request are the
    instants [FromEpochMs] and [ToEpochMs] milliseconds after the Unix
    epoch, exactly; and a data point that carries such an instant comes
    back with that number of milliseconds as its time stamp, as long as
    the instant is within the range of [UnixNano]. *)
Theorem summarize_request_times tsdbReq ts :
  let details := SMR_SummarizeMetricsDataDetails (summarize_request tsdbReq ts) in
  SMD_StartTime details = Some (Unix 0 0 + FromEpochMs (Req_TimeRange tsdbReq) * Millisecond)%Z
  /\ SMD_EndTime details = Some (Unix 0 0 + ToEpochMs (Req_TimeRange tsdbReq) * Millisecond)%Z
  /\ forall item ms v w,
       MD_AggregatedDatapoints item
       = [ {| ADP_Timestamp := Some (Unix 0 0 + ms * Millisecond)%Z; ADP_Value := Some v |} ] ->
       (-9223372036854 <= ms <= 9223372036854)%Z ->
       series_points item w = (Ok [ {| Point_Timestamp := ms; Point_Value := v |} ], w).
Proof.
  intros details. unfold details, summarize_request.
  cbn [SMR_SummarizeMetricsDataDetails SMD_StartTime SMD_EndTime]. split_and!.
  - by rewrite epoch_millis.
  - by rewrite epoch_millis.
  - intros item ms v w Hpoints Hms. rewrite series_points_run, Hpoints, mapM_cons_eq.
    unfold point_of. cbn [ADP_Timestamp ADP_Value mapM]. by rewrite millis_back.
Qed.

(** ** Series names from matching keys *)

Lemma matching_cons entry entries :
  matching (entry :: entries)
  = if re_MatchString entry.1 then entry.2 :: matching entries else matching entries.
Proof.
  unfold matching. rewrite filter_cons.
  destruct (re_MatchString entry.1); by case_decide.
Qed.

Lemma named_after_braces entries : forall tName,
  named_after entries tName = tName +:+ braces (matching entries).
Proof.
  induction entries as [|entry entries IH]; intros tName.
  - cbn. by rewrite append_empty_r.
  - unfold named_after in *. cbn [foldl]. rewrite IH, matching_cons.
    destruct (re_MatchString entry.1); [|done].
    unfold Sprintf_name. cbn [braces foldr]. by rewrite !append_assoc.
Qed.

Lemma matching_perm entries entries' :
  entries ≡ₚ entries' -> matching entries ≡ₚ matching entries'.
Proof. intros Hperm. unfold matching. by rewrite Hperm. Qed.

Lemma append_same (a s : string) : a +:+ s = a -> s = "".
Proof.
  induction a as [|c a IH]; cbn; [done|].
  intros Heq. injection Heq as Heq. by apply IH.
Qed.

Lemma braces_nonempty values : values <> [] -> braces values <> "".
Proof. by destruct values. Qed.

Section MatchingKeys.
Variable rangeOrder : nat -> gmap string string -> list (string * string).
Hypothesis rangeOrder_perm : forall k m, rangeOrder k m ≡ₚ map_to_list m.

(** X10.  When at least one dimension key of an item matches the pattern, the
    series name is the item's name followed by [, {v}] for the value [v]
    of every matching key, in the order in which the map of dimensions is
    visited; with exactly one matching key the name is that of the item
    followed by [, {v}], whatever the order and the other dimensions. *)
Theorem series_name_matches item itemName w :
  MD_Name item = Some itemName ->
  let values := matching (rangeOrder (ranges w) (MD_Dimensions item)) in
  values ≡ₚ matching (map_to_list (MD_Dimensions item))
  /\ (values <> [] ->
      series_name rangeOrder item w = (Ok (itemName +:+ braces values), next_range w))
  /\ (forall v,
        matching (map_to_list (MD_Dimensions item)) = [v] ->
        series_name rangeOrder item w
        = (Ok (itemName +:+ ", {" +:+ v +:+ "}"), next_range w)).
Proof.
  intros Hname values.
  assert (values ≡ₚ matching (map_to_list (MD_Dimensions item))) as Hperm
    by apply matching_perm, rangeOrder_perm.
  assert (values <> [] ->
          series_name rangeOrder item w = (Ok (itemName +:+ braces values), next_range w))
    as Hsome.
  { intros Hne. rewrite (series_name_eval rangeOrder rangeOrder_perm item itemName w Hname).
    cbn zeta. rewrite named_after_braces. fold values.
    destruct (String.eqb (itemName +:+ braces values) itemName) eqn:Heq; [|done].
    apply String.eqb_eq, append_same in Heq. by apply braces_nonempty in Hne. }
  split_and!; [done|done|].
  intros v Hone. rewrite Hone in Hperm. apply Permutation_singleton_r in Hperm.
  rewrite Hsome by (by rewrite Hperm). rewrite Hperm. cbn [braces foldr].
  by rewrite append_empty_r.
Qed.

End MatchingKeys.

(** ** The calls of [getCompartments] *)

Section Refresh.
Variable cloud : Cloud.
Variable rangeOrder : nat -> gmap string string -> list (string * string).

Lemma resolve_loop_world fuel tenancyOcid names parents : forall full w,
  exists k, (resolve_loop rangeOrder fuel tenancyOcid names parents full w).2 = ranged k w.
Proof.
  induction fuel as [|fuel IH]; intros full w.
  - exists 0. by destruct w.
  - cbn [resolve_loop]. destruct (_ <? _).
    + unfold bind, range.
      destruct (IH (resolve_pass tenancyOcid names full (rangeOrder (ranges w) parents))
                  (next_range w)) as [k Hk].
      exists (S k). rewrite Hk. apply ranged_next.
    + exists 0. by destruct w.
Qed.

(** X11.  On a listing that ends, [getCompartments] asks for the tenancy in
    the region the identity client was left in, then sets the client to
    the region of the request and asks for the compartments page by page,
    following every cursor however many pages there are, and calls nothing
    else. *)
Theorem getCompartments_calls fuel region rootCompartment w tenancyName pages :
  GetTenancy cloud (ic_region (identityClient (o w))) rootCompartment
    = ({| GTRes_Name := Some tenancyName |}, None) ->
  listed cloud (StringToRegion cloud region) rootCompartment None pages ->
  forallb well_formed (concat (map LCRes_Items pages)) = true ->
  length pages <= fuel ->
  let w' := (getCompartments cloud rangeOrder fuel region rootCompartment w).2 in
  trace w'
  = trace w ++ CallGetTenancy (ic_region (identityClient (o w))) rootCompartment
      :: map (CallListCompartments (StringToRegion cloud region))
           (listing_requests rootCompartment None pages)
  /\ length (listing_requests rootCompartment None pages) = length pages
  /\ ic_region (identityClient (o w')) = StringToRegion cloud region.
Proof.
  intros Htenancy Hlisted Hwf Hfuel w'. unfold w'.
  rewrite (getCompartments_listed cloud rangeOrder fuel region rootCompartment w tenancyName
             pages Htenancy Hlisted Hwf Hfuel). cbn zeta.
  set (maps := listing_maps _ _ _). set (w1 := listed_world _ _ _ _ _ _).
  destruct (resolve_loop_world fuel rootCompartment maps.1 maps.2
              (<[rootCompartment := at_key maps.1 rootCompartment +:+ tenancy_suffix]> ∅) w1)
    as [k Hk].
  assert (length (listing_requests rootCompartment None pages) = length pages) as Hlen.
  { clear. generalize (@None string).
    induction pages as [|p pages IH]; intros page; cbn; [done|]. by rewrite IH. }
  destruct (resolve_loop _ _ _ _ _ _ w1) as [[full| | |] w2]; cbn [snd] in *; subst w2; done.
Qed.

(** X12.  What a compartments request does when the refresh fails at its
    start.  An error of [GetTenancy] is returned wrapped, after that one
    call and a log line; a tenancy without name makes the handler panic;
    an error of the first [ListCompartments] call is returned wrapped with
    the tenancy's id in the message, after the two calls and a log line.
    The cache keeps its entries in each case. *)
Theorem compartmentsResponse_refresh_errors fuel tsdbReq q qs w :
  Req_Queries tsdbReq = q :: qs ->
  stale w = true ->
  let tenancy := json_tenancyOCID (Q_ModelJson q) in
  let region0 := ic_region (identityClient (o w)) in
  let reg := StringToRegion cloud (json_Region (Q_ModelJson q)) in
  let run := compartmentsResponse cloud rangeOrder fuel tsdbReq w in
  (forall resp e,
     GetTenancy cloud region0 tenancy = (resp, Some e) ->
     run = (Failed (errors_Wrap e "This is what we were trying to get  : fetching tenancy name"),
            called [CallGetTenancy region0 tenancy; LogError "Unable to refresh cache"] w))
  /\ (GetTenancy cloud region0 tenancy = ({| GTRes_Name := None |}, None) ->
      run = (Panicked, called [CallGetTenancy region0 tenancy] w))
  /\ (forall name res e,
        GetTenancy cloud region0 tenancy = ({| GTRes_Name := Some name |}, None) ->
        ListCompartments cloud reg (compartments_request tenancy None) = (res, Some e) ->
        0 < fuel ->
        run.1 = Failed (errors_Wrap e ("this is what we were trying to get " +:+ tenancy))
        /\ nameToOCID (o run.2) = nameToOCID (o w)
        /\ trace run.2
           = trace w ++ [ CallGetTenancy region0 tenancy;
                          CallListCompartments reg (compartments_request tenancy None);
                          LogError "Unable to refresh cache" ]).
Proof.
  intros Hq Hstale tenancy region0 reg run.
  assert (run = match getCompartments cloud rangeOrder fuel (json_Region (Q_ModelJson q))
                        tenancy w with
                | (Ok m, w1) =>
                    (Ok (table_response "compartments"
                           (set_Rows two_text_table
                              (compartment_rows
                                 (rangeOrder (ranges (cached m w1))
                                    (nameToOCID (o (cached m w1))))))),
                     next_range (cached m w1))
                | (Failed e, w1) => (Failed e, record (LogError "Unable to refresh cache") w1)
                | (Panicked, w1) => (Panicked, w1)
                | (Spinning, w1) => (Spinning, w1)
                end) as Hrun.
  { unfold run. rewrite (compartmentsResponse_unfold cloud rangeOrder fuel tsdbReq q qs w Hq).
    cbn zeta. by rewrite Hstale. }
  clearbody run. subst run.
  split_and!.
  - intros resp e Htenancy.
    unfold getCompartments. unfold bind at 1. unfold identityClient_GetTenancy.
    fold region0. rewrite Htenancy. cbn [fst snd]. unfold fail, record, called. cbn.
    by rewrite <- app_assoc.
  - intros Htenancy.
    unfold getCompartments. unfold bind at 1. unfold identityClient_GetTenancy.
    fold region0. rewrite Htenancy. cbn [fst snd GTRes_Name deref]. done.
  - intros name res e Htenancy Hlist Hfuel.
    destruct fuel as [|fuel]; [lia|].
    assert (getCompartments cloud rangeOrder (S fuel) (json_Region (Q_ModelJson q)) tenancy w
            = (Failed (errors_Wrap e ("this is what we were trying to get " +:+ tenancy)),
               record (CallListCompartments reg (compartments_request tenancy None))
                 (identityClient_SetRegion reg
                    (record (CallGetTenancy region0 tenancy) w)).2)) as ->.
    { unfold getCompartments. unfold bind at 1. unfold identityClient_GetTenancy.
      fold region0. rewrite Htenancy. cbn [fst snd GTRes_Name deref].
      unfold bind at 1. unfold ret at 1. unfold bind at 1.
      unfold identityClient_SetRegion, modify.
      unfold bind at 1. cbn [listCompartments_loop]. unfold bind at 1.
      unfold identityClient_ListCompartments.
      cbn [fst snd o set_o identityClient ic_region record].
      fold (compartments_request tenancy None). fold reg. by rewrite Hlist. }
    cbn. split_and!; [done|done|]. by rewrite <- !app_assoc.
Qed.

End Refresh.

(** ** The resource-groups and compartments tables *)

Lemma compartment_rows_map entries : compartment_rows entries = map compartment_row entries.
Proof.
  unfold compartment_rows.
  assert (forall rows,
            foldl (fun rows entry =>
                     rows ++ [ {| Row_Values := [string_value entry.1; string_value entry.2] |} ])
              rows entries
            = rows ++ map compartment_row entries) as Hfold.
  { induction entries as [|entry entries IH]; intros rows; cbn [foldl map].
    - by rewrite app_nil_r.
    - rewrite IH. by rewrite <- app_assoc. }
  apply (Hfold []).
Qed.

Section Tables.
Variable cloud : Cloud.
Variable rangeOrder : nat -> gmap string string -> list (string * string).

(** X5.  The resource-groups table of a one-query request: the placeholder,
    then one row per item of the listing, in listing order and with
    repetitions; an item without resource group makes the handler
    panic. *)
Theorem resourcegroupsResponse_table fuel tsdbReq q w ps :
  Req_Queries tsdbReq = [q] ->
  let region := json_Region (Q_ModelJson q) in
  let compartment := json_Compartment (Q_ModelJson q) in
  fetched cloud fuel region compartment (resourcegroups_details q) ps ->
  let items := concat (map LMRes_Items ps) in
  let w' := searched (StringToRegion cloud region)
              (page_requests compartment (resourcegroups_details q) None ps) w in
  (forall groups,
     map Metric_ResourceGroup items = map Some groups ->
     resourcegroupsResponse cloud fuel tsdbReq w
     = (Ok (table_response "resourcegroups"
              {| Table_Columns := [text_column];
                 Table_Rows := text_row "NoResourceGroup" :: map text_row groups |}), w'))
  /\ (forall item,
        item ∈ items -> Metric_ResourceGroup item = None ->
        resourcegroupsResponse cloud fuel tsdbReq w = (Panicked, w')).
Proof.
  intros Hq region compartment Hfetched items w'.
  assert (resourcegroupsResponse cloud fuel tsdbReq w
          = match mapM Metric_ResourceGroup items with
            | Some groups =>
                (Ok (table_response "resourcegroups"
                       {| Table_Columns := [text_column];
                          Table_Rows := text_row "NoResourceGroup" :: map text_row groups |}),
                 w')
            | None => (Panicked, w')
            end) as ->.
  { unfold resourcegroupsResponse. cbn zeta. rewrite Hq. unfold bind at 1.
    rewrite per_query_one. unfold resourcegroups_query. cbn zeta.
    unfold bind at 1. unfold wrapErr.
    change (searchHelper cloud fuel _ _ _ w)
      with (searchHelper cloud fuel region compartment (resourcegroups_details q) w).
    rewrite (searchHelper_fetched cloud fuel _ _ _ ps w Hfetched).
    cbv beta iota. cbn [common_String deref]. unfold bind at 1. unfold ret at 1.
    rewrite (rows_of_fields Metric_ResourceGroup). fold items.
    by destruct (mapM _ _). }
  split.
  - intros groups Hgroups. by rewrite (mapM_Some_map _ _ _ Hgroups).
  - intros item Hin Hnone. by rewrite (mapM_None_field _ _ _ Hin Hnone).
Qed.

Hypothesis rangeOrder_perm : forall k m, rangeOrder k m ≡ₚ map_to_list m.

(** X13.  The table of a compartments request has two columns named [text]
    and one row per entry of the cache as the request leaves it, the path
    first and the id second; when the cache is not due for a refresh the
    request returns that table, calls nothing and leaves the datasource as
    it was. *)
Theorem compartmentsResponse_table fuel tsdbReq w :
  (forall q qs,
     Req_Queries tsdbReq = q :: qs ->
     stale w = false ->
     exists rows,
       compartmentsResponse cloud rangeOrder fuel tsdbReq w
       = (Ok (table_response "compartments"
                {| Table_Columns := [text_column; text_column]; Table_Rows := rows |}),
          next_range w)
       /\ rows ≡ₚ map compartment_row (map_to_list (nameToOCID (o w))))
  /\ (forall resp w',
        compartmentsResponse cloud rangeOrder fuel tsdbReq w = (Ok resp, w') ->
        exists rows,
          resp = table_response "compartments"
                   {| Table_Columns := [text_column; text_column]; Table_Rows := rows |}
          /\ rows ≡ₚ map compartment_row (map_to_list (nameToOCID (o w')))
          /\ length rows = size (nameToOCID (o w'))).
Proof.
  assert (forall w1, compartment_rows (rangeOrder (ranges w1) (nameToOCID (o w1)))
                     ≡ₚ map compartment_row (map_to_list (nameToOCID (o w1)))) as Hrows.
  { intros w1. by rewrite compartment_rows_map, rangeOrder_perm. }
  split.
  - intros q qs Hq Hwarm.
    rewrite (compartmentsResponse_unfold cloud rangeOrder fuel tsdbReq q qs w Hq).
    cbn zeta. rewrite Hwarm. eexists. split; [reflexivity|]. apply Hrows.
  - intros resp w' Hrun.
    destruct (Req_Queries tsdbReq) as [|q qs] eqn:Hq.
    { unfold compartmentsResponse in Hrun. rewrite Hq in Hrun. by cbn in Hrun. }
    rewrite (compartmentsResponse_unfold cloud rangeOrder fuel tsdbReq q qs w Hq) in Hrun.
    cbn zeta in Hrun.
    assert (forall w1,
              (Ok (table_response "compartments"
                     (set_Rows two_text_table
                        (compartment_rows (rangeOrder (ranges w1) (nameToOCID (o w1)))))),
               next_range w1) = (Ok resp, w') ->
              exists rows,
                resp = table_response "compartments"
                         {| Table_Columns := [text_column; text_column]; Table_Rows := rows |}
                /\ rows ≡ₚ map compartment_row (map_to_list (nameToOCID (o w')))
                /\ length rows = size (nameToOCID (o w'))) as Hanswer.
    { intros w1 [= <- <-]. eexists. split; [reflexivity|]. cbn [next_range o].
      split; [apply Hrows|].
      by rewrite (Hrows w1), length_map, length_map_to_list. }
    destruct (stale w).
    + destruct (getCompartments _ _ _ _ _ w) as [[m| | |] w1]; try done.
      by apply Hanswer in Hrun.
    + by apply Hanswer in Hrun.
Qed.

(** X15.  A datasource whose cache was never stamped, as [NewOCIDatasource]
    makes it, is never stamped by any sequence of requests; so whenever
    it is then asked for compartments it asks the identity service for
    the tenancy again, however recent the last refresh. *)
Theorem unstamped_cache_always_refreshes fuel requests w :
  timeCacheUpdated (o w) = 0%Z ->
  let w' := served cloud rangeOrder fuel requests w in
  timeCacheUpdated (o w') = 0%Z
  /\ forall now tsdbReq q qs,
       Req_Queries tsdbReq = q :: qs ->
       exists calls,
         trace (compartmentsResponse cloud rangeOrder fuel tsdbReq (at_time now w')).2
         = trace w' ++ CallGetTenancy (ic_region (identityClient (o w')))
                         (json_tenancyOCID (Q_ModelJson q)) :: calls.
Proof.
  intros Hzero w'.
  assert (timeCacheUpdated (o w') = 0%Z) as Hzero'.
  { unfold w'. clear w'. revert w Hzero.
    induction requests as [|[now tsdbReq] requests IH]; intros w Hzero; cbn [served]; [done|].
    apply IH.
    rewrite (Query_same_stamp cloud rangeOrder fuel tsdbReq (at_time now w)). done. }
  split; [done|].
  intros now tsdbReq q qs Hq.
  rewrite (compartmentsResponse_unfold cloud rangeOrder fuel tsdbReq q qs _ Hq). cbn zeta.
  unfold stale. cbn [at_time o]. rewrite Hzero'. cbn [IsZero Z.eqb orb].
  destruct (getCompartments cloud rangeOrder fuel _ _ (at_time now w')) as [r w1] eqn:Hrun.
  apply getCompartments_steady in Hrun as (_ & _ & calls & Hcalls). cbn [at_time o trace] in Hcalls.
  destruct r as [m| | |]; cbn [snd next_range cached set_o trace record].
  - by exists calls.
  - exists (calls ++ [LogError "Unable to refresh cache"]). rewrite Hcalls.
    by rewrite <- app_assoc.
  - by exists calls.
  - by exists calls.
Qed.

End Tables.

(** ** Lookups with several queries *)

Lemma forM_app {A S} (xs ys : list A) (body : S -> A -> M S) : forall acc w,
  forM (xs ++ ys) acc body w
  = match forM xs acc body w with
    | (Ok acc', w') => forM ys acc' body w'
    | (Failed e, w') => (Failed e, w')
    | (Panicked, w') => (Panicked, w')
    | (Spinning, w') => (Spinning, w')
    end.
Proof.
  induction xs as [|x xs IH]; intros acc w; cbn [app forM]; [done|].
  unfold bind. destruct (body acc x w) as [[acc'| | |] w']; [apply IH|done|done|done].
Qed.

Lemma per_query_columns queries (body : Query_ -> M (list TableRow)) : forall table w t w',
  per_query table queries body w = (Ok t, w') -> Table_Columns t = Table_Columns table.
Proof.
  induction queries as [|q queries IH]; intros table w t w' Hrun; unfold per_query in *;
    cbn [forM] in Hrun.
  - by injection Hrun as <- <-.
  - apply bind_Ok in Hrun as (table1 & w1 & Hq & Hrest).
    apply bind_Ok in Hq as (rows & w2 & _ & Hset). injection Hset as <- <-.
    by apply IH in Hrest.
Qed.

(** The table after one more query is the table that query alone gives. *)
Lemma per_query_snoc table qs q (body : Query_ -> M (list TableRow)) w t w1 :
  per_query table qs body w = (Ok t, w1) ->
  per_query table (qs ++ [q]) body w = per_query table [q] body w1.
Proof.
  intros Hrun. pose proof (per_query_columns _ _ _ _ _ _ Hrun) as Hcolumns.
  unfold per_query in *. rewrite forM_app, Hrun. cbn [forM]. unfold bind.
  destruct (body q w1) as [[rows| | |] w2]; try done.
  unfold ret, set_Rows. by rewrite Hcolumns.
Qed.

(** A responder that fills its table query by query. *)
Lemma responder_snoc refId tsdbReq qs q (body : Query_ -> M (list TableRow)) w resp w1 :
  (table <- per_query text_table (Req_Queries (with_queries tsdbReq qs)) body ;;
   ret (table_response refId table)) w = (Ok resp, w1) ->
  (table <- per_query text_table (Req_Queries (with_queries tsdbReq (qs ++ [q]))) body ;;
   ret (table_response refId table)) w
  = (table <- per_query text_table (Req_Queries (with_queries tsdbReq [q])) body ;;
     ret (table_response refId table)) w1.
Proof.
  cbn [with_queries Req_Queries]. intros Hrun.
  apply bind_Ok in Hrun as (table & w' & Htable & Hret). injection Hret as _ <-.
  unfold bind at 1. by rewrite (per_query_snoc _ _ _ _ _ _ _ Htable).
Qed.

Section LastQuery.
Variable cloud : Cloud.
Variable rangeOrder : nat -> gmap string string -> list (string * string).

(** X19.  A lookup with several queries answers for its last query only:
    once the queries before the last have been answered, the outcome of
    the whole request is the outcome of a request with the last query
    alone, made in the world the earlier queries left. *)
Theorem lookups_answer_last_query fuel tsdbReq qs q w resp w1 :
  let before := with_queries tsdbReq qs in
  let whole := with_queries tsdbReq (qs ++ [q]) in
  let last := with_queries tsdbReq [q] in
  (searchResponse cloud fuel before w = (Ok resp, w1) ->
   searchResponse cloud fuel whole w = searchResponse cloud fuel last w1)
  /\ (dimensionResponse cloud rangeOrder fuel before w = (Ok resp, w1) ->
      dimensionResponse cloud rangeOrder fuel whole w
      = dimensionResponse cloud rangeOrder fuel last w1)
  /\ (namespaceResponse cloud fuel before w = (Ok resp, w1) ->
      namespaceResponse cloud fuel whole w = namespaceResponse cloud fuel last w1)
  /\ (resourcegroupsResponse cloud fuel before w = (Ok resp, w1) ->
      resourcegroupsResponse cloud fuel whole w = resourcegroupsResponse cloud fuel last w1)
  /\ (regionsResponse cloud before w = (Ok resp, w1) ->
      regionsResponse cloud whole w = regionsResponse cloud last w1).
Proof.
  intros before whole last. split_and!; apply responder_snoc.
Qed.

End LastQuery.

Lemma lookups_answer_last_query_witness :
  let tsdbReq := batch [] in
  let qs := [lookup_query "search"] in
  let q := lookup_query "search" in
  searchResponse aba_cloud 5 (with_queries tsdbReq (qs ++ [q])) fresh_world
  = searchResponse aba_cloud 5 (with_queries tsdbReq [q])
      (searchResponse aba_cloud 5 (with_queries tsdbReq qs) fresh_world).2.
Proof.
  intros tsdbReq qs q.
  destruct (lookups_answer_last_query aba_cloud listing_order 5 tsdbReq qs q fresh_world
              (table_response "search"
                 {| Table_Columns := [text_column];
                    Table_Rows := [text_row "A"; text_row "B"] |})
              (searchResponse aba_cloud 5 (with_queries tsdbReq qs) fresh_world).2)
    as (Hsearch & _).
  apply Hsearch. vm_compute. reflexivity.
Defined.

(** ** How many calls a listing takes *)

Section CallBounds.
Variable cloud : Cloud.
Variable rangeOrder : nat -> gmap string string -> list (string * string).

Lemma searchHelper_loop_bounded region compartment metricDetails budget :
  forall fuel items page pageNumber w,
    (0 <= pageNumber <= MAX_PAGES_TO_FETCH)%Z ->
    (pageNumber + Z.of_nat budget = MAX_PAGES_TO_FETCH + 1)%Z ->
    budget <= fuel ->
    let run := searchHelper_loop cloud fuel region compartment metricDetails items page
                 pageNumber w in
    returned run.1 = true
    /\ exists reqs,
         trace run.2 = trace w ++ map (CallListMetrics (StringToRegion cloud region)) reqs
         /\ 1 <= length reqs <= budget.
Proof.
  unfold MAX_PAGES_TO_FETCH.
  induction budget as [|budget IH]; intros fuel items page pageNumber w Hn Hb Hf.
  - exfalso. clear -Hn Hb. lia.
  - destruct fuel as [|fuel]; [lia|].
    rewrite searchHelper_loop_step. cbn zeta. unfold MAX_PAGES_TO_FETCH.
    set (req := list_request compartment metricDetails page).
    destruct (ListMetrics cloud _ req) as [res [e|]].
    + split; [done|]. exists [req]. split; [done|]. cbn. lia.
    + destruct (bool_decide (LMRes_OpcNextPage res = None) || (20 <=? pageNumber)%Z) eqn:Hstop.
      * split; [done|]. exists [req]. split; [done|]. cbn. lia.
      * apply orb_false_iff in Hstop as [_ Hpage]. apply Z.leb_gt in Hpage.
        rewrite wrap64_small by lia.
        destruct (IH fuel (items ++ LMRes_Items res) (LMRes_OpcNextPage res)
                    (pageNumber + 1)%Z (searched (StringToRegion cloud region) [req] w))
          as (Hret & reqs & Htrace & Hlen); [lia|lia|lia|].
        split; [done|]. exists (req :: reqs). split.
        -- rewrite Htrace. cbn. by rewrite <- app_assoc.
        -- cbn [length]. lia.
Qed.

(** X21.  Whatever the service answers, [searchHelper] returns, with items
    or with an error, after at least one and at most twenty-one
    [ListMetrics] calls. *)
Theorem searchHelper_bounded fuel region compartment metricDetails w :
  21 <= fuel ->
  let run := searchHelper cloud fuel region compartment metricDetails w in
  returned run.1 = true
  /\ exists reqs,
       trace run.2 = trace w ++ map (CallListMetrics (StringToRegion cloud region)) reqs
       /\ 1 <= length reqs <= 21.
Proof.
  intros Hfuel. unfold searchHelper.
  apply (searchHelper_loop_bounded region compartment metricDetails 21);
    [unfold MAX_PAGES_TO_FETCH; lia|unfold MAX_PAGES_TO_FETCH; lia|done].
Qed.

Lemma listCompartments_loop_endless rootCompartment fuel : forall page maps w,
  endless_listing cloud (ic_region (identityClient (o w))) rootCompartment ->
  let run := listCompartments_loop cloud fuel rootCompartment page maps w in
  run.1 = Spinning
  /\ length (trace run.2) = length (trace w) + fuel
  /\ nameToOCID (o run.2) = nameToOCID (o w).
Proof.
  induction fuel as [|fuel IH]; intros page maps w Hendless run; subst run.
  - cbn. split_and!; [done|lia|done].
  - destruct (Hendless page) as (p & next & Hcall & Hnext & Hwf).
    assert (listCompartments_loop cloud (S fuel) rootCompartment page maps w
            = listCompartments_loop cloud fuel rootCompartment (Some next)
                (foldl noted maps (LCRes_Items p))
                (record (CallListCompartments (ic_region (identityClient (o w)))
                           (compartments_request rootCompartment page)) w)) as ->.
    { cbn [listCompartments_loop]. unfold bind at 1. unfold identityClient_ListCompartments.
      fold (compartments_request rootCompartment page). rewrite Hcall. cbn [fst snd].
      unfold bind at 1. rewrite forM_note_compartment by done. by rewrite Hnext. }
    destruct (IH (Some next) (foldl noted maps (LCRes_Items p))
                (record (CallListCompartments (ic_region (identityClient (o w)))
                           (compartments_request rootCompartment page)) w))
      as (Hspin & Hlen & Hcache); [done|].
    split_and!; [done| |exact Hcache].
    rewrite Hlen. unfold record. cbn [trace]. rewrite length_app. cbn. lia.
Qed.

(** X22.  The paging of [getCompartments] has no cap: on a compartment
    listing whose every page has a cursor it never returns, making one
    more [ListCompartments] call with every step, and the cache is never
    replaced. *)
Theorem getCompartments_endless fuel region rootCompartment w tenancyName :
  GetTenancy cloud (ic_region (identityClient (o w))) rootCompartment
    = ({| GTRes_Name := Some tenancyName |}, None) ->
  endless_listing cloud (StringToRegion cloud region) rootCompartment ->
  let run := getCompartments cloud rangeOrder fuel region rootCompartment w in
  run.1 = Spinning
  /\ length (trace run.2) = length (trace w) + 1 + fuel
  /\ nameToOCID (o run.2) = nameToOCID (o w).
Proof.
  intros Htenancy Hendless run.
  assert (exists w2, run = (Spinning, w2)
                     /\ length (trace w2) = length (trace w) + 1 + fuel
                     /\ nameToOCID (o w2) = nameToOCID (o w)) as (w2 & -> & Hlen & Hcache);
    [|done].
  unfold run, getCompartments. unfold bind at 1. unfold identityClient_GetTenancy.
  rewrite Htenancy. cbn [fst snd GTRes_Name deref]. unfold bind at 1. unfold ret at 1.
  unfold bind at 1. unfold identityClient_SetRegion, modify. unfold bind at 1.
  match goal with
  | |- context [listCompartments_loop cloud fuel rootCompartment None ?maps ?w1] =>
      destruct (listCompartments_loop_endless rootCompartment fuel None maps w1)
        as (Hspin & Hlen & Hcache); [exact Hendless|];
      destruct (listCompartments_loop cloud fuel rootCompartment None maps w1)
        as [r w2] eqn:Hrun
  end.
  cbn [fst snd] in Hspin, Hlen, Hcache. subst r. exists w2. split_and!; [done| |exact Hcache].
  rewrite Hlen. unfold record, set_o. cbn [trace]. rewrite length_app. cbn. lia.
Qed.

End CallBounds.

(** ** The properties at the sample worlds *)

Lemma searchHelper_error_witness :
  searchHelper torn_cloud 5 "phx" sample_compartment sample_details fresh_world
  = (Failed (errors_Wrap (sdk_failure "Service error:InternalServerError")
               "list metrircs failed"),
     searched "phx"
       [ list_request sample_compartment sample_details None;
         list_request sample_compartment sample_details (Some "x") ] fresh_world).
Proof.
  apply (searchHelper_error torn_cloud 5 "phx" sample_compartment sample_details fresh_world
           [(torn_metrics "phx" (list_request sample_compartment sample_details None)).1]).
  - eapply broken_later; [reflexivity|reflexivity|]. eapply broken_here. reflexivity.
  - cbn. lia.
  - cbn. lia.
Defined.

Lemma searchResponse_first_seen_witness :
  searchResponse aba_cloud 5 (batch [lookup_query "search"]) fresh_world
  = (Ok (table_response "search"
           {| Table_Columns := [text_column];
              Table_Rows := [text_row "A"; text_row "B"] |}),
     searched "phx"
       [list_request sample_compartment (search_details (lookup_query "search")) None]
       fresh_world).
Proof.
  destruct (searchResponse_first_seen aba_cloud 5 (batch [lookup_query "search"])
              (lookup_query "search") fresh_world
              [(aba_metrics "phx" (list_request sample_compartment sample_details None)).1]
              ["A"; "B"; "A"]) as [Hrun _].
  - reflexivity.
  - split_and!; [by apply linked_last|reflexivity|cbn; lia|cbn; lia].
  - reflexivity.
  - exact Hrun.
Defined.

Lemma dimensionResponse_rows_witness :
  exists chunks w',
    dimensionResponse instance_cloud listing_order 5 (batch [lookup_query "dimensions"])
      fresh_world
    = (Ok (table_response "dimensions"
             {| Table_Columns := [text_column]; Table_Rows := concat chunks |}), w')
    /\ Forall2 (fun item chunk =>
                  chunk ≡ₚ map dimension_row (map_to_list (Metric_Dimensions item)))
         [ instance_metric "ocid1.instance.a" "VM.Standard2.1";
           instance_metric "ocid1.instance.b" "VM.Standard2.1" ] chunks
    /\ trace w'
       = [ CallListMetrics "phx"
             (list_request sample_compartment (dimension_details (lookup_query "dimensions"))
                None) ].
Proof.
  apply (dimensionResponse_rows instance_cloud listing_order listing_order_perm 5
           (batch [lookup_query "dimensions"]) (lookup_query "dimensions") fresh_world
           [(instance_metrics "phx" (list_request sample_compartment sample_details None)).1]).
  - reflexivity.
  - split_and!; [by apply linked_last|reflexivity|cbn; lia|cbn; lia].
Defined.

Lemma namespaceResponse_rows_witness :
  namespaceResponse (paged_cloud (Some 2)) 5 (batch [lookup_query "namespaces"]) fresh_world
  = (Ok (table_response "namespaces"
           {| Table_Columns := [text_column];
              Table_Rows := [text_row "oci_computeagent"; text_row "oci_computeagent"] |}),
     searched "phx"
       [ list_request sample_compartment namespace_details None;
         list_request sample_compartment namespace_details (Some "x") ] fresh_world).
Proof.
  destruct (namespaceResponse_rows (paged_cloud (Some 2)) 5
              (batch [lookup_query "namespaces"]) (lookup_query "namespaces") fresh_world
              (follow (paged_cloud (Some 2)) "phx" sample_compartment namespace_details 2 None))
    as [Hrows _].
  - reflexivity.
  - split_and!.
    + apply linkedb_linked. vm_compute. reflexivity.
    + vm_compute. reflexivity.
    + vm_compute. lia.
    + vm_compute. lia.
  - apply (Hrows ["oci_computeagent"; "oci_computeagent"]). vm_compute. reflexivity.
Defined.

Lemma resourcegroupsResponse_table_witness :
  resourcegroupsResponse grouped_cloud 5 (batch [resourcegroups_query_A]) fresh_world
  = (Ok (table_response "resourcegroups"
           {| Table_Columns := [text_column];
              Table_Rows := [ text_row "NoResourceGroup"; text_row "frontend";
                              text_row "backend" ] |}),
     searched "phx"
       [list_request sample_compartment (resourcegroups_details resourcegroups_query_A) None]
       fresh_world).
Proof.
  destruct (resourcegroupsResponse_table grouped_cloud 5 (batch [resourcegroups_query_A])
              resourcegroups_query_A fresh_world
              [(grouped_metrics "phx" (list_request sample_compartment sample_details None)).1])
    as [Hrows _].
  - reflexivity.
  - split_and!; [by apply linked_last|reflexivity|cbn; lia|cbn; lia].
  - apply (Hrows ["frontend"; "backend"]). reflexivity.
Defined.

Lemma regionsResponse_rows_witness :
  regionsResponse two_regions (batch [lookup_query "regions"; lookup_query "regions"])
    fresh_world
  = (Ok (table_response "regions"
           {| Table_Columns := [text_column];
              Table_Rows := [text_row "us-ashburn-1"; text_row "us-phoenix-1"] |}),
     called [CallListRegions ""; CallListRegions ""] fresh_world).
Proof.
  destruct (regionsResponse_rows two_regions
              (batch [lookup_query "regions"; lookup_query "regions"]) fresh_world)
    as [Hrows _].
  apply (Hrows (ListRegions two_regions "").1 ["us-ashburn-1"; "us-phoenix-1"]);
    reflexivity.
Defined.

Lemma testResponse_status_witness :
  testResponse (paged_cloud (Some 1)) (batch [lookup_query "test"]) fresh_world
  = (Ok (Some {| Results := [] |}),
     searched "phx" [list_request sample_tenancy no_details None] fresh_world)
  /\ testResponse quiet_cloud (batch [lookup_query "test"]) fresh_world
     = (Panicked, searched "phx" [list_request sample_tenancy no_details None] fresh_world).
Proof.
  split.
  - destruct (testResponse_status (paged_cloud (Some 1)) (batch [lookup_query "test"])
                (lookup_query "test") [] fresh_world eq_refl) as (_ & Hok & _).
    apply (Hok 200%Z); [reflexivity|lia].
  - destruct (testResponse_status quiet_cloud (batch [lookup_query "test"])
                (lookup_query "test") [] fresh_world eq_refl) as (Hnil & _).
    apply Hnil. reflexivity.
Defined.

Lemma queryResponse_results_witness :
  let tsdbReq :=
    batch [ metrics_query "A" "CpuUtilization[1m].mean()";
            metrics_query "C" "MemoryUtilization[1m].mean()" ] in
  exists resp w',
    queryResponse flaky_cloud listing_order tsdbReq fresh_world = (Ok resp, w')
    /\ Forall2 (result_of flaky_cloud tsdbReq) (Req_Queries tsdbReq) (Results resp)
    /\ trace w' = trace fresh_world
                  ++ map (summarize_trace flaky_cloud tsdbReq) (Req_Queries tsdbReq).
Proof.
  intros tsdbReq.
  apply (queryResponse_results flaky_cloud listing_order listing_order_perm tsdbReq fresh_world).
  repeat constructor; vm_compute; reflexivity.
Defined.

Lemma summarize_request_times_witness :
  series_points
    {| MD_Name := Some "CpuUtilization"; MD_Dimensions := ∅;
       MD_AggregatedDatapoints :=
         [ {| ADP_Timestamp := Some (Unix 0 0 + 1560000060000 * Millisecond)%Z;
              ADP_Value := Some 4625196817309499392%N |} ] |} fresh_world
  = (Ok [ {| Point_Timestamp := 1560000060000%Z; Point_Value := 4625196817309499392%N |} ],
     fresh_world).
Proof.
  destruct (summarize_request_times (batch [])
              (Unmarshal_OCI (model "" "phx"))) as (_ & _ & Hback).
  apply Hback; [reflexivity|lia].
Defined.

Lemma series_name_matches_witness :
  series_name listing_order
    (sample_item (<["resourceDisplayName" := "vm1"]> (<["shape" := "VM.Standard2.1"]> ∅)))
    fresh_world
  = (Ok "CpuUtilization, {vm1}", next_range fresh_world).
Proof.
  destruct (series_name_matches listing_order listing_order_perm
              (sample_item (<["resourceDisplayName" := "vm1"]>
                              (<["shape" := "VM.Standard2.1"]> ∅)))
              "CpuUtilization" fresh_world eq_refl) as (_ & _ & Hone).
  apply (Hone "vm1"). vm_compute. reflexivity.
Defined.

Lemma getCompartments_calls_witness :
  let w' := (getCompartments tree_cloud listing_order 5 "phx" sample_tenancy fresh_world).2 in
  trace w'
  = trace fresh_world ++ CallGetTenancy "" sample_tenancy
      :: map (CallListCompartments "phx") (listing_requests sample_tenancy None tree_pages)
  /\ length (listing_requests sample_tenancy None tree_pages) = length tree_pages
  /\ ic_region (identityClient (o w')) = "phx".
Proof.
  apply (getCompartments_calls tree_cloud listing_order 5 "phx" sample_tenancy fresh_world
           "acme" tree_pages).
  - reflexivity.
  - apply tree_pages_listed.
  - vm_compute. reflexivity.
  - cbn [length tree_pages]. lia.
Defined.

Lemma compartmentsResponse_refresh_errors_witness :
  compartmentsResponse hidden_tenancy listing_order 5 compartments_batch fresh_world
  = (Failed (errors_Wrap (sdk_failure "Service error:NotAuthorizedOrNotFound")
               "This is what we were trying to get  : fetching tenancy name"),
     called [CallGetTenancy "" sample_tenancy; LogError "Unable to refresh cache"]
       fresh_world).
Proof.
  destruct (compartmentsResponse_refresh_errors hidden_tenancy listing_order 5
              compartments_batch (lookup_query "compartments") [] fresh_world eq_refl eq_refl)
    as (Htenancy & _).
  apply (Htenancy {| GTRes_Name := None |}). reflexivity.
Defined.

Lemma compartmentsResponse_table_witness :
  exists rows,
    compartmentsResponse tree_cloud listing_order 5 compartments_batch minute_old_world
    = (Ok (table_response "compartments"
             {| Table_Columns := [text_column; text_column]; Table_Rows := rows |}),
       next_range minute_old_world)
    /\ rows ≡ₚ map compartment_row (map_to_list (nameToOCID (o minute_old_world))).
Proof.
  destruct (compartmentsResponse_table tree_cloud listing_order listing_order_perm 5
              compartments_batch minute_old_world) as [Hwarm _].
  apply (Hwarm (lookup_query "compartments") []).
  - reflexivity.
  - vm_compute. reflexivity.
Defined.

Lemma unstamped_cache_always_refreshes_witness :
  let w' :=
    served tree_cloud listing_order 5
      [ (Unix 1560000000 0, compartments_batch); (Unix 1560000001 0, compartments_batch) ]
      fresh_world in
  timeCacheUpdated (o w') = 0%Z
  /\ forall now tsdbReq q qs,
       Req_Queries tsdbReq = q :: qs ->
       exists calls,
         trace (compartmentsResponse tree_cloud listing_order 5 tsdbReq (at_time now w')).2
         = trace w' ++ CallGetTenancy (ic_region (identityClient (o w')))
                         (json_tenancyOCID (Q_ModelJson q)) :: calls.
Proof.
  apply (unstamped_cache_always_refreshes tree_cloud listing_order 5
           [ (Unix 1560000000 0, compartments_batch); (Unix 1560000001 0, compartments_batch) ]
           fresh_world).
  reflexivity.
Defined.

Lemma Query_configured_once_witness :
  let w' := (Query quiet_cloud listing_order 5 (batch [kubernetes_query]) minute_old_world).2 in
  config (o w') = Some DefaultConfigProvider
  /\ mc_provider (metricsClient (o w')) = mc_provider (metricsClient (o minute_old_world))
  /\ ic_provider (identityClient (o w')) = ic_provider (identityClient (o minute_old_world))
  /\ exists calls,
       trace w' = trace minute_old_world ++ calls /\ forallb service_call calls = true.
Proof.
  apply (Query_configured_once quiet_cloud listing_order 5 (batch [kubernetes_query])
           minute_old_world DefaultConfigProvider).
  reflexivity.
Defined.

Lemma Query_first_request_witness :
  let w' := (Query quiet_cloud listing_order 5 (batch [lookup_query "search"]) fresh_world).2 in
  config (o w') = Some DefaultConfigProvider
  /\ mc_provider (metricsClient (o w')) = Some DefaultConfigProvider
  /\ ic_provider (identityClient (o w')) = Some DefaultConfigProvider
  /\ exists calls,
       trace w'
       = trace fresh_world ++ NewMonitoringClient DefaultConfigProvider
           :: NewIdentityClient DefaultConfigProvider :: calls
       /\ forallb service_call calls = true.
Proof.
  apply (Query_first_request quiet_cloud listing_order 5 (batch [lookup_query "search"])
           (lookup_query "search") [] fresh_world DefaultConfigProvider); reflexivity.
Defined.

Lemma Query_setup_failures_witness :
  Query unreachable_identity listing_order 5 (batch [lookup_query "search"]) fresh_world
  = (Panicked,
     record (LogError "error with client")
       (record (NewIdentityClient DefaultConfigProvider)
          (record (NewMonitoringClient DefaultConfigProvider) fresh_world))).
Proof.
  destruct (Query_setup_failures unreachable_identity listing_order 5
              (batch [lookup_query "search"]) (lookup_query "search") [] fresh_world
              eq_refl eq_refl) as (_ & _ & Hpanic).
  apply (Hpanic DefaultConfigProvider
           (errors_New "can not create client, bad configuration")); reflexivity.
Defined.

Lemma searchHelper_bounded_witness :
  let run := searchHelper (paged_cloud None) 30 "phx" sample_compartment sample_details
               fresh_world in
  returned run.1 = true
  /\ exists reqs,
       trace run.2 = trace fresh_world ++ map (CallListMetrics "phx") reqs
       /\ 1 <= length reqs <= 21.
Proof.
  apply (searchHelper_bounded (paged_cloud None) 30 "phx" sample_compartment sample_details
           fresh_world).
  lia.
Defined.

Lemma getCompartments_endless_witness :
  let run := getCompartments circular_cloud listing_order 50 "phx" sample_tenancy fresh_world in
  run.1 = Spinning
  /\ length (trace run.2) = length (trace fresh_world) + 1 + 50
  /\ nameToOCID (o run.2) = nameToOCID (o fresh_world).
Proof.
  apply (getCompartments_endless circular_cloud listing_order 50 "phx" sample_tenancy
           fresh_world "acme").
  - reflexivity.
  - intros page. by eexists _, _.
Defined.
